(** * Cura WASM worker: a shallow embedding of [src/worker.ts]

    The worker is a singleton that drives one Emscripten build of Cura
    Engine.  Its four module-level variables, the two [globalThis]
    callback slots and the engine's in-memory filesystem form the state
    that the worker's methods read and mutate; every method is embedded
    as a computation in a state-and-exception monad over that state.

    Conventions of the embedding:
    - a JavaScript [number] is a binary64 float ([PrimFloat.float]):
      [*], [+], [-] and [/] are the IEEE 754 operations with their
      rounding, [!=] is the negation of the IEEE comparison (so [NaN]
      differs from itself and the two zeros are equal), and [Math.round]
      is the nearest integer with ties towards plus infinity, as in
      ECMAScript;
    - an [ArrayBuffer]/[Uint8Array] is a list of bytes;
    - an [async] method runs to completion without interleaving (the
      worker serves one message at a time and [callMain] is blocking);
    - the collaborators that live outside [worker.ts] (the converter, the
      argument generator, the table of primary definitions, the engine's
      [callMain]) are fields of the class [Foreign]: the theorems hold
      for every instance. *)

From Stdlib Require Import Ascii ZArith Floats.
From stdpp Require Import gmap strings list pretty sorting.

Set Warnings "-inexact-float".

Local Open Scope string_scope.
Local Open Scope list_scope.

(** ** Bytes, errors and outcomes *)

Definition bytes := list Byte.byte.

(** Error codes of Emscripten's [FS.ErrnoError]. *)
Inductive errno := ENOENT | EEXIST | ENOTEMPTY | EISDIR | ENOTDIR.

(** Values that can be thrown or returned as errors: a JavaScript
    [Error] carrying its message, a filesystem error, or a failure of
    the foreign engine. *)
Inductive exn :=
| JsError (message : string)
| ErrnoError (code : errno)
| EngineAbort (what : string).

Inductive Outcome (A : Type) :=
| Ret (a : A)
| Throw (e : exn).
Arguments Ret {A} a.
Arguments Throw {A} e.

(** ** Emscripten's in-memory filesystem

    Paths are absolute strings; the working directory is the root, whose
    name is the empty string.  Only what the worker calls is modelled:
    [mkdir], [writeFile], [readFile], [unlink] and [rmdir], each with the
    error it raises. *)

Record fs := mkfs {
  files : gmap string bytes;
  dirs : gset string
}.

Definition slash : ascii := "/"%char.

(** [dirname p] is [Some d] when [p] is [d/<last component>], and [None]
    when [p] holds no slash. *)
Fixpoint dirname (p : string) : option string :=
  match p with
  | EmptyString => None
  | String c r =>
      match dirname r with
      | Some d => Some (String c d)
      | None => if Ascii.eqb c slash then Some EmptyString else None
      end
  end.

(** Resolution against the working directory [/]. *)
Definition resolve (p : string) : string :=
  match p with
  | String c _ => if Ascii.eqb c slash then p else String slash p
  | EmptyString => p
  end.

Definition parent (p : string) : string := default EmptyString (dirname p).

Definition dir_exists (d : string) (f : fs) : bool :=
  bool_decide (d = EmptyString ∨ d ∈ dirs f).

Definition has_children (d : string) (f : fs) : bool :=
  bool_decide (set_Exists (λ p, parent p = d) (dom (files f) ∪ dirs f)).

Definition FS_mkdir (path : string) (f : fs) : Outcome fs :=
  let p := resolve path in
  if bool_decide (p ∈ dom (files f) ∪ dirs f) then Throw (ErrnoError EEXIST)
  else if negb (dir_exists (parent p) f) then Throw (ErrnoError ENOENT)
  else Ret (mkfs (files f) ({[ p ]} ∪ dirs f)).

Definition FS_writeFile (path : string) (data : bytes) (f : fs) : Outcome fs :=
  let p := resolve path in
  if bool_decide (p ∈ dirs f) then Throw (ErrnoError EISDIR)
  else if negb (dir_exists (parent p) f) then Throw (ErrnoError ENOENT)
  else Ret (mkfs (<[ p := data ]> (files f)) (dirs f)).

Definition FS_readFile (path : string) (f : fs) : Outcome bytes :=
  let p := resolve path in
  match files f !! p with
  | Some data => Ret data
  | None =>
      if bool_decide (p ∈ dirs f) then Throw (ErrnoError EISDIR)
      else Throw (ErrnoError ENOENT)
  end.

Definition FS_unlink (path : string) (f : fs) : Outcome fs :=
  let p := resolve path in
  match files f !! p with
  | Some _ => Ret (mkfs (delete p (files f)) (dirs f))
  | None =>
      if bool_decide (p ∈ dirs f) then Throw (ErrnoError EISDIR)
      else Throw (ErrnoError ENOENT)
  end.

Definition FS_rmdir (path : string) (f : fs) : Outcome fs :=
  let p := resolve path in
  if bool_decide (p ∈ dom (files f)) then Throw (ErrnoError ENOTDIR)
  else if negb (bool_decide (p ∈ dirs f)) then Throw (ErrnoError ENOENT)
  else if has_children p f then Throw (ErrnoError ENOTEMPTY)
  else Ret (mkfs (files f) (dirs f ∖ {[ p ]})).

(** Every file and every directory lies in an existing directory. *)
Definition fs_wf (f : fs) : Prop :=
  ∀ p, p ∈ dom (files f) ∪ dirs f → dir_exists (parent p) f = true.

(** ** Strings: [String.prototype.split] and [Array.prototype.join] *)

(** [split sep s] is [s.split(sep)] for a one-character separator: every
    occurrence of the separator ends a token, so the result is never
    empty and may hold empty tokens. *)
Fixpoint split (sep : ascii) (s : string) : list string :=
  match s with
  | EmptyString => [EmptyString]
  | String c r =>
      if Ascii.eqb c sep then EmptyString :: split sep r
      else match split sep r with
           | w :: ws => String c w :: ws
           | [] => [String c EmptyString]
           end
  end.

Fixpoint join (sep : string) (l : list string) : string :=
  match l with
  | [] => EmptyString
  | [w] => w
  | w :: ws => w +:+ sep +:+ join sep ws
  end.

(** ** Numbers *)

Local Open Scope float_scope.

(** The integer [n] as a number; exact when [|n| < 2^53]. *)
Definition of_Z (n : Z) : float :=
  match n with
  | Z0 => 0
  | Zpos _ => of_uint63 (Uint63.of_Z n)
  | Zneg p => - of_uint63 (Uint63.of_Z (Zpos p))
  end.

(** [Math.round]: the integer nearest to [x], ties towards plus
    infinity, that is the floor of [x + 1/2] computed exactly.  A number
    with a non-negative exponent is an integer already; zeros, infinities
    and [NaN] are returned as they are; a negative [x] that rounds to
    zero gives [-0]. *)
Definition Math_round (x : float) : float :=
  match Prim2SF x with
  | S754_finite s m e =>
      if (0 <=? e)%Z then x
      else
        let n := ((cond_Zopp s (Zpos m) + 2 ^ (- e - 1)) / 2 ^ (- e))%Z in
        if (n =? 0)%Z then (if s then neg_zero else 0) else of_Z n
  | _ => x
  end.

(** ** Data of [types.ts] and of the worker *)

Record override := {
  scope : option string;
  key : string;
  value : string
}.

Record Metadata := {
  flavor : string;
  printTime : float;
  material1Usage : float;
  material2Usage : float;
  nozzleSize : float;
  filamentUsage : float;
  minX : float;
  minY : float;
  minZ : float;
  maxX : float;
  maxY : float;
  maxZ : float
}.

(** A subscriber of an [Observable]; [next] may be missing. *)
Record Observer := { has_next : bool }.

(** The closure stored under [globalThis['cura-wasm-progress-callback']]:
    the two biases it captures and its mutable [previousSlicerProgress]. *)
Record ProgressCallback := {
  cb_converterBias : float;
  cb_slicerBias : float;
  previousSlicerProgress : float
}.

(** The closure stored under [globalThis['cura-wasm-metadata-callback']];
    it captures nothing of its own. *)
Inductive MetadataCallback := metadataHandler.

(** What the engine does to the host while [callMain] runs: calls of the
    progress callback and of the metadata callback (twelve positional
    arguments). *)
Inductive EngineEvent :=
| ProgressEvent (slicerProgress : float)
| MetadataEvent (flavor : string)
    (printTime material1Usage material2Usage nozzleSize filamentUsage
     minX minY minZ maxX maxY maxZ : float).

(** What one call of the converter does: the fractions it reports to its
    progress callback, in order, and its result, which is the STL bytes, an
    [Error] value (returned, not thrown), or a rejection. *)
Record ConvertRun := {
  reported : list float;
  converted : Outcome (bytes + exn)
}.

(** ** Describing the progress stream

    Pure counterparts of the progress handler, used to state what a run
    sends to the progress observer. *)

(** [Math.round(100 * slicerProgress) / 100] *)
Definition rounded (raw : float) : float := Math_round (100 * raw) / 100.

(** The progress calls among the engine's callbacks. *)
Fixpoint raw_progress (evs : list EngineEvent) : list float :=
  match evs with
  | [] => []
  | ProgressEvent raw :: evs' => raw :: raw_progress evs'
  | MetadataEvent _ _ _ _ _ _ _ _ _ _ _ _ :: evs' => raw_progress evs'
  end.

(** The rounded values that pass the handler's test, when the handler
    starts with [previous] in [previousSlicerProgress]. *)
Fixpoint forwarded (previous : float) (raws : list float) : list float :=
  match raws with
  | [] => []
  | raw :: rest =>
      if negb (rounded raw =? previous)
      then rounded raw :: forwarded (rounded raw) rest
      else forwarded previous rest
  end.

(** No value of [l] equals the one before it, the first having
    [previous] before it; equality is that of [==] on numbers. *)
Fixpoint no_repeat (previous : float) (l : list float) : Prop :=
  match l with
  | [] => True
  | x :: l' => (x =? previous) = false ∧ no_repeat x l'
  end.

(** The records the metadata handler builds, one per metadata call of
    the engine, from the twelve positional arguments. *)
Fixpoint raw_metadata (evs : list EngineEvent) : list Metadata :=
  match evs with
  | [] => []
  | ProgressEvent _ :: evs' => raw_metadata evs'
  | MetadataEvent fl pt m1 m2 nz fu x0 y0 z0 x1 y1 z1 :: evs' =>
      {| flavor := fl; printTime := pt; material1Usage := m1;
         material2Usage := m2; nozzleSize := nz; filamentUsage := fu;
         minX := x0; minY := y0; minZ := z0;
         maxX := x1; maxY := y1; maxZ := z1 |} :: raw_metadata evs'
  end.

(** ** Binary64 numbers counted in units of the least subnormal

    What the proofs about the order of the progress values rest on: the
    size of a non-negative number as an integer multiple of [2^-1074],
    and rounding to nearest, ties to even, on such integers. *)

Section Binary64.

Local Open Scope Z_scope.

(** [m / 2^n] rounded to the nearest integer, ties to even. *)
Definition rne (m n : Z) : Z :=
  let q := m / 2 ^ n in
  let rest := m mod 2 ^ n in
  if 2 * rest <? 2 ^ n then q
  else if 2 * rest =? 2 ^ n then (if Z.even q then q else q + 1)
  else q + 1.

(** The state of [shr] after [k] steps from the mantissa [m]: the
    quotient, the round bit and the sticky bit. *)
Definition shifted (m k : Z) (mrs : shr_record) : Prop :=
  0 ≤ shr_m mrs ∧
  ∃ t, 0 ≤ t < 2 ^ k ∧
    2 * m = shr_m mrs * 2 ^ (k + 1) + (if shr_r mrs then 2 ^ k else 0) + t ∧
    shr_s mrs = negb (t =? 0).

(** The value of a finite number in units of [2^-1074]. *)
Definition ulps (f : spec_float) : Z :=
  match f with
  | S754_finite _ m e => Zpos m * 2 ^ (e + 1074)
  | _ => 0
  end.

(** A zero or a positive finite number. *)
Definition nonneg (f : spec_float) : Prop :=
  match f with
  | S754_zero _ | S754_finite false _ _ => True
  | _ => False
  end.

(** The exponent of the binary64 mantissa of a number whose leading bit
    has weight [2^(d-1)]. *)
Definition target (d : Z) : Z := fexp prec emax d.

(** [nearest e0 P] is the size of the binary64 number nearest to
    [P * 2 ^ e0]. *)
Definition nearest (e0 P : Z) : Z :=
  let E := target (Zdigits2 P + e0) in
  rne P (E - e0) * 2 ^ (E + 1074).

(** The size of a number, and the numbers ordered by their size. *)
Definition size (x : float) : Z := ulps (Prim2SF x).

Definition positive_number (x : float) : Prop := nonneg (Prim2SF x).

(** [Math.round(100 * raw)] as an integer, for a [raw] of [0, 1]. *)
Definition hundredths (raw : float) : Z :=
  (size (100 * raw) + 2 ^ 1073) / 2 ^ 1074.

End Binary64.

(** [x <= y] on numbers. *)
Definition number_le (x y : float) : Prop := (x <=? y) = true.

(** A number of the closed interval [0, 1]. *)
Definition fraction (x : float) : Prop := number_le 0 x ∧ number_le x 1.

(** A sequence of fractions that never decreases. *)
Definition rising_fractions (l : list float) : Prop :=
  StronglySorted number_le l ∧ Forall fraction l.

Section Worker.

Context {Heap json : Type}.

(** [EmscriptenModule2]: the filesystem the worker uses and the rest of
    the module's memory, which only the engine reads. *)
Record EmscriptenModule2 := {
  FS : fs;
  heap : Heap
}.

(** One call of [callMain]: the callbacks it makes, the module it leaves
    behind, and the exception it ends with, if any. *)
Record EngineRun := {
  notifications : list EngineEvent;
  after : EmscriptenModule2;
  fault : option exn
}.

Record CombinedDefinition := {
  printer : json;
  extruders : list json
}.

(** The collaborators of [worker.ts]. *)
Class Foreign := {
  JSON_stringify : json → bytes;
  definitions : list (string * json);
  CuraEngine : bool → EmscriptenModule2;
  convert : bytes → string → ConvertRun;
  generate : option (list override) → option bool → list string;
  callMain : list string → EmscriptenModule2 → EngineRun
}.

(** The worker's state: its four instance variables, the two [globalThis]
    slots, and what it has sent out so far (values given to the two
    observers, argument vectors given to [callMain], console lines). *)
Record World := {
  engine : option EmscriptenModule2;
  extruderCount : option nat;
  progressObserver : option Observer;
  metadataObserver : option Observer;
  cura_wasm_progress_callback : option ProgressCallback;
  cura_wasm_metadata_callback : option MetadataCallback;
  progressStream : list float;
  metadataStream : list Metadata;
  mainCalls : list (list string);
  console : list string
}.

Definition set_engine (v : option EmscriptenModule2) (w : World) : World :=
  {| engine := v; extruderCount := extruderCount w;
     progressObserver := progressObserver w;
     metadataObserver := metadataObserver w;
     cura_wasm_progress_callback := cura_wasm_progress_callback w;
     cura_wasm_metadata_callback := cura_wasm_metadata_callback w;
     progressStream := progressStream w; metadataStream := metadataStream w;
     mainCalls := mainCalls w; console := console w |}.

Definition set_extruderCount (v : option nat) (w : World) : World :=
  {| engine := engine w; extruderCount := v;
     progressObserver := progressObserver w;
     metadataObserver := metadataObserver w;
     cura_wasm_progress_callback := cura_wasm_progress_callback w;
     cura_wasm_metadata_callback := cura_wasm_metadata_callback w;
     progressStream := progressStream w; metadataStream := metadataStream w;
     mainCalls := mainCalls w; console := console w |}.

Definition set_progressObserver (v : option Observer) (w : World) : World :=
  {| engine := engine w; extruderCount := extruderCount w;
     progressObserver := v;
     metadataObserver := metadataObserver w;
     cura_wasm_progress_callback := cura_wasm_progress_callback w;
     cura_wasm_metadata_callback := cura_wasm_metadata_callback w;
     progressStream := progressStream w; metadataStream := metadataStream w;
     mainCalls := mainCalls w; console := console w |}.

Definition set_metadataObserver (v : option Observer) (w : World) : World :=
  {| engine := engine w; extruderCount := extruderCount w;
     progressObserver := progressObserver w;
     metadataObserver := v;
     cura_wasm_progress_callback := cura_wasm_progress_callback w;
     cura_wasm_metadata_callback := cura_wasm_metadata_callback w;
     progressStream := progressStream w; metadataStream := metadataStream w;
     mainCalls := mainCalls w; console := console w |}.

Definition set_progress_callback (v : option ProgressCallback) (w : World)
  : World :=
  {| engine := engine w; extruderCount := extruderCount w;
     progressObserver := progressObserver w;
     metadataObserver := metadataObserver w;
     cura_wasm_progress_callback := v;
     cura_wasm_metadata_callback := cura_wasm_metadata_callback w;
     progressStream := progressStream w; metadataStream := metadataStream w;
     mainCalls := mainCalls w; console := console w |}.

Definition set_metadata_callback (v : option MetadataCallback) (w : World)
  : World :=
  {| engine := engine w; extruderCount := extruderCount w;
     progressObserver := progressObserver w;
     metadataObserver := metadataObserver w;
     cura_wasm_progress_callback := cura_wasm_progress_callback w;
     cura_wasm_metadata_callback := v;
     progressStream := progressStream w; metadataStream := metadataStream w;
     mainCalls := mainCalls w; console := console w |}.

Definition set_progressStream (vs : list float) (w : World) : World :=
  {| engine := engine w; extruderCount := extruderCount w;
     progressObserver := progressObserver w;
     metadataObserver := metadataObserver w;
     cura_wasm_progress_callback := cura_wasm_progress_callback w;
     cura_wasm_metadata_callback := cura_wasm_metadata_callback w;
     progressStream := vs;
     metadataStream := metadataStream w;
     mainCalls := mainCalls w; console := console w |}.

Definition push_progress (v : float) (w : World) : World :=
  set_progressStream (progressStream w ++ [v]) w.

Definition push_metadata (m : Metadata) (w : World) : World :=
  {| engine := engine w; extruderCount := extruderCount w;
     progressObserver := progressObserver w;
     metadataObserver := metadataObserver w;
     cura_wasm_progress_callback := cura_wasm_progress_callback w;
     cura_wasm_metadata_callback := cura_wasm_metadata_callback w;
     progressStream := progressStream w;
     metadataStream := metadataStream w ++ [m];
     mainCalls := mainCalls w; console := console w |}.

Definition push_mainCall (args : list string) (w : World) : World :=
  {| engine := engine w; extruderCount := extruderCount w;
     progressObserver := progressObserver w;
     metadataObserver := metadataObserver w;
     cura_wasm_progress_callback := cura_wasm_progress_callback w;
     cura_wasm_metadata_callback := cura_wasm_metadata_callback w;
     progressStream := progressStream w; metadataStream := metadataStream w;
     mainCalls := mainCalls w ++ [args]; console := console w |}.

Definition push_console (line : string) (w : World) : World :=
  {| engine := engine w; extruderCount := extruderCount w;
     progressObserver := progressObserver w;
     metadataObserver := metadataObserver w;
     cura_wasm_progress_callback := cura_wasm_progress_callback w;
     cura_wasm_metadata_callback := cura_wasm_metadata_callback w;
     progressStream := progressStream w; metadataStream := metadataStream w;
     mainCalls := mainCalls w; console := console w ++ [line] |}.

(** ** The monad of worker code: state plus exceptions

    A thrown exception keeps the state reached so far, as in JavaScript. *)

Definition JS (A : Type) : Type := World → Outcome A * World.

Definition ret {A} (a : A) : JS A := λ w, (Ret a, w).

Definition throw {A} (e : exn) : JS A := λ w, (Throw e, w).

Definition bind {A B} (m : JS A) (k : A → JS B) : JS B :=
  λ w, match m w with
       | (Ret a, w') => k a w'
       | (Throw e, w') => (Throw e, w')
       end.

Notation "'let!' x ':=' m 'in' k" := (bind m (λ x, k))
  (at level 10, x name, m at level 100, k at level 200).
Notation "m ';;' k" := (bind m (λ _, k))
  (at level 100, k at level 200, right associativity).

Definition gets {A} (f : World → A) : JS A := λ w, (Ret (f w), w).

Definition modify (f : World → World) : JS unit := λ w, (Ret tt, f w).

(** [for (const x of l) body(x)] *)
Fixpoint for_each {A} (l : list A) (body : A → JS unit) : JS unit :=
  match l with
  | [] => ret tt
  | x :: l' => body x ;; for_each l' body
  end.

(** A call [engine.FS.op(...)] that changes the filesystem. *)
Definition engine_FS (op : fs → Outcome fs) : JS unit :=
  λ w, match engine w with
       | None => (Throw (JsError "TypeError: engine is null"), w)
       | Some e =>
           match op (FS e) with
           | Ret f' => (Ret tt, set_engine (Some {| FS := f'; heap := heap e |}) w)
           | Throw err => (Throw err, w)
           end
       end.

(** A call [engine.FS.op(...)] that only reads. *)
Definition engine_FS_read {A} (op : fs → Outcome A) : JS A :=
  λ w, match engine w with
       | None => (Throw (JsError "TypeError: engine is null"), w)
       | Some e => (op (FS e), w)
       end.

(** [if (observer != null && observer.next != null)] *)
Definition can_emit (o : option Observer) : bool :=
  match o with
  | Some ob => has_next ob
  | None => false
  end.

(** [progressObserver.next(v)] under the guard above. *)
Definition emit_progress (v : float) : JS unit :=
  λ w, if can_emit (progressObserver w) then (Ret tt, push_progress v w)
       else (Ret tt, w).

Definition emit_metadata (m : Metadata) : JS unit :=
  λ w, if can_emit (metadataObserver w) then (Ret tt, push_metadata m w)
       else (Ret tt, w).

(** The body of the progress handler registered by [run]
    (worker.ts, lines 168-184), run on the closure [cb]; it yields the
    closure with its updated [previousSlicerProgress]. *)
Definition progress_handler (cb : ProgressCallback) (raw : float)
  : JS ProgressCallback :=
  let slicerProgress := Math_round (100 * raw) / 100 in
  if negb (slicerProgress =? previousSlicerProgress cb) then
    emit_progress (slicerProgress * cb_slicerBias cb + cb_converterBias cb) ;;
    ret {| cb_converterBias := cb_converterBias cb;
           cb_slicerBias := cb_slicerBias cb;
           previousSlicerProgress := slicerProgress |}
  else ret cb.

(** The engine calling into the host.  A callback is looked up in
    [globalThis] at the time of the call; the engine does nothing when
    the slot is empty. *)
Definition deliver (ev : EngineEvent) : JS unit :=
  match ev with
  | ProgressEvent raw =>
      let! slot := gets cura_wasm_progress_callback in
      match slot with
      | Some cb =>
          let! cb' := progress_handler cb raw in
          modify (set_progress_callback (Some cb'))
      | None => ret tt
      end
  | MetadataEvent fl pt m1 m2 nz fu x0 y0 z0 x1 y1 z1 =>
      let! slot := gets cura_wasm_metadata_callback in
      match slot with
      | Some metadataHandler =>
          emit_metadata
            {| flavor := fl; printTime := pt; material1Usage := m1;
               material2Usage := m2; nozzleSize := nz; filamentUsage := fu;
               minX := x0; minY := y0; minZ := z0;
               maxX := x1; maxY := y1; maxZ := z1 |}
      | None => ret tt
      end
  end.

Context `{foreign : Foreign}.

(** [engine.callMain(args)]: blocking; the callbacks happen inside it. *)
Definition engine_callMain (args : list string) : JS unit :=
  let! e := gets engine in
  match e with
  | None => throw (JsError "TypeError: engine is null")
  | Some e =>
      let r := callMain args e in
      modify (push_mainCall args) ;;
      for_each (notifications r) deliver ;;
      modify (set_engine (Some (after r))) ;;
      match fault r with
      | Some err => throw err
      | None => ret tt
      end
  end.

(** [await convert(file, extension, callback)] *)
Definition await_convert (file : bytes) (extension : string)
    (callback : float → JS unit) : JS (bytes + exn) :=
  let r := convert file extension in
  for_each (reported r) callback ;;
  match converted r with
  | Ret v => ret v
  | Throw err => throw err
  end.

(** ** The worker's methods *)

Definition initialize (verbose : bool) : JS unit :=
  modify (set_engine (Some (CuraEngine (negb verbose)))).

Definition primary_path (name : string) : string :=
  "/definitions/" +:+ name +:+ ".def.json".

Definition extruder_path (i : nat) : string :=
  "/definitions/extruder-" +:+ pretty i +:+ ".def.json".

Definition addDefinitions (definition : CombinedDefinition) : JS unit :=
  let! e := gets engine in
  match e with
  | None => throw (JsError "Attempting to add definitions before initialization!")
  | Some _ =>
      engine_FS (FS_mkdir "/definitions") ;;
      for_each definitions
        (λ d, engine_FS (FS_writeFile (primary_path d.1) (JSON_stringify d.2))) ;;
      engine_FS (FS_writeFile "/definitions/printer.def.json"
                   (JSON_stringify (printer definition))) ;;
      for_each (imap pair (extruders definition))
        (λ ie, engine_FS (FS_writeFile (extruder_path ie.1)
                            (JSON_stringify ie.2))) ;;
      modify (set_extruderCount (Some (length (extruders definition))))
  end.

Definition observeProgress (observer : Observer) : JS unit :=
  modify (set_progressObserver (Some observer)).

Definition observeMetadata (observer : Observer) : JS unit :=
  modify (set_metadataObserver (Some observer)).

Definition converterBias (extension : string) : float :=
  if String.eqb extension "stl" then 0 else 0.3.

Definition slicerBias (extension : string) : float :=
  1 - converterBias extension.

(** [command == null ? generate(overrides, verbose) : command.split(' ')] *)
Definition arguments (command : option string)
    (overrides : option (list override)) (verbose : option bool)
  : list string :=
  match command with
  | None => generate overrides verbose
  | Some c => split " "%char c
  end.

Definition truthy (verbose : option bool) : bool :=
  match verbose with
  | Some b => b
  | None => false
  end.

(** The [else] branch of [run]: from writing [Model.stl] to the return. *)
Definition slice (command : option string)
    (overrides : option (list override)) (verbose : option bool)
    (extension : string) (stl : bytes) : JS (bytes + exn) :=
  engine_FS (FS_writeFile "Model.stl" stl) ;;
  modify (set_progress_callback
            (Some {| cb_converterBias := converterBias extension;
                     cb_slicerBias := slicerBias extension;
                     previousSlicerProgress := 0 |})) ;;
  modify (set_metadata_callback (Some metadataHandler)) ;;
  let args := arguments command overrides verbose in
  (if truthy verbose
   then modify (push_console ("Calling Cura Engine with " +:+ join " " args))
   else ret tt) ;;
  engine_callMain args ;;
  modify (set_progress_callback None) ;;
  let! gcode := engine_FS_read (FS_readFile "Model.gcode") in
  engine_FS (FS_unlink "Model.stl") ;;
  engine_FS (FS_unlink "Model.gcode") ;;
  ret (inl gcode).

Definition run (command : option string)
    (overrides : option (list override)) (verbose : option bool)
    (file : bytes) (extension : string) : JS (bytes + exn) :=
  let! e := gets engine in
  match e with
  | None => throw (JsError "Attempting to run Cura Engine before initialization!")
  | Some _ =>
      let! stl :=
        await_convert file extension
          (λ converterProgress,
             emit_progress (converterProgress * converterBias extension)) in
      match stl with
      | inr err => ret (inr err)
      | inl stl => slice command overrides verbose extension stl
      end
  end.

Definition removeDefinitions : JS unit :=
  let! e := gets engine in
  let! n := gets extruderCount in
  match e, n with
  | Some _, Some extruderCount =>
      for_each definitions (λ d, engine_FS (FS_unlink (primary_path d.1))) ;;
      engine_FS (FS_unlink "/definitions/printer.def.json") ;;
      for_each (seq 0 extruderCount)
        (λ i, engine_FS (FS_unlink (extruder_path i))) ;;
      engine_FS (FS_rmdir "/definitions")
  | _, _ =>
      throw (JsError "Attempting to remove definitions before initialization!")
  end.

(** The same collaborators with another argument generator. *)
Definition with_generate
    (g : option (list override) → option bool → list string) : Foreign :=
  {| JSON_stringify := JSON_stringify; definitions := definitions;
     CuraEngine := CuraEngine; convert := convert; generate := g;
     callMain := callMain |}.

(** What the engine's callbacks never touch. *)
Definition callbacks_frame (w w' : World) : Prop :=
  engine w' = engine w ∧ extruderCount w' = extruderCount w ∧
  progressObserver w' = progressObserver w ∧
  metadataObserver w' = metadataObserver w ∧
  cura_wasm_metadata_callback w' = cura_wasm_metadata_callback w ∧
  mainCalls w' = mainCalls w ∧ console w' = console w.

(** [(slicerProgress * slicerBias) + converterBias] *)
Definition blend (cb : ProgressCallback) (slicerProgress : float) : float :=
  slicerProgress * cb_slicerBias cb + cb_converterBias cb.

(** The state once the converter has reported all its progress. *)
Definition after_conversion (file : bytes) (extension : string) (w : World)
  : World :=
  if can_emit (progressObserver w)
  then set_progressStream
         (progressStream w ++
          map (λ c, c * converterBias extension)
            (reported (convert file extension))) w
  else w.

(** The raw fractions the engine reports during the run of [run] that
    starts from engine [e] with converted bytes [stl]: those of the one
    [callMain] call, made on the module that holds [Model.stl]. *)
Definition slicing_raws (command : option string)
    (overrides : option (list override)) (verbose : option bool)
    (stl : bytes) (e : EmscriptenModule2) : list float :=
  match FS_writeFile "Model.stl" stl (FS e) with
  | Ret f1 =>
      raw_progress
        (notifications
           (callMain (arguments command overrides verbose)
              {| FS := f1; heap := heap e |}))
  | Throw _ => []
  end.

(** What a filesystem call never touches: everything but [engine]. *)
Definition filesystem_frame (w w' : World) : Prop :=
  extruderCount w' = extruderCount w ∧
  progressObserver w' = progressObserver w ∧
  metadataObserver w' = metadataObserver w ∧
  cura_wasm_progress_callback w' = cura_wasm_progress_callback w ∧
  cura_wasm_metadata_callback w' = cura_wasm_metadata_callback w ∧
  progressStream w' = progressStream w ∧
  metadataStream w' = metadataStream w ∧
  mainCalls w' = mainCalls w ∧ console w' = console w.

(** A computation whose final state is always related to its initial
    state by [R], whether it returns or throws. *)
Definition keeps (R : World → World → Prop) {A} (m : JS A) : Prop :=
  ∀ w, R w (m w).2.

(** The files [addDefinitions] writes, in order, and the paths
    [removeDefinitions] unlinks, in order, for [n] recorded extruders. *)
Definition staged_files (definition : CombinedDefinition)
  : list (string * bytes) :=
  ((λ d, (primary_path d.1, JSON_stringify d.2)) <$> definitions) ++
  [("/definitions/printer.def.json", JSON_stringify (printer definition))] ++
  ((λ ie, (extruder_path ie.1, JSON_stringify ie.2)) <$>
     imap pair (extruders definition)).

Definition removed_paths (n : nat) : list string :=
  ((λ d, primary_path d.1) <$> definitions) ++
  ["/definitions/printer.def.json"] ++
  (extruder_path <$> seq 0 n).

(** What the round trip asks of the table of primary definitions: its
    keys are distinct, hold no slash, and are neither [printer] nor an
    [extruder-<i>]. *)
Definition primary_names_distinct : Prop :=
  NoDup (definitions.*1) ∧
  Forall (λ name, dirname name = None ∧ name ≠ "printer" ∧
                  ∀ i : nat, name ≠ "extruder-" +:+ pretty i)
    (definitions.*1).

(** The names between [/definitions/] and [.def.json] of those paths. *)
Definition staged_stems (n : nat) : list string :=
  definitions.*1 ++ ["printer"] ++
  ((λ i : nat, "extruder-" +:+ pretty i) <$> seq 0 n).

(** What [addDefinitions] and [removeDefinitions] leave alone between
    them: the recorded count (for the latter) and the engine handle, of
    which only the filesystem changes. *)
Definition handle_frame (w w' : World) : Prop :=
  extruderCount w' = extruderCount w ∧
  heap <$> engine w' = heap <$> engine w.

(** A computation that, run with an engine, keeps the engine and throws
    no JavaScript [Error]: it returns or fails with a filesystem error. *)
Definition errno_only {A} (m : JS A) : Prop :=
  ∀ w, is_Some (engine w) →
       is_Some (engine (m w).2) ∧ ∀ msg, (m w).1 ≠ Throw (JsError msg).

(** The statements of [run] that follow [callMain] (worker.ts, lines
    235-246): delete the progress handler, read the output, remove both
    files, return the output. *)
Definition finish : JS (bytes + exn) :=
  modify (set_progress_callback None) ;;
  let! gcode := engine_FS_read (FS_readFile "Model.gcode") in
  engine_FS (FS_unlink "Model.stl") ;;
  engine_FS (FS_unlink "Model.gcode") ;;
  ret (inl gcode).

(** A computation whose outcome and final engine are the same from any
    two states that hold the same engine. *)
Definition respects {A} (m : JS A) : Prop :=
  ∀ w w', engine w = engine w' →
          (m w).1 = (m w').1 ∧ engine (m w).2 = engine (m w').2.

(** The directories of the engine's filesystem, if there is an engine. *)
Definition directories (w : World) : option (gset string) :=
  (λ e, dirs (FS e)) <$> engine w.

(** States with the same directories and the same recorded count. *)
Definition same_directories (w w' : World) : Prop :=
  directories w' = directories w ∧ extruderCount w' = extruderCount w.

(** What [run] never changes: the recorded extruder count and the two
    subscribers; and it never drops the engine. *)
Definition registrations_frame (w w' : World) : Prop :=
  extruderCount w' = extruderCount w ∧
  progressObserver w' = progressObserver w ∧
  metadataObserver w' = metadataObserver w ∧
  (is_Some (engine w) → is_Some (engine w')).

End Worker.

Arguments EmscriptenModule2 : clear implicits.
Arguments EngineRun : clear implicits.
Arguments CombinedDefinition : clear implicits.
Arguments Foreign : clear implicits.
Arguments World : clear implicits.
Arguments JS : clear implicits.

Notation "'let!' x ':=' m 'in' k" := (bind m (λ x, k))
  (at level 10, x name, m at level 100, k at level 200).
Notation "m ';;' k" := (bind m (λ _, k))
  (at level 100, k at level 200, right associativity).

(** ** A concrete set of collaborators

    A small instance of [Foreign], to run the worker on: a converter
    that passes STL through, reports progress for 3MF and returns an
    [Error] value for anything else; an engine whose behaviour is chosen
    by the first token of its argument vector. *)

Module Sample.

Definition stringify (s : string) : bytes := String.list_byte_of_string s.

Definition primary : list (string * string) :=
  [("fdmextruder", "{}"); ("fdmprinter", "{}")].

Definition fresh : EmscriptenModule2 unit :=
  {| FS := mkfs ∅ ∅; heap := tt |}.

Definition converter (file : bytes) (extension : string) : ConvertRun :=
  if String.eqb extension "stl" then
    {| reported := []; converted := Ret (inl file) |}
  else if String.eqb extension "3mf" then
    {| reported := [0.25; 0.5; 1]; converted := Ret (inl file) |}
  else
    {| reported := [0.1];
       converted := Ret (inr (JsError "Unknown file extension")) |}.

Definition generator (overrides : option (list override))
    (verbose : option bool) : list string :=
  ["slice"; "-j"; "definitions/printer.def.json"; "-o"; "Model.gcode"]
  ++ flat_map (λ o, ["-s"; key o +:+ "=" +:+ value o]) (default [] overrides)
  ++ ["-l"; "Model.stl"].

Definition report : EngineEvent :=
  MetadataEvent "UltiGCode" 9061 11172 0 0.4 11172
    78.628 95.565 0.3 142.112 127.435 48.

Definition gcode : bytes := stringify ";FLAVOR:UltiGCode".

Definition with_gcode (e : EmscriptenModule2 unit) : EmscriptenModule2 unit :=
  {| FS := mkfs (<[ "/Model.gcode" := gcode ]> (files (FS e))) (dirs (FS e));
     heap := heap e |}.

Definition main (args : list string) (e : EmscriptenModule2 unit)
  : EngineRun unit :=
  match args with
  | "abort" :: _ =>
      {| notifications := [ProgressEvent 0.5]; after := e;
         fault := Some (EngineAbort "abort() called") |}
  | "rewind" :: _ =>
      {| notifications := [ProgressEvent 0.5; ProgressEvent 0];
         after := with_gcode e; fault := None |}
  | _ =>
      {| notifications :=
           [ProgressEvent 0.001; ProgressEvent 0.25; ProgressEvent 0.251;
            ProgressEvent 0.5; report; ProgressEvent 1];
         after := with_gcode e; fault := None |}
  end.

#[global] Instance foreign : Foreign unit string := {|
  JSON_stringify := stringify;
  definitions := primary;
  CuraEngine := λ _, fresh;
  convert := converter;
  generate := generator;
  callMain := main
|}.

(** The worker before [initialize]. *)
Definition unborn : World unit :=
  {| engine := None; extruderCount := None;
     progressObserver := None; metadataObserver := None;
     cura_wasm_progress_callback := None;
     cura_wasm_metadata_callback := None;
     progressStream := []; metadataStream := [];
     mainCalls := []; console := [] |}.

(** The worker after [initialize] and a subscription to both streams. *)
Definition ready : World unit :=
  {| engine := Some fresh; extruderCount := None;
     progressObserver := Some {| has_next := true |};
     metadataObserver := Some {| has_next := true |};
     cura_wasm_progress_callback := None;
     cura_wasm_metadata_callback := None;
     progressStream := []; metadataStream := [];
     mainCalls := []; console := [] |}.

(** The worker while the engine slices a 3MF file: the progress callback
    is registered and has accepted nothing yet. *)
Definition slicing : World unit :=
  set_progress_callback
    (Some {| cb_converterBias := 0.3; cb_slicerBias := 0.7;
             previousSlicerProgress := 0 |})
    ready.

Definition ultimaker2 : CombinedDefinition string :=
  {| printer := "{}"; extruders := ["{}"; "{}"] |}.

Definition model : bytes := stringify "solid benchy".

(** The launch command of the repository's command test. *)
Definition launch : string :=
  "slice -j definitions/printer.def.json -l Model.stl -o Model.gcode".

(** The engine's filesystem once [Model.stl] is written. *)
Definition loaded : fs :=
  mkfs (<[ "/Model.stl" := model ]> (files (FS fresh))) (dirs (FS fresh)).

End Sample.

(** ** Collaborators whose engine writes no output

    The same converter, generator and definitions, with an engine that
    reports its metadata and returns without writing [Model.gcode]. *)

Module Dry.

Definition main (args : list string) (e : EmscriptenModule2 unit)
  : EngineRun unit :=
  {| notifications := [Sample.report]; after := e; fault := None |}.

Definition foreign : Foreign unit string := {|
  JSON_stringify := Sample.stringify;
  definitions := Sample.primary;
  CuraEngine := λ _, Sample.fresh;
  convert := Sample.converter;
  generate := Sample.generator;
  callMain := main
|}.

(** Collaborators whose converter rejects. *)
Definition rejecting : Foreign unit string := {|
  JSON_stringify := Sample.stringify;
  definitions := Sample.primary;
  CuraEngine := λ _, Sample.fresh;
  convert := λ _ _, {| reported := [0.5];
                       converted := Throw (JsError "Unknown file format") |};
  generate := Sample.generator;
  callMain := Sample.main
|}.

(** A worker whose filesystem has a directory where [Model.stl] goes. *)
Definition blocked : World unit :=
  set_engine (Some {| FS := mkfs ∅ {[ "/Model.stl" ]}; heap := tt |})
    Sample.ready.

(** A worker with an engine, no subscriber and a progress callback left
    behind by an earlier run. *)
Definition littered : World unit :=
  set_progress_callback
    (Some {| cb_converterBias := 0.3; cb_slicerBias := 0.7;
             previousSlicerProgress := 0.5 |})
    (set_progressObserver None
       (set_extruderCount (Some 2%nat) Sample.ready)).

End Dry.

(** * Properties *)

(** ** Binary64 arithmetic

    The IEEE 754 operations are specified by [SpecFloat]; what follows
    derives from that specification that multiplying by a positive
    constant, [Math.round] and the blending of the two phases never
    reverse the order of two fractions. *)

Section Rounding.

Local Open Scope Z_scope.

Lemma digits2_pos_bounds (m : positive) :
  2 ^ (Zpos (digits2_pos m) - 1) ≤ Zpos m < 2 ^ Zpos (digits2_pos m).
Proof.
  induction m as [m IH|m IH|]; cbn [digits2_pos].
  - rewrite Pos2Z.inj_succ.
    replace (Z.succ (Z.pos (digits2_pos m)) - 1)
      with (Z.succ (Z.pos (digits2_pos m) - 1)) by lia.
    rewrite !Z.pow_succ_r by lia. lia.
  - rewrite Pos2Z.inj_succ.
    replace (Z.succ (Z.pos (digits2_pos m)) - 1)
      with (Z.succ (Z.pos (digits2_pos m) - 1)) by lia.
    rewrite !Z.pow_succ_r by lia. lia.
  - simpl. lia.
Qed.

Lemma shr_1_shifted m k mrs :
  0 ≤ k → shifted m k mrs → shifted m (k + 1) (shr_1 mrs).
Proof.
  intros Hk (Hq & t & Ht & Hm & Hs).
  destruct mrs as [q r s]. cbn [shr_m shr_r shr_s] in *.
  assert (H2 : 2 ^ (k + 1) = 2 * 2 ^ k) by (rewrite Z.pow_add_r; lia).
  assert (H4 : 2 ^ (k + 1 + 1) = 4 * 2 ^ k)
    by (rewrite !Z.pow_add_r; lia).
  assert (Hpos : 0 < 2 ^ k) by (apply Z.pow_pos_nonneg; lia).
  unfold shr_1.
  destruct q as [|[q|q|]|q]; try lia; unfold shifted; cbn [shr_m shr_r shr_s];
    (split; [lia|]);
    exists ((if r then 2 ^ k else 0) + t);
    rewrite H4; rewrite H2 in *;
    destruct r; subst s;
    (split; [lia|split; [lia|]]);
    repeat match goal with
           | |- context [?a =? 0] => destruct (Z.eqb_spec a 0)
           end; simpl; try reflexivity; lia.
Qed.

Lemma iter_pos_shifted m p : ∀ k mrs,
  0 ≤ k → shifted m k mrs →
  shifted m (k + Zpos p) (SpecFloat.iter_pos shr_1 p mrs).
Proof.
  induction p as [p IH|p IH|]; intros k mrs Hk Hmrs; cbn [SpecFloat.iter_pos].
  - replace (k + Z.pos p~1) with (k + 1 + Z.pos p + Z.pos p) by lia.
    apply IH; [lia|]. apply IH; [lia|]. apply shr_1_shifted; assumption.
  - replace (k + Z.pos p~0) with (k + Z.pos p + Z.pos p) by lia.
    apply IH; [lia|]. apply IH; assumption.
  - apply shr_1_shifted; assumption.
Qed.

(** After [k] steps, [shr] holds the quotient by [2^k], and its round
    and sticky bits make [round_nearest_even] round to nearest even. *)
Lemma shifted_rne m k mrs :
  0 ≤ k → shifted m k mrs →
  shr_m mrs = m / 2 ^ k ∧
  round_nearest_even (shr_m mrs) (loc_of_shr_record mrs) = rne m k.
Proof.
  intros Hk (Hq & t & Ht & Hm & Hs).
  destruct mrs as [q r s]. cbn [shr_m shr_r shr_s] in *.
  assert (H2 : 2 ^ (k + 1) = 2 * 2 ^ k) by (rewrite Z.pow_add_r; lia).
  assert (Hpos : 0 < 2 ^ k) by (apply Z.pow_pos_nonneg; lia).
  rewrite H2 in Hm.
  set (rest := ((if r then 2 ^ k else 0) + t)) in *.
  assert (Hdiv : m / 2 ^ k = q ∧ 2 * (m mod 2 ^ k) = rest).
  { assert (Heven : ∃ u, rest = 2 * u) by (exists (m - q * 2 ^ k); lia).
    destruct Heven as [u Hu].
    assert (Hmq : m = q * 2 ^ k + u) by lia.
    assert (Hu2 : 0 ≤ u < 2 ^ k) by (subst rest; destruct r; lia).
    rewrite Hmq. split.
    - rewrite Z.div_add_l, Z.div_small by lia. lia.
    - rewrite (Z.add_comm (q * 2 ^ k) u), Z.mod_add, Z.mod_small by lia.
      lia. }
  destruct Hdiv as [Hdiv Hrest]. split; [lia|].
  unfold rne. rewrite Hdiv, Hrest. subst rest.
  destruct r, s; cbn [loc_of_shr_record round_nearest_even];
    destruct (Z.eqb_spec t 0); try discriminate;
    destruct (Z.ltb_spec (2 ^ k + t) (2 ^ k));
    destruct (Z.ltb_spec (0 + t) (2 ^ k));
    destruct (Z.eqb_spec (2 ^ k + t) (2 ^ k)); try lia; reflexivity.
Qed.

Lemma shr_rne m e n :
  0 ≤ m → 0 ≤ n →
  (shr (Build_shr_record m false false) e n).2 = e + Z.max 0 n ∧
  shr_m (shr (Build_shr_record m false false) e n).1 = m / 2 ^ n ∧
  round_nearest_even (shr_m (shr (Build_shr_record m false false) e n).1)
    (loc_of_shr_record (shr (Build_shr_record m false false) e n).1) = rne m n.
Proof.
  intros Hm Hn.
  assert (H0 : shifted m 0 (Build_shr_record m false false)).
  { split; [exact Hm|]. exists 0. simpl. lia. }
  destruct n as [|p|p]; try lia; cbn [shr fst snd].
  - destruct (shifted_rne m 0 _ ltac:(lia) H0) as [Hq Hr].
    split; [lia|]. split; assumption.
  - pose proof (iter_pos_shifted m p 0 _ ltac:(lia) H0) as Hp.
    rewrite Z.add_0_l in Hp.
    destruct (shifted_rne m (Zpos p) _ ltac:(lia) Hp) as [Hq Hr].
    split; [lia|]. split; assumption.
Qed.

(** ** Rounding to binary64 *)

Lemma target_spec d : target d = Z.max (d - 53) (-1074).
Proof. reflexivity. Qed.

Lemma rne_bounds m n :
  0 ≤ m → 0 ≤ n → m / 2 ^ n ≤ rne m n ≤ m / 2 ^ n + 1.
Proof.
  intros Hm Hn. unfold rne.
  destruct (_ <? _); [lia|]. destruct (_ =? _); [|lia].
  destruct (Z.even _); lia.
Qed.

Lemma quotient_below (m : positive) n :
  0 ≤ n → Zpos (digits2_pos m) ≤ 53 + n → Zpos m / 2 ^ n < 2 ^ 53.
Proof.
  intros Hn Hd.
  apply Z.div_lt_upper_bound; [apply Z.pow_pos_nonneg; lia|].
  rewrite <- Z.pow_add_r by lia.
  eapply Z.lt_le_trans; [apply digits2_pos_bounds|].
  apply Z.pow_le_mono_r; lia.
Qed.

Lemma shr_idle mrs e n : n ≤ 0 → shr mrs e n = (mrs, e).
Proof. destruct n; [reflexivity|lia|reflexivity]. Qed.

(** [binary_round_aux] on an exact positive mantissa that needs no
    left shift and does not overflow: the result is a zero or a positive
    number, of the size that rounding to nearest even gives. *)
Lemma binary_round_aux_ulps (m : positive) (e : Z) :
  let E := target (Zpos (digits2_pos m) + e) in
  e ≤ E → E < 971 →
  nonneg (binary_round_aux prec emax false (Zpos m) e loc_Exact) ∧
  ulps (binary_round_aux prec emax false (Zpos m) e loc_Exact) =
    rne (Zpos m) (E - e) * 2 ^ (E + 1074).
Proof.
  intros E He Hmax.
  assert (HE : -1074 ≤ E) by (unfold E; rewrite target_spec; lia).
  unfold binary_round_aux, shr_fexp.
  change (Zdigits2 (Zpos m)) with (Zpos (digits2_pos m)).
  change (fexp prec emax (Zpos (digits2_pos m) + e)) with E.
  change (shr_record_of_loc (Z.pos m) loc_Exact)
    with (Build_shr_record (Zpos m) false false).
  destruct (shr_rne (Zpos m) e (E - e) ltac:(lia) ltac:(lia))
    as (Hexp & _ & Hround).
  destruct (shr _ e (E - e)) as [mrs' e'] eqn:Hshr.
  cbn [fst snd] in Hexp, Hround. rewrite Hround.
  replace e' with E by lia. clear Hshr Hexp Hround mrs' e'.
  pose proof (rne_bounds (Zpos m) (E - e) ltac:(lia) ltac:(lia)) as Hb.
  assert (Hq : Zpos m / 2 ^ (E - e) < 2 ^ 53).
  { apply quotient_below; [lia|]. unfold E. rewrite target_spec. lia. }
  assert (H0 : 0 ≤ Zpos m / 2 ^ (E - e)).
  { apply Z.div_pos; [lia|]. apply Z.pow_pos_nonneg; lia. }
  set (m1 := rne (Zpos m) (E - e)) in *.
  change (shr_record_of_loc m1 loc_Exact)
    with (Build_shr_record m1 false false).
  change (fexp prec emax) with target.
  destruct m1 as [|M1|M1] eqn:Hm1; [| |lia].
  - rewrite shr_idle by (cbn [Zdigits2]; rewrite target_spec; lia).
    cbn. split; [exact I|reflexivity].
  - cbn [Zdigits2].
    pose proof (digits2_pos_bounds M1) as Hd.
    destruct (Z.le_gt_cases (Zpos (digits2_pos M1)) 53) as [Hsmall|Hbig].
    + rewrite shr_idle by (rewrite target_spec; lia).
      cbn [shr_m fst snd].
      replace (E <=? emax - prec) with true
        by (symmetry; apply Z.leb_le; change (emax - prec) with 971; lia).
      split; [exact I|reflexivity].
    + assert (Hd54 : Zpos (digits2_pos M1) = 54).
      { assert (Hle : 2 ^ (Zpos (digits2_pos M1) - 1) ≤ 2 ^ 53) by lia.
        apply Z.pow_le_mono_r_iff in Hle; lia. }
      assert (HM1 : Zpos M1 = 2 ^ 53).
      { rewrite Hd54 in Hd. change (54 - 1) with 53 in Hd. lia. }
      rewrite Hd54.
      replace (target (54 + E) - E) with 1 by (rewrite target_spec; lia).
      destruct (shr_rne (Zpos M1) E 1 ltac:(lia) ltac:(lia))
        as (Hexp & Hm2 & _).
      destruct (shr _ E 1) as [mrs2 e2] eqn:Hshr.
      cbn [fst snd] in Hexp, Hm2. rewrite Hm2, HM1.
      change (2 ^ 53 / 2 ^ 1) with (Zpos (2 ^ 52)).
      replace (e2 <=? emax - prec) with true
        by (symmetry; apply Z.leb_le; change (emax - prec) with 971; lia).
      split; [exact I|]. cbn [ulps].
      replace e2 with (E + 1) by lia.
      replace (E + 1 + 1074) with (Z.succ (E + 1074)) by lia.
      rewrite Z.pow_succ_r by lia.
      change (Zpos (2 ^ 52)) with (2 ^ 52). change (2 ^ 53) with (2 * 2 ^ 52).
      ring.
Qed.

(** The number of binary digits is fixed by the power-of-two bounds. *)
Lemma digits_unique (d : Z) (m : positive) :
  2 ^ (d - 1) ≤ Zpos m < 2 ^ d → 0 < d → d = Zpos (digits2_pos m).
Proof.
  intros [Hlo Hhi] Hd. pose proof (digits2_pos_bounds m) as [Hlo' Hhi'].
  assert (H1 : 2 ^ (d - 1) < 2 ^ Zpos (digits2_pos m)) by lia.
  assert (H2 : 2 ^ (Zpos (digits2_pos m) - 1) < 2 ^ d) by lia.
  apply Z.pow_lt_mono_r_iff in H1; [|lia|lia].
  apply Z.pow_lt_mono_r_iff in H2; lia.
Qed.

Lemma digits_mono (m1 m2 : positive) :
  (m1 ≤ m2)%positive → Zpos (digits2_pos m1) ≤ Zpos (digits2_pos m2).
Proof.
  intros Hle. pose proof (digits2_pos_bounds m1) as [Hlo _].
  pose proof (digits2_pos_bounds m2) as [_ Hhi].
  assert (H : 2 ^ (Zpos (digits2_pos m1) - 1) < 2 ^ Zpos (digits2_pos m2))
    by lia.
  apply Z.pow_lt_mono_r_iff in H; lia.
Qed.

Lemma rne_mono m1 m2 n :
  0 ≤ n → 0 ≤ m1 → m1 ≤ m2 → rne m1 n ≤ rne m2 n.
Proof.
  intros Hn Hm1 Hle.
  assert (Hpos : 0 < 2 ^ n) by (apply Z.pow_pos_nonneg; lia).
  pose proof (Z.div_le_mono m1 m2 (2 ^ n) Hpos Hle) as Hq.
  pose proof (rne_bounds m1 n Hm1 Hn) as Hb1.
  pose proof (rne_bounds m2 n ltac:(lia) Hn) as Hb2.
  destruct (Z.eq_dec (m1 / 2 ^ n) (m2 / 2 ^ n)) as [Heq|Hne]; [|lia].
  pose proof (Z.div_mod m1 (2 ^ n) ltac:(lia)) as Hd1.
  pose proof (Z.div_mod m2 (2 ^ n) ltac:(lia)) as Hd2.
  unfold rne. rewrite <- Heq in *.
  repeat match goal with
         | |- context [?a <? ?b] => destruct (Z.ltb_spec a b)
         | |- context [?a =? ?b] => destruct (Z.eqb_spec a b)
         end; try destruct (Z.even _); lia.
Qed.

Lemma rne_scale m n j :
  0 ≤ n → 0 ≤ j → rne (m * 2 ^ j) (n + j) = rne m n.
Proof.
  intros Hn Hj.
  assert (Hpn : 0 < 2 ^ n) by (apply Z.pow_pos_nonneg; lia).
  assert (Hpj : 0 < 2 ^ j) by (apply Z.pow_pos_nonneg; lia).
  unfold rne. rewrite Z.pow_add_r by lia.
  rewrite Z.div_mul_cancel_r by lia.
  rewrite Z.mul_mod_distr_r by lia.
  repeat match goal with
         | |- context [?a <? ?b] => destruct (Z.ltb_spec a b)
         | |- context [?a =? ?b] => destruct (Z.eqb_spec a b)
         end; try reflexivity; nia.
Qed.

Lemma rne_nonneg m n : 0 ≤ m → 0 ≤ n → 0 ≤ rne m n.
Proof.
  intros Hm Hn. pose proof (rne_bounds m n Hm Hn) as [Hlo _].
  assert (0 ≤ m / 2 ^ n); [|lia].
  apply Z.div_pos; [lia|]. apply Z.pow_pos_nonneg; lia.
Qed.

Lemma rne_0 n : 0 ≤ n → rne 0 n = 0.
Proof.
  intros Hn. assert (Hpos : 0 < 2 ^ n) by (apply Z.pow_pos_nonneg; lia).
  unfold rne. rewrite Z.div_0_l, Z.mod_0_l by lia.
  destruct (Z.ltb_spec (2 * 0) (2 ^ n)); [reflexivity|lia].
Qed.

Lemma target_above d : -1074 ≤ target d.
Proof. rewrite target_spec. lia. Qed.

Lemma nearest_nonneg e0 P : e0 ≤ -1074 → 0 ≤ P → 0 ≤ nearest e0 P.
Proof.
  intros He0 HP. unfold nearest.
  pose proof (target_above (Zdigits2 P + e0)) as HE.
  apply Z.mul_nonneg_nonneg; [apply rne_nonneg; lia|].
  apply Z.pow_nonneg; lia.
Qed.

Lemma nearest_0 e0 : e0 ≤ -1074 → nearest e0 0 = 0.
Proof.
  intros He0. unfold nearest.
  pose proof (target_above (Zdigits2 0 + e0)) as HE.
  rewrite rne_0 by lia. reflexivity.
Qed.

(** Rounding to the nearest binary64 number never reverses an order. *)
Lemma nearest_mono e0 P1 P2 :
  e0 ≤ -1074 → 0 ≤ P1 → P1 ≤ P2 → nearest e0 P1 ≤ nearest e0 P2.
Proof.
  intros He0 H1 Hle.
  destruct P1 as [|m1|m1]; [| |lia].
  { rewrite nearest_0 by lia. apply nearest_nonneg; lia. }
  destruct P2 as [|m2|m2]; [lia| |lia].
  unfold nearest. cbn [Zdigits2].
  pose proof (digits_mono m1 m2 ltac:(lia)) as Hd.
  pose proof (digits2_pos_bounds m1) as Hb1.
  pose proof (digits2_pos_bounds m2) as Hb2.
  set (d1 := Zpos (digits2_pos m1)) in *.
  set (d2 := Zpos (digits2_pos m2)) in *.
  pose proof (target_above (d1 + e0)) as HE1.
  pose proof (target_above (d2 + e0)) as HE2.
  assert (HE : target (d1 + e0) ≤ target (d2 + e0))
    by (rewrite !target_spec; lia).
  assert (Hd1 : d1 ≤ 53 + (target (d1 + e0) - e0))
    by (rewrite target_spec; lia).
  set (E1 := target (d1 + e0)) in *. set (E2 := target (d2 + e0)) in *.
  destruct (Z.eq_dec E1 E2) as [Heq|Hne].
  - rewrite Heq. apply Z.mul_le_mono_nonneg_r; [apply Z.pow_nonneg; lia|].
    apply rne_mono; lia.
  - assert (HE2' : E2 = d2 + e0 - 53)
      by (unfold E2 in *; rewrite target_spec in *; lia).
    pose proof (rne_bounds (Zpos m1) (E1 - e0) ltac:(lia) ltac:(lia))
      as [_ Hup].
    pose proof (quotient_below m1 (E1 - e0) ltac:(lia) Hd1) as Hq1.
    pose proof (rne_bounds (Zpos m2) (E2 - e0) ltac:(lia) ltac:(lia))
      as [Hlo _].
    assert (Hq2 : 2 ^ 52 ≤ Zpos m2 / 2 ^ (E2 - e0)).
    { apply Z.div_le_lower_bound; [apply Z.pow_pos_nonneg; lia|].
      rewrite <- Z.pow_add_r by lia.
      replace (E2 - e0 + 52) with (d2 - 1) by lia. lia. }
    apply Z.le_trans with (2 ^ 53 * 2 ^ (E1 + 1074)).
    { apply Z.mul_le_mono_nonneg_r; [apply Z.pow_nonneg; lia|lia]. }
    apply Z.le_trans with (2 ^ 52 * 2 ^ (E2 + 1074)).
    { change (2 ^ 53) with (2 ^ 52 * 2 ^ 1).
      rewrite <- Z.mul_assoc, <- Z.pow_add_r by lia.
      apply Z.mul_le_mono_nonneg_l; [lia|].
      apply Z.pow_le_mono_r; lia. }
    apply Z.mul_le_mono_nonneg_r; [apply Z.pow_nonneg; lia|lia].
Qed.

(** ** Order of binary64 numbers *)

Lemma valid_finite s m e :
  SpecFloat.valid_binary prec emax (S754_finite s m e) = true →
  e = target (Zpos (digits2_pos m) + e) ∧ e ≤ 971.
Proof.
  cbn [SpecFloat.valid_binary]. unfold bounded, canonical_mantissa.
  intros [Hc He]%andb_prop.
  apply Z.eqb_eq in Hc. apply Z.leb_le in He.
  split; [symmetry; exact Hc|exact He].
Qed.

Lemma ulps_bounds s m e :
  -1074 ≤ e →
  2 ^ (Zpos (digits2_pos m) - 1 + (e + 1074)) ≤ ulps (S754_finite s m e) <
  2 ^ (Zpos (digits2_pos m) + (e + 1074)).
Proof.
  intros He. cbn [ulps]. pose proof (digits2_pos_bounds m) as [Hlo Hhi].
  assert (Hpos : 0 < 2 ^ (e + 1074)) by (apply Z.pow_pos_nonneg; lia).
  rewrite (Z.pow_add_r 2 (Zpos (digits2_pos m) - 1) (e + 1074)) by lia.
  rewrite (Z.pow_add_r 2 (Zpos (digits2_pos m)) (e + 1074)) by lia.
  split.
  - apply Z.mul_le_mono_nonneg_r; lia.
  - apply Z.mul_lt_mono_pos_r; lia.
Qed.

Lemma ulps_exponent_lt s1 m1 e1 s2 m2 e2 :
  SpecFloat.valid_binary prec emax (S754_finite s1 m1 e1) = true →
  SpecFloat.valid_binary prec emax (S754_finite s2 m2 e2) = true →
  e1 < e2 → ulps (S754_finite s1 m1 e1) < ulps (S754_finite s2 m2 e2).
Proof.
  intros [Hc1 _]%valid_finite [Hc2 _]%valid_finite Hlt.
  rewrite target_spec in Hc1, Hc2.
  pose proof (ulps_bounds s1 m1 e1 ltac:(lia)) as [_ Hhi].
  pose proof (ulps_bounds s2 m2 e2 ltac:(lia)) as [Hlo _].
  eapply Z.lt_le_trans; [exact Hhi|].
  eapply Z.le_trans; [|exact Hlo].
  apply Z.pow_le_mono_r; lia.
Qed.

(** On valid numbers that are not negative, [<=] is the order of the
    sizes. *)
Lemma SFleb_ulps f g :
  SpecFloat.valid_binary prec emax f = true →
  SpecFloat.valid_binary prec emax g = true →
  nonneg f → nonneg g →
  SFleb f g = true ↔ ulps f ≤ ulps g.
Proof.
  intros Hf Hg Hnf Hng. unfold SFleb.
  destruct f as [sf|sf| |[] mf ef], g as [sg|sg| |[] mg eg];
    try contradiction; cbn [SFcompare].
  - cbn [ulps]. split; [lia|reflexivity].
  - cbn [ulps]. split; [intros _|reflexivity].
    apply Z.mul_nonneg_nonneg; [lia|]. apply Z.pow_nonneg. lia.
  - destruct (valid_finite _ _ _ Hf) as [Hc _]. rewrite target_spec in Hc.
    pose proof (ulps_bounds false mf ef ltac:(lia)) as [Hlo _].
    assert (0 < 2 ^ (Z.pos (digits2_pos mf) - 1 + (ef + 1074)))
      by (apply Z.pow_pos_nonneg; lia).
    split; [discriminate|]. cbn [ulps] in *. lia.
  - destruct (Z.compare_spec ef eg) as [->|Hlt|Hgt].
    + rewrite Pos.compare_cont_spec. cbn [ulps].
      destruct (valid_finite _ _ _ Hg) as [Hc _]. rewrite target_spec in Hc.
      assert (Hpos : 0 < 2 ^ (eg + 1074)) by (apply Z.pow_pos_nonneg; lia).
      cbn [Pos.switch_Eq].
      destruct (Pos.compare_spec mf mg) as [->|Hm|Hm].
      * split; [lia|reflexivity].
      * split; [intros _|reflexivity].
        apply Z.mul_le_mono_nonneg_r; lia.
      * split; [discriminate|]. intros Hle.
        apply Z.mul_le_mono_pos_r in Hle; lia.
    + pose proof (ulps_exponent_lt _ _ _ _ _ _ Hf Hg Hlt).
      split; [lia|reflexivity].
    + pose proof (ulps_exponent_lt _ _ _ _ _ _ Hg Hf Hgt).
      split; [discriminate|lia].
Qed.

(** ** Multiplication *)

Lemma digits_mul (a b : positive) :
  Zpos (digits2_pos a) + Zpos (digits2_pos b) - 1 ≤
    Zpos (digits2_pos (a * b)) ≤
  Zpos (digits2_pos a) + Zpos (digits2_pos b).
Proof.
  pose proof (digits2_pos_bounds a) as [Ha1 Ha2].
  pose proof (digits2_pos_bounds b) as [Hb1 Hb2].
  pose proof (digits2_pos_bounds (a * b)) as [Hc1 Hc2].
  rewrite Pos2Z.inj_mul in Hc1, Hc2.
  set (da := Zpos (digits2_pos a)) in *.
  set (db := Zpos (digits2_pos b)) in *.
  set (dc := Zpos (digits2_pos (a * b))) in *.
  assert (Hlo : 2 ^ (da - 1 + (db - 1)) ≤ Zpos a * Zpos b).
  { rewrite Z.pow_add_r by lia.
    apply Z.mul_le_mono_nonneg; try lia; apply Z.pow_nonneg; lia. }
  assert (Hhi : Zpos a * Zpos b < 2 ^ (da + db)).
  { rewrite Z.pow_add_r by lia. apply Z.mul_lt_mono_nonneg; lia. }
  assert (H1 : 2 ^ (da - 1 + (db - 1)) < 2 ^ dc) by lia.
  assert (H2 : 2 ^ (dc - 1) < 2 ^ (da + db)) by lia.
  apply Z.pow_lt_mono_r_iff in H1; [|lia|lia].
  apply Z.pow_lt_mono_r_iff in H2; lia.
Qed.

Lemma Zdigits2_scale (m : positive) j :
  0 ≤ j → Zdigits2 (Zpos m * 2 ^ j) = Zpos (digits2_pos m) + j.
Proof.
  intros Hj. pose proof (digits2_pos_bounds m) as [Hlo Hhi].
  assert (Hpos : 0 < 2 ^ j) by (apply Z.pow_pos_nonneg; lia).
  destruct (Zpos m * 2 ^ j) as [|p|p] eqn:Hp; [lia| |lia].
  cbn [Zdigits2]. symmetry. apply digits_unique; [|lia].
  rewrite <- Hp.
  replace (Z.pos (digits2_pos m) + j - 1)
    with (Z.pos (digits2_pos m) - 1 + j) by lia.
  rewrite !Z.pow_add_r by lia. split.
  - apply Z.mul_le_mono_nonneg_r; lia.
  - apply Z.mul_lt_mono_pos_r; lia.
Qed.

(** The product of two positive numbers is the number nearest to the
    exact product. *)
Lemma SFmul_ulps (mx : positive) (ex : Z) (mc : positive) (ec : Z) :
  SpecFloat.valid_binary prec emax (S754_finite false mx ex) = true →
  Zpos (digits2_pos mc) = 53 →
  Zpos (digits2_pos mx) + ex + ec < 971 →
  nonneg (SFmul prec emax (S754_finite false mx ex)
            (S754_finite false mc ec)) ∧
  ulps (SFmul prec emax (S754_finite false mx ex)
          (S754_finite false mc ec)) =
    nearest (ec - 1074) (ulps (S754_finite false mx ex) * Zpos mc).
Proof.
  intros [Hc _]%valid_finite Hdc Hmax. rewrite target_spec in Hc.
  cbn [SFmul xorb ulps].
  pose proof (digits_mul mx mc) as Hd. rewrite Hdc in Hd.
  destruct (binary_round_aux_ulps (mx * mc) (ex + ec)) as [Hn Hu].
  { rewrite target_spec. lia. }
  { rewrite target_spec. lia. }
  split; [exact Hn|]. rewrite Hu. unfold nearest.
  replace (Zpos mx * 2 ^ (ex + 1074) * Zpos mc)
    with (Zpos (mx * mc) * 2 ^ (ex + 1074)) by (rewrite Pos2Z.inj_mul; ring).
  rewrite Zdigits2_scale by lia.
  replace (Z.pos (digits2_pos (mx * mc)) + (ex + 1074) + (ec - 1074))
    with (Z.pos (digits2_pos (mx * mc)) + (ex + ec)) by lia.
  set (E := target _).
  replace (E - (ec - 1074)) with (E - (ex + ec) + (ex + 1074)) by lia.
  rewrite rne_scale; [reflexivity| |lia].
  unfold E. rewrite target_spec. lia.
Qed.

Lemma leb_size x y :
  positive_number x → positive_number y →
  (x <=? y)%float = true ↔ size x ≤ size y.
Proof.
  intros Hx Hy. rewrite leb_spec.
  apply SFleb_ulps; auto using Prim2SF_valid.
Qed.

Lemma size_1 : size 1 = 2 ^ 1074.
Proof.
  unfold size. change (Prim2SF 1) with (S754_finite false (2 ^ 52) (-52)).
  cbn [ulps]. change (Zpos (2 ^ 52)) with (2 ^ 52).
  rewrite <- Z.pow_add_r by lia. f_equal.
Qed.

Lemma fraction_size x :
  fraction x → positive_number x ∧ size x ≤ 2 ^ 1074.
Proof.
  intros [Hlo Hhi]. unfold number_le in Hlo, Hhi.
  assert (Hx : positive_number x).
  { rewrite leb_spec in Hlo, Hhi. unfold positive_number.
    change (Prim2SF 0) with (S754_zero false) in Hlo.
    change (Prim2SF 1) with (S754_finite false (2 ^ 52) (-52)) in Hhi.
    destruct (Prim2SF x) as [s|[]| |[] m e]; try exact I; discriminate. }
  split; [exact Hx|]. rewrite <- size_1. apply leb_size; [exact Hx| |exact Hhi].
  exact I.
Qed.

Lemma size_exponent s m e :
  SpecFloat.valid_binary prec emax (S754_finite s m e) = true →
  ulps (S754_finite s m e) ≤ 2 ^ 1074 →
  Zpos (digits2_pos m) + e ≤ 1.
Proof.
  intros [Hc _]%valid_finite Hle. rewrite target_spec in Hc.
  pose proof (ulps_bounds s m e ltac:(lia)) as [Hlo _].
  assert (H : 2 ^ (Zpos (digits2_pos m) - 1 + (e + 1074)) ≤ 2 ^ 1074) by lia.
  apply Z.pow_le_mono_r_iff in H; lia.
Qed.

(** Multiplying a number of [0, 1] by a positive normal constant less
    than 2: the result is the number nearest to the exact product. *)
Lemma mul_size (x c : float) (mc : positive) (ec : Z) :
  Prim2SF c = S754_finite false mc ec →
  Zpos (digits2_pos mc) = 53 → ec ≤ 0 →
  positive_number x → size x ≤ 2 ^ 1074 →
  (positive_number (x * c) ∧
   size (x * c) = nearest (ec - 1074) (size x * Zpos mc)) ∧
  (positive_number (c * x) ∧
   size (c * x) = nearest (ec - 1074) (size x * Zpos mc)).
Proof.
  intros Hc Hdc Hec Hx Hsize.
  unfold positive_number, size in *. rewrite !mul_spec, Hc.
  pose proof (Prim2SF_valid x) as Hvalid. unfold SF64mul.
  destruct (Prim2SF x) as [s|s| |[] mx ex]; try contradiction.
  - cbn [SFmul ulps nonneg]. rewrite Z.mul_0_l, nearest_0 by lia. auto.
  - assert (Hcomm : SFmul prec emax (S754_finite false mc ec)
                      (S754_finite false mx ex) =
                    SFmul prec emax (S754_finite false mx ex)
                      (S754_finite false mc ec)).
    { cbn [SFmul]. rewrite Pos.mul_comm, Z.add_comm. reflexivity. }
    rewrite Hcomm.
    pose proof (size_exponent _ _ _ Hvalid Hsize) as Hexp.
    pose proof (SFmul_ulps mx ex mc ec Hvalid Hdc ltac:(lia)). tauto.
Qed.

Lemma mul_size_mono (x y c : float) (mc : positive) (ec : Z) :
  Prim2SF c = S754_finite false mc ec →
  Zpos (digits2_pos mc) = 53 → ec ≤ 0 →
  positive_number x → positive_number y →
  size x ≤ size y → size y ≤ 2 ^ 1074 →
  size (x * c) ≤ size (y * c) ∧ size (c * x) ≤ size (c * y).
Proof.
  intros Hc Hdc Hec Hx Hy Hle Hsize.
  destruct (mul_size x c mc ec Hc Hdc Hec Hx ltac:(lia))
    as [[_ ->] [_ ->]].
  destruct (mul_size y c mc ec Hc Hdc Hec Hy ltac:(lia))
    as [[_ ->] [_ ->]].
  assert (H0 : 0 ≤ size x).
  { unfold size. destruct (Prim2SF x); cbn [ulps]; lia. }
  split; apply nearest_mono; try lia; try (apply Z.mul_nonneg_nonneg; lia);
    apply Z.mul_le_mono_nonneg_r; lia.
Qed.

(** ** [Math.round] of a hundredfold fraction *)

Lemma size_100 : size 100 = 100 * 2 ^ 1074.
Proof.
  unfold size.
  change (Prim2SF 100) with (S754_finite false (25 * 2 ^ 48) (-46)).
  cbn [ulps]. change (Zpos (25 * 2 ^ 48)) with (100 * 2 ^ 46).
  rewrite <- Z.mul_assoc, <- Z.pow_add_r by lia. do 2 f_equal.
Qed.

(** [Math.round] of a number between 0 and 100 is one of the integers
    0 to 100, or [-0]. *)
Lemma Math_round_size (y : float) :
  positive_number y → size y ≤ 100 * 2 ^ 1074 →
  0 ≤ (size y + 2 ^ 1073) / 2 ^ 1074 ≤ 100 ∧
  (Math_round y = of_Z ((size y + 2 ^ 1073) / 2 ^ 1074) ∨
   (size y + 2 ^ 1073) / 2 ^ 1074 = 0 ∧ Math_round y = neg_zero).
Proof.
  intros Hy Hsize.
  assert (H73 : 0 < 2 ^ 1073) by (apply Z.pow_pos_nonneg; lia).
  assert (H74 : 2 ^ 1074 = 2 * 2 ^ 1073)
    by (change 1074 with (Z.succ 1073); apply Z.pow_succ_r; lia).
  assert (H0 : 0 ≤ size y)
    by (unfold size; destruct (Prim2SF y); cbn [ulps]; lia).
  split.
  { split.
    - apply Z.div_pos; lia.
    - apply Z.lt_succ_r. apply Z.div_lt_upper_bound; lia. }
  unfold positive_number, size, Math_round in *.
  pose proof (Prim2SF_valid y) as Hvalid.
  pose proof (SF2Prim_Prim2SF y) as Hback.
  destruct (Prim2SF y) as [s|s| |[] m e]; try contradiction.
  - cbn [ulps]. rewrite Z.add_0_l, Z.div_small by lia.
    destruct s; cbn in Hback; subst y; auto.
  - destruct (valid_finite _ _ _ Hvalid) as [Hc _]. rewrite target_spec in Hc.
    pose proof (ulps_bounds false m e ltac:(lia)) as [Hlo _].
    assert (He : e ≤ -46).
    { assert (H : 2 ^ (Zpos (digits2_pos m) - 1 + (e + 1074)) < 2 ^ 1081).
      { eapply Z.le_lt_trans; [exact Hlo|].
        eapply Z.le_lt_trans; [exact Hsize|].
        change 1081 with (7 + 1074). rewrite Z.pow_add_r by lia.
        apply Z.mul_lt_mono_pos_r; lia. }
      apply Z.pow_lt_mono_r_iff in H; lia. }
    destruct (Z.leb_spec 0 e); [lia|]. cbn [cond_Zopp ulps]. left.
    assert (Hn : (Zpos m * 2 ^ (e + 1074) + 2 ^ 1073) / 2 ^ 1074 =
                 (Zpos m + 2 ^ (- e - 1)) / 2 ^ (- e)).
    { replace (2 ^ 1073) with (2 ^ (- e - 1) * 2 ^ (e + 1074))
        by (rewrite <- Z.pow_add_r by lia; f_equal; lia).
      replace (2 ^ 1074) with (2 ^ (- e) * 2 ^ (e + 1074))
        by (rewrite <- Z.pow_add_r by lia; f_equal; lia).
      rewrite <- Z.mul_add_distr_r.
      apply Z.div_mul_cancel_r; apply Z.pow_nonzero; lia. }
    rewrite Hn. destruct (Z.eqb_spec ((Zpos m + 2 ^ (- e - 1)) / 2 ^ (- e)) 0)
      as [->|_]; reflexivity.
Qed.

Lemma fraction_of_size x :
  positive_number x → size x ≤ 2 ^ 1074 → fraction x.
Proof.
  intros Hx Hsize. split.
  - apply leb_size; [exact I|exact Hx|].
    unfold size. destruct (Prim2SF x); cbn [ulps]; try reflexivity.
    change (Prim2SF 0) with (S754_zero false). cbn [ulps]. lia.
  - apply leb_size; [exact Hx|exact I|]. rewrite size_1. exact Hsize.
Qed.

Lemma hundredfold (raw : float) :
  fraction raw →
  positive_number (100 * raw) ∧ size (100 * raw) ≤ 100 * 2 ^ 1074.
Proof.
  intros [Hraw Hsize]%fraction_size.
  assert (H100 : Prim2SF 100 = S754_finite false (25 * 2 ^ 48) (-46))
    by reflexivity.
  destruct (mul_size raw 100 _ _ H100 eq_refl ltac:(lia) Hraw Hsize)
    as [_ [Hpos _]].
  split; [exact Hpos|]. rewrite <- size_100.
  change 100%float with (100 * 1)%float at 2.
  apply (mul_size_mono raw 1 100 _ _ H100 eq_refl);
    [lia|exact Hraw|exact I|rewrite size_1; exact Hsize|rewrite size_1; lia].
Qed.

(** The rounding of a fraction is a number of hundredths divided by 100. *)
Lemma rounded_step (raw : float) :
  fraction raw →
  0 ≤ hundredths raw ≤ 100 ∧
  (rounded raw = (of_Z (hundredths raw) / 100)%float ∨
   hundredths raw = 0 ∧ rounded raw = (neg_zero / 100)%float).
Proof.
  intros [Hpos Hsize]%hundredfold.
  destruct (Math_round_size _ Hpos Hsize) as [Hrange Hround].
  split; [exact Hrange|]. unfold rounded, hundredths.
  destruct Hround as [->|[-> ->]]; auto.
Qed.

Lemma hundredths_mono (p q : float) :
  fraction p → fraction q → (p <=? q)%float = true →
  hundredths p ≤ hundredths q.
Proof.
  intros Hp Hq Hle.
  destruct (fraction_size p Hp) as [Hpp _].
  destruct (fraction_size q Hq) as [Hpq Hsq].
  apply leb_size in Hle; [|assumption|assumption].
  assert (H100 : Prim2SF 100 = S754_finite false (25 * 2 ^ 48) (-46))
    by reflexivity.
  destruct (mul_size_mono p q 100 _ _ H100 eq_refl ltac:(lia) Hpp Hpq
              Hle Hsq) as [_ Hmul].
  unfold hundredths. apply Z.div_le_mono; [|lia].
  apply Z.pow_pos_nonneg; lia.
Qed.

(** A property of the integers 0 to 100 can be checked on each. *)
Lemma upto_100 (P : Z → Prop) :
  Forall P (Z.of_nat <$> seq 0 101) → ∀ h, 0 ≤ h ≤ 100 → P h.
Proof.
  intros HP h Hh. rewrite Forall_forall in HP. apply HP.
  replace h with (Z.of_nat (Z.to_nat h)) by lia.
  apply list_elem_of_fmap_2. apply elem_of_seq. lia.
Qed.

(** ** The order of the values a run sends *)

Lemma number_le_refl (a : float) : fraction a → number_le a a.
Proof.
  intros [Ha _]%fraction_size. apply leb_size; [assumption|assumption|lia].
Qed.

Lemma number_le_trans (a b c : float) :
  fraction a → fraction b → fraction c →
  number_le a b → number_le b c → number_le a c.
Proof.
  intros [Ha _]%fraction_size [Hb _]%fraction_size [Hc _]%fraction_size
    Hab Hbc.
  apply leb_size in Hab; [|assumption|assumption].
  apply leb_size in Hbc; [|assumption|assumption].
  apply leb_size; [assumption|assumption|lia].
Qed.

Lemma mul_zero (p : float) :
  positive_number p → positive_number (p * 0) ∧ size (p * 0) = 0.
Proof.
  unfold positive_number, size. rewrite mul_spec.
  change (Prim2SF 0) with (S754_zero false). unfold SF64mul.
  destruct (Prim2SF p) as [s|s| |[] m e]; try contradiction;
    cbn [SFmul ulps nonneg]; auto.
Qed.

(** The converter's fractions times the converter's bias. *)
Lemma scaled (wc p q : float) :
  wc = 0%float ∨ wc = 0.3%float →
  fraction p → fraction q → number_le p q →
  fraction (p * wc) ∧ number_le (p * wc) wc ∧
  number_le (p * wc) (q * wc).
Proof.
  intros Hwc Hp Hq Hle.
  destruct (fraction_size p Hp) as [Hpp Hsp].
  destruct (fraction_size q Hq) as [Hpq Hsq].
  apply leb_size in Hle; [|assumption|assumption].
  destruct Hwc as [->| ->].
  - destruct (mul_zero p Hpp) as [Hp0 Hs0].
    destruct (mul_zero q Hpq) as [Hq0 Hsq0].
    assert (H0 : 0 ≤ 2 ^ 1074) by (apply Z.pow_nonneg; lia).
    split; [apply fraction_of_size; [exact Hp0|lia]|].
    split; apply leb_size; try assumption; try exact I.
    + rewrite Hs0. reflexivity.
    + lia.
  - assert (H03 : Prim2SF 0.3 = S754_finite false 5404319552844595 (-54))
      by reflexivity.
    destruct (mul_size p 0.3 _ _ H03 eq_refl ltac:(lia) Hpp Hsp)
      as [[Hpos _] _].
    destruct (mul_size q 0.3 _ _ H03 eq_refl ltac:(lia) Hpq Hsq)
      as [[Hposq _] _].
    destruct (mul_size_mono p q 0.3 _ _ H03 eq_refl ltac:(lia) Hpp Hpq
                Hle Hsq) as [Hmono _].
    destruct (mul_size_mono p 1 0.3 _ _ H03 eq_refl ltac:(lia) Hpp I)
      as [Hup _]; [rewrite size_1; exact Hsp|rewrite size_1; lia|].
    change (1 * 0.3)%float with 0.3%float in Hup.
    pose proof (proj1 (leb_size 0.3 1 I I) eq_refl) as Hbias.
    rewrite size_1 in Hbias.
    split; [apply fraction_of_size; [exact Hpos|lia]|].
    split; apply leb_size; try assumption. exact I.
Qed.

(** The 101 values a run can blend, for either pair of biases: they are
    fractions, not below the converter's bias, and in the order of their
    hundredths (checked by computation). *)
Lemma blend_table (ws wc : float) :
  (ws = 1%float ∧ wc = 0%float) ∨ (ws = 0.7%float ∧ wc = 0.3%float) →
  (∀ h1 h2, 0 ≤ h1 ≤ 100 → 0 ≤ h2 ≤ 100 → h1 ≤ h2 →
     number_le (of_Z h1 / 100 * ws + wc) (of_Z h2 / 100 * ws + wc)) ∧
  (∀ h, 0 ≤ h ≤ 100 →
     fraction (of_Z h / 100 * ws + wc) ∧
     number_le wc (of_Z h / 100 * ws + wc)) ∧
  (neg_zero / 100 * ws + wc = of_Z 0 / 100 * ws + wc)%float.
Proof.
  intros Hbias. unfold fraction, number_le.
  assert (Hpairs :
    Forall (λ h1, Forall (λ h2, h1 ≤ h2 →
      (of_Z h1 / 100 * ws + wc <=? of_Z h2 / 100 * ws + wc)%float = true)
      (Z.of_nat <$> seq 0 101)) (Z.of_nat <$> seq 0 101)).
  { destruct Hbias as [[-> ->]|[-> ->]];
      apply (bool_decide_unpack _); vm_compute; exact I. }
  assert (Heach :
    Forall (λ h,
      ((0 <=? of_Z h / 100 * ws + wc)%float = true ∧
       (of_Z h / 100 * ws + wc <=? 1)%float = true) ∧
      (wc <=? of_Z h / 100 * ws + wc)%float = true)
      (Z.of_nat <$> seq 0 101)).
  { destruct Hbias as [[-> ->]|[-> ->]];
      apply (bool_decide_unpack _); vm_compute; exact I. }
  split; [|split].
  - intros h1 h2 H1 H2.
    pose proof (upto_100 _ Hpairs h1 H1) as Hrow. cbv beta in Hrow.
    exact (upto_100 _ Hrow h2 H2).
  - apply upto_100, Heach.
  - destruct Hbias as [[-> ->]|[-> ->]]; reflexivity.
Qed.

(** The rounded engine fractions times the slicer's bias plus the
    converter's bias. *)
Lemma blended (ws wc p q : float) :
  (ws = 1%float ∧ wc = 0%float) ∨ (ws = 0.7%float ∧ wc = 0.3%float) →
  fraction p → fraction q → number_le p q →
  fraction (rounded p * ws + wc) ∧ number_le wc (rounded p * ws + wc) ∧
  number_le (rounded p * ws + wc) (rounded q * ws + wc).
Proof.
  intros Hbias Hp Hq Hle.
  destruct (blend_table ws wc Hbias) as (Hpairs & Heach & Hzero).
  pose proof (hundredths_mono p q Hp Hq Hle) as Hmono.
  destruct (rounded_step p Hp) as [Hhp Hrp].
  destruct (rounded_step q Hq) as [Hhq Hrq].
  assert (Hbp : (rounded p * ws + wc = of_Z (hundredths p) / 100 * ws + wc)
                %float).
  { destruct Hrp as [->|[-> ->]]; [reflexivity|exact Hzero]. }
  assert (Hbq : (rounded q * ws + wc = of_Z (hundredths q) / 100 * ws + wc)
                %float).
  { destruct Hrq as [->|[-> ->]]; [reflexivity|exact Hzero]. }
  rewrite Hbp, Hbq. destruct (Heach _ Hhp) as [Hfr Hlow].
  split; [exact Hfr|]. split; [exact Hlow|]. apply Hpairs; assumption.
Qed.


(** ** Roundings with the same number of hundredths *)

Lemma step_table :
  (∀ h, 0 ≤ h ≤ 100 → 1 ≤ h → (of_Z h / 100 =? 0)%float = false) ∧
  (∀ h, 0 ≤ h ≤ 100 → (of_Z h / 100 =? of_Z h / 100)%float = true).
Proof.
  split.
  - apply (upto_100 (λ h, 1 ≤ h → (of_Z h / 100 =? 0)%float = false)).
    apply (bool_decide_unpack _). vm_compute. exact I.
  - apply (upto_100 (λ h, (of_Z h / 100 =? of_Z h / 100)%float = true)).
    apply (bool_decide_unpack _). vm_compute. exact I.
Qed.

Lemma rounded_zero (p : float) :
  fraction p → hundredths p = 0 → (rounded p =? 0)%float = true.
Proof.
  intros Hp H0. destruct (rounded_step p Hp) as [_ [->|[_ ->]]].
  - rewrite H0. reflexivity.
  - reflexivity.
Qed.

Lemma rounded_nonzero (p : float) :
  fraction p → 1 ≤ hundredths p → (rounded p =? 0)%float = false.
Proof.
  intros Hp H1. destruct (rounded_step p Hp) as [Hh [->|[H0 _]]]; [|lia].
  apply step_table; assumption.
Qed.

Lemma rounded_same (p q : float) :
  fraction p → fraction q → hundredths p = hundredths q →
  (rounded p =? rounded q)%float = true.
Proof.
  intros Hp Hq Heq.
  destruct (rounded_step p Hp) as [Hhp [->|[H0 ->]]];
    destruct (rounded_step q Hq) as [Hhq [->|[H0' ->]]].
  - rewrite Heq. apply step_table. exact Hhq.
  - rewrite Heq, H0'. reflexivity.
  - rewrite <- Heq, H0. reflexivity.
  - reflexivity.
Qed.

End Rounding.

Section Properties.

Context {Heap json : Type} `{foreign : Foreign Heap json}.

Implicit Types (w : World Heap) (e : EmscriptenModule2 Heap).

(** ** The monad *)

Lemma bind_ret {A B} (m : JS Heap A) (k : A → JS Heap B) w a w' :
  m w = (Ret a, w') → bind m k w = k a w'.
Proof. unfold bind. intros ->. reflexivity. Qed.

(** ** Initialisation guards *)

(** C4: with no engine handle, [run], [addDefinitions] and
    [removeDefinitions] each throw their not-initialised error and leave
    the whole state as it was: nothing else has been done. *)
Theorem uninitialized_calls_rejected w :
  engine w = None →
  (∀ command overrides verbose file extension,
     run command overrides verbose file extension w =
     (Throw (JsError "Attempting to run Cura Engine before initialization!"),
      w)) ∧
  (∀ definition,
     addDefinitions definition w =
     (Throw (JsError "Attempting to add definitions before initialization!"),
      w)) ∧
  removeDefinitions w =
  (Throw (JsError "Attempting to remove definitions before initialization!"),
   w).
Proof.
  intros Hnull. repeat split; intros;
    unfold run, addDefinitions, removeDefinitions, bind, gets, throw;
    rewrite Hnull; reflexivity.
Qed.

(** ** Progress weights *)

(** C6: the converter's bias is 0 exactly for the extension [stl] and
    0.3 for every other extension; the slicer's bias is one minus the
    converter's, that is 1 for [stl] and 0.7 otherwise. *)
Theorem bias_of_extension (extension : string) :
  (converterBias extension = 0 ↔ extension = "stl") ∧
  (converterBias extension = 0.3 ↔ extension ≠ "stl") ∧
  slicerBias extension = 1 - converterBias extension ∧
  (slicerBias extension = if String.eqb extension "stl" then 1 else 0.7).
Proof.
  assert (Hne03 : (0 : float) ≠ 0.3).
  { intros H. apply (f_equal (λ x, x =? 0)) in H. vm_compute in H.
    discriminate. }
  unfold slicerBias, converterBias.
  destruct (String.eqb_spec extension "stl") as [->|Hne].
  - repeat split; try reflexivity; intros; congruence.
  - repeat split; try reflexivity; try congruence.
Qed.

(** ** Emissions of the conversion phase *)

Lemma set_progressStream_same w : set_progressStream (progressStream w) w = w.
Proof. destruct w; reflexivity. Qed.

Lemma emit_each (f : float → float) (l : list float) w :
  for_each l (λ c, emit_progress (f c)) w =
  (Ret tt,
   if can_emit (progressObserver w)
   then set_progressStream (progressStream w ++ map f l) w
   else w).
Proof.
  revert w. induction l as [|c l IH]; intros w; simpl.
  - unfold ret. rewrite app_nil_r, set_progressStream_same.
    destruct (can_emit _); reflexivity.
  - unfold bind, emit_progress at 1.
    destruct (can_emit (progressObserver w)) eqn:Hobs.
    + rewrite IH. simpl. rewrite Hobs. unfold set_progressStream; simpl.
      rewrite <- app_assoc. reflexivity.
    + rewrite IH, Hobs. reflexivity.
Qed.

(** The world after the conversion phase of [run]. *)
Lemma await_convert_run file extension w :
  await_convert file extension
    (λ c, emit_progress (c * converterBias extension)) w =
  (converted (convert file extension), after_conversion file extension w).
Proof.
  unfold await_convert, bind, after_conversion. rewrite emit_each.
  destruct (converted _); reflexivity.
Qed.

Lemma after_conversion_frame file extension w :
  engine (after_conversion file extension w) = engine w ∧
  extruderCount (after_conversion file extension w) = extruderCount w ∧
  progressObserver (after_conversion file extension w) = progressObserver w ∧
  cura_wasm_progress_callback (after_conversion file extension w) =
  cura_wasm_progress_callback w ∧
  cura_wasm_metadata_callback (after_conversion file extension w) =
  cura_wasm_metadata_callback w ∧
  mainCalls (after_conversion file extension w) = mainCalls w.
Proof.
  unfold after_conversion.
  destruct (can_emit (progressObserver w)); simpl; auto 10.
Qed.

(** [run], one case per way out of its first half. *)
Lemma run_cases command overrides verbose file extension w :
  run command overrides verbose file extension w =
  match engine w with
  | None =>
      (Throw (JsError "Attempting to run Cura Engine before initialization!"),
       w)
  | Some _ =>
      match converted (convert file extension) with
      | Ret (inl stl) =>
          slice command overrides verbose extension stl
            (after_conversion file extension w)
      | Ret (inr err) => (Ret (inr err), after_conversion file extension w)
      | Throw err => (Throw err, after_conversion file extension w)
      end
  end.
Proof.
  unfold run, bind at 1, gets. destruct (engine w); [|reflexivity].
  unfold bind. rewrite await_convert_run.
  destruct (converted _) as [[stl|err]|err]; reflexivity.
Qed.

(** ** Conversion errors *)

(** C3: when the converter returns an [Error] value, an initialised
    [run] returns that value (it does not throw), [callMain] is not
    called, and the engine with its filesystem is exactly as before, so no
    model file has been written; the two callback slots are untouched. *)
Theorem conversion_error_returned w e command overrides verbose file
    extension err :
  engine w = Some e →
  converted (convert file extension) = Ret (inr err) →
  (run command overrides verbose file extension w).1 = Ret (inr err) ∧
  mainCalls (run command overrides verbose file extension w).2 = mainCalls w ∧
  engine (run command overrides verbose file extension w).2 = Some e ∧
  cura_wasm_progress_callback
    (run command overrides verbose file extension w).2 =
  cura_wasm_progress_callback w ∧
  cura_wasm_metadata_callback
    (run command overrides verbose file extension w).2 =
  cura_wasm_metadata_callback w.
Proof.
  intros Hengine Herr. rewrite run_cases, Hengine, Herr. simpl.
  destruct (after_conversion_frame file extension w)
    as (He & _ & _ & Hp & Hm & Hc).
  rewrite He, Hp, Hm, Hc. auto.
Qed.

(** ** The engine's callbacks *)

Lemma callbacks_frame_trans w1 w2 w3 :
  callbacks_frame w1 w2 → callbacks_frame w2 w3 → callbacks_frame w1 w3.
Proof.
  unfold callbacks_frame. intros (?&?&?&?&?&?&?) (?&?&?&?&?&?&?).
  repeat split; congruence.
Qed.

Lemma last_cons_default {A} (x d : A) (l : list A) :
  List.last (x :: l) d = List.last l x.
Proof.
  revert x d. induction l as [|y l IH]; intros x d; [reflexivity|].
  change (List.last (x :: y :: l) d) with (List.last (y :: l) d).
  rewrite !IH. reflexivity.
Qed.

(** One call of the progress callback while it is registered. *)
Lemma deliver_progress raw w cb :
  cura_wasm_progress_callback w = Some cb →
  ∃ w', deliver (ProgressEvent raw) w = (Ret tt, w') ∧
    callbacks_frame w w' ∧
    cura_wasm_progress_callback w' =
      Some {| cb_converterBias := cb_converterBias cb;
              cb_slicerBias := cb_slicerBias cb;
              previousSlicerProgress :=
                List.last (forwarded (previousSlicerProgress cb) [raw])
                  (previousSlicerProgress cb) |} ∧
    progressStream w' =
      progressStream w ++
      (if can_emit (progressObserver w)
       then map (blend cb) (forwarded (previousSlicerProgress cb) [raw])
       else []).
Proof.
  intros Hslot. unfold deliver, bind, gets. rewrite Hslot.
  unfold progress_handler, forwarded, rounded, blend.
  destruct (negb (_ =? _)).
  - unfold bind, emit_progress, ret, modify.
    destruct (can_emit (progressObserver w)) eqn:Hobs;
      (eexists; split; [reflexivity|]); simpl;
      rewrite ?Hobs, ?app_nil_r; repeat split.
  - unfold ret, modify. eexists; split; [reflexivity|]. simpl.
    destruct cb. destruct (can_emit (progressObserver w));
      rewrite app_nil_r; repeat split.
Qed.

(** One call of the metadata callback: the progress side is untouched. *)
Lemma deliver_metadata fl pt m1 m2 nz fu x0 y0 z0 x1 y1 z1 w :
  ∃ w', deliver (MetadataEvent fl pt m1 m2 nz fu x0 y0 z0 x1 y1 z1) w =
        (Ret tt, w') ∧
    callbacks_frame w w' ∧
    cura_wasm_progress_callback w' = cura_wasm_progress_callback w ∧
    progressStream w' = progressStream w.
Proof.
  unfold deliver, bind, gets.
  destruct (cura_wasm_metadata_callback w) as [[]|].
  - unfold emit_metadata. destruct (can_emit _);
      (eexists; split; [reflexivity|]); repeat split.
  - eexists; split; [reflexivity|]. repeat split.
Qed.

(** All the callbacks of one engine call, started with [cb] registered:
    the stream grows by the blended values of [forwarded]. *)
Lemma deliver_each evs : ∀ w cb,
  cura_wasm_progress_callback w = Some cb →
  ∃ w', for_each evs deliver w = (Ret tt, w') ∧
    callbacks_frame w w' ∧
    cura_wasm_progress_callback w' =
      Some {| cb_converterBias := cb_converterBias cb;
              cb_slicerBias := cb_slicerBias cb;
              previousSlicerProgress :=
                List.last
                  (forwarded (previousSlicerProgress cb) (raw_progress evs))
                  (previousSlicerProgress cb) |} ∧
    progressStream w' =
      progressStream w ++
      (if can_emit (progressObserver w)
       then map (blend cb)
              (forwarded (previousSlicerProgress cb) (raw_progress evs))
       else []).
Proof.
  induction evs as [|ev evs IH]; intros w cb Hslot.
  - exists w. simpl. destruct cb.
    destruct (can_emit (progressObserver w)); rewrite app_nil_r;
      repeat split; assumption.
  - destruct ev as [raw|fl pt m1 m2 nz fu x0 y0 z0 x1 y1 z1].
    + destruct (deliver_progress raw w cb Hslot)
        as (w1 & Hstep & Hframe1 & Hslot1 & Hstream1).
      destruct (IH w1 _ Hslot1) as (w2 & Hrest & Hframe2 & Hslot2 & Hstream2).
      exists w2. simpl for_each. rewrite (bind_ret _ _ _ _ _ Hstep).
      split; [exact Hrest|]. split; [eapply callbacks_frame_trans; eauto|].
      assert (Hobs : progressObserver w1 = progressObserver w)
        by apply Hframe1.
      rewrite Hslot2, Hstream2, Hstream1, Hobs. clear. unfold blend.
      cbn [raw_progress forwarded].
      destruct (negb (rounded raw =? previousSlicerProgress cb));
        cbn [previousSlicerProgress cb_slicerBias cb_converterBias map];
        rewrite ?last_cons_default;
        (split; [reflexivity|]);
        destruct (can_emit (progressObserver w)); cbn [map];
        rewrite <- ?app_assoc, ?app_nil_r; reflexivity.
    + destruct (deliver_metadata fl pt m1 m2 nz fu x0 y0 z0 x1 y1 z1 w)
        as (w1 & Hstep & Hframe1 & Hslot1 & Hstream1).
      rewrite Hslot in Hslot1.
      destruct (IH w1 _ Hslot1) as (w2 & Hrest & Hframe2 & Hslot2 & Hstream2).
      exists w2. simpl for_each. rewrite (bind_ret _ _ _ _ _ Hstep).
      split; [exact Hrest|]. split; [eapply callbacks_frame_trans; eauto|].
      assert (Hobs : progressObserver w1 = progressObserver w)
        by apply Hframe1.
      rewrite Hslot2, Hstream2, Hstream1, Hobs. split; reflexivity.
Qed.

(** ** The engine call *)

Lemma engine_callMain_run args w e cb :
  engine w = Some e →
  cura_wasm_progress_callback w = Some cb →
  ∃ w',
    engine_callMain args w =
    (match fault (callMain args e) with
     | Some err => Throw err
     | None => Ret tt
     end, w') ∧
    engine w' = Some (after (callMain args e)) ∧
    progressObserver w' = progressObserver w ∧
    cura_wasm_metadata_callback w' = cura_wasm_metadata_callback w ∧
    mainCalls w' = mainCalls w ++ [args] ∧
    (∃ cb', cura_wasm_progress_callback w' = Some cb') ∧
    progressStream w' =
      progressStream w ++
      (if can_emit (progressObserver w)
       then map (blend cb)
              (forwarded (previousSlicerProgress cb)
                 (raw_progress (notifications (callMain args e))))
       else []).
Proof.
  intros Hengine Hslot.
  destruct (deliver_each (notifications (callMain args e))
              (push_mainCall args w) cb Hslot)
    as (w1 & Hrun & (_ & _ & Hobs & _ & Hmeta & Hcalls & _) & Hslot1 & Hstream).
  simpl in Hobs, Hmeta, Hcalls, Hstream.
  unfold engine_callMain, bind at 1, gets. rewrite Hengine.
  unfold bind at 1, modify at 1. unfold bind at 1. rewrite Hrun.
  unfold bind, modify, throw, ret.
  destruct (fault (callMain args e)); (eexists; split; [reflexivity|]);
    simpl; rewrite Hslot1; eauto 10.
Qed.

(** Computations that keep a relation. *)
Lemma keeps_bind (R : World Heap → World Heap → Prop) {A B}
    (m : JS Heap A) (k : A → JS Heap B) :
  (∀ w1 w2 w3, R w1 w2 → R w2 w3 → R w1 w3) →
  keeps R m → (∀ a, keeps R (k a)) → keeps R (bind m k).
Proof.
  intros Htrans Hm Hk w. unfold bind. specialize (Hm w).
  destruct (m w) as [[a|err] w1]; simpl in *; [|exact Hm].
  eapply Htrans; [exact Hm|apply Hk].
Qed.

Lemma keeps_for_each (R : World Heap → World Heap → Prop) {A}
    (l : list A) (body : A → JS Heap unit) :
  (∀ w, R w w) → (∀ w1 w2 w3, R w1 w2 → R w2 w3 → R w1 w3) →
  (∀ x, keeps R (body x)) → keeps R (for_each l body).
Proof.
  intros Hrefl Htrans Hbody. induction l as [|x l IH]; simpl.
  - intros w. apply Hrefl.
  - apply keeps_bind; auto.
Qed.

Lemma filesystem_frame_refl w : filesystem_frame w w.
Proof. repeat split. Qed.

Lemma filesystem_frame_trans w1 w2 w3 :
  filesystem_frame w1 w2 → filesystem_frame w2 w3 → filesystem_frame w1 w3.
Proof.
  unfold filesystem_frame. intros (?&?&?&?&?&?&?&?&?) (?&?&?&?&?&?&?&?&?).
  repeat split; congruence.
Qed.

Lemma engine_FS_frame op :
  keeps (Heap := Heap) filesystem_frame (engine_FS op).
Proof.
  intros w. unfold engine_FS. destruct (engine w) as [e|]; simpl.
  - destruct (op (FS e)); simpl; repeat split.
  - repeat split.
Qed.

Lemma engine_FS_read_frame {A} (op : fs → Outcome A) :
  keeps (Heap := Heap) filesystem_frame (engine_FS_read op).
Proof.
  intros w. unfold engine_FS_read. destruct (engine w); repeat split.
Qed.

Lemma ret_frame {A} (a : A) :
  keeps (Heap := Heap) filesystem_frame (ret a).
Proof. intros w. repeat split. Qed.

(** What is left of [slice] once [callMain] has returned: the progress
    slot is emptied and nothing after that fills it again. *)
Lemma slice_tail w :
  ∃ out w',
    (modify (set_progress_callback None) ;;
     let! gcode := engine_FS_read (FS_readFile "Model.gcode") in
     engine_FS (FS_unlink "Model.stl") ;;
     engine_FS (FS_unlink "Model.gcode") ;;
     ret (inl gcode) : JS Heap (bytes + exn)) w = (out, w') ∧
    cura_wasm_progress_callback w' = None ∧
    cura_wasm_metadata_callback w' = cura_wasm_metadata_callback w ∧
    progressObserver w' = progressObserver w ∧
    mainCalls w' = mainCalls w ∧
    progressStream w' = progressStream w.
Proof.
  unfold bind at 1, modify.
  match goal with |- context [?m (set_progress_callback None w)] =>
    assert (Hkeep : keeps filesystem_frame m) end.
  { repeat (apply keeps_bind; [apply filesystem_frame_trans| |intros ?]);
      auto using engine_FS_frame, engine_FS_read_frame, ret_frame. }
  specialize (Hkeep (set_progress_callback None w)).
  destruct Hkeep as (_ & Hobs & _ & Hslot & Hmeta & Hstream & _ & Hcalls & _).
  eexists _, _. split; [apply surjective_pairing|]. auto.
Qed.

(** The second half of [run], from a state whose engine accepts
    [Model.stl]. *)
Lemma slice_run command overrides verbose extension stl w e f1 :
  engine w = Some e →
  FS_writeFile "Model.stl" stl (FS e) = Ret f1 →
  ∃ out w',
    slice command overrides verbose extension stl w = (out, w') ∧
    mainCalls w' = mainCalls w ++ [arguments command overrides verbose] ∧
    progressStream w' =
      progressStream w ++
      (if can_emit (progressObserver w)
       then map (λ r, r * slicerBias extension + converterBias extension)
              (forwarded 0
                 (raw_progress
                    (notifications
                       (callMain (arguments command overrides verbose)
                          {| FS := f1; heap := heap e |}))))
       else []) ∧
    cura_wasm_metadata_callback w' = Some metadataHandler ∧
    match fault (callMain (arguments command overrides verbose)
                   {| FS := f1; heap := heap e |}) with
    | Some err => out = Throw err ∧ is_Some (cura_wasm_progress_callback w')
    | None => cura_wasm_progress_callback w' = None
    end.
Proof.
  intros Hengine Hwrite. unfold slice.
  unfold bind at 1, engine_FS at 1. rewrite Hengine, Hwrite.
  unfold bind at 1, modify at 1. unfold bind at 1, modify at 1.
  set (cb := {| cb_converterBias := converterBias extension;
                cb_slicerBias := slicerBias extension;
                previousSlicerProgress := 0 |}).
  set (args := arguments command overrides verbose).
  set (e1 := {| FS := f1; heap := heap e |}).
  set (w2 := set_metadata_callback _ _).
  assert (Hlog : ∃ w3,
    (if truthy verbose
     then modify (push_console ("Calling Cura Engine with " +:+ join " " args))
     else ret tt) w2 = (Ret tt, w3) ∧
    engine w3 = Some e1 ∧ cura_wasm_progress_callback w3 = Some cb ∧
    cura_wasm_metadata_callback w3 = Some metadataHandler ∧
    progressObserver w3 = progressObserver w ∧
    mainCalls w3 = mainCalls w ∧ progressStream w3 = progressStream w).
  { destruct (truthy verbose); eexists; (split; [reflexivity|]);
      repeat split. }
  destruct Hlog as (w3 & Hlog & Heng3 & Hslot3 & Hmeta3 & Hobs3 & Hcalls3
                    & Hstream3).
  unfold bind at 1. rewrite Hlog.
  destruct (engine_callMain_run args w3 e1 cb Heng3 Hslot3)
    as (w4 & Hmain & Heng4 & Hobs4 & Hmeta4 & Hcalls4 & [cb' Hslot4]
        & Hstream4).
  unfold bind at 1. rewrite Hmain.
  destruct (fault (callMain args e1)) as [err|].
  - eexists _, _. split; [reflexivity|].
    rewrite Hcalls4, Hcalls3, Hstream4, Hstream3, Hobs3, Hmeta4, Hmeta3,
      Hslot4. eauto.
  - destruct (slice_tail w4)
      as (out & w5 & Htail & Hslot5 & Hmeta5 & Hobs5 & Hcalls5 & Hstream5).
    rewrite Htail. eexists _, _. split; [reflexivity|].
    rewrite Hslot5, Hmeta5, Hcalls5, Hstream5, Hcalls4, Hcalls3, Hstream4,
      Hstream3, Hobs3, Hmeta4, Hmeta3. auto.
Qed.

(** ** Release of the callback slots *)

(** C1 (as the code has it): in a run that reaches [callMain], the
    progress slot is empty at the end of the run whenever [callMain]
    returns, also when reading or removing the output fails afterwards;
    when [callMain] throws, [run] throws the same exception and releases
    nothing: the progress callback is still registered. *)
Theorem progress_callback_released_on_return w e command overrides verbose
    file extension stl f1 :
  engine w = Some e →
  converted (convert file extension) = Ret (inl stl) →
  FS_writeFile "Model.stl" stl (FS e) = Ret f1 →
  match fault (callMain (arguments command overrides verbose)
                 {| FS := f1; heap := heap e |}) with
  | None =>
      cura_wasm_progress_callback
        (run command overrides verbose file extension w).2 = None
  | Some err =>
      (run command overrides verbose file extension w).1 = Throw err ∧
      is_Some (cura_wasm_progress_callback
                 (run command overrides verbose file extension w).2)
  end.
Proof.
  intros Hengine Hconv Hwrite. rewrite run_cases, Hengine, Hconv.
  destruct (after_conversion_frame file extension w) as (He & _).
  rewrite Hengine in He.
  destruct (slice_run command overrides verbose extension stl _ e f1
              He Hwrite) as (out & w' & -> & _ & _ & _ & Hslot).
  exact Hslot.
Qed.

(** ** The argument vector *)

Lemma split_not_nil (sep : ascii) (s : string) : split sep s ≠ [].
Proof.
  destruct s as [|c r]; simpl; [discriminate|].
  destruct (Ascii.eqb c sep); [discriminate|].
  destruct (split sep r); discriminate.
Qed.

(** Splitting loses nothing: joining the tokens with the separator gives
    the command back. *)
Lemma join_split (sep : ascii) (s : string) :
  join (String sep EmptyString) (split sep s) = s.
Proof.
  induction s as [|c r IH]; [reflexivity|]. simpl split.
  destruct (Ascii.eqb_spec c sep) as [->|Hne].
  - pose proof (split_not_nil sep r) as Hnil.
    destruct (split sep r) as [|w ws]; [contradiction|].
    change (join (String sep EmptyString) (EmptyString :: w :: ws))
      with (String sep (join (String sep EmptyString) (w :: ws))).
    rewrite IH. reflexivity.
  - pose proof (split_not_nil sep r) as Hnil.
    destruct (split sep r) as [|w ws]; [contradiction|].
    rewrite <- IH. destruct ws; reflexivity.
Qed.

(** C7: with a raw command, the vector given to [callMain] is the
    command split at every space; the run is the same whatever the
    overrides and whatever the generator would have produced, and the
    verbosity flag does not change the vector.  With no command the
    vector is the generator's. *)
Theorem raw_command_is_split_verbatim w e c overrides verbose file
    extension stl f1 :
  engine w = Some e →
  converted (convert file extension) = Ret (inl stl) →
  FS_writeFile "Model.stl" stl (FS e) = Ret f1 →
  mainCalls (run (Some c) overrides verbose file extension w).2 =
    mainCalls w ++ [split " " c] ∧
  (∀ g overrides',
     run (foreign := with_generate g) (Some c) overrides' verbose file
       extension w =
     run (Some c) overrides verbose file extension w) ∧
  (∀ verbose',
     mainCalls (run (Some c) overrides verbose' file extension w).2 =
     mainCalls (run (Some c) overrides verbose file extension w).2) ∧
  mainCalls (run None overrides verbose file extension w).2 =
    mainCalls w ++ [generate overrides verbose].
Proof.
  intros Hengine Hconv Hwrite.
  destruct (after_conversion_frame file extension w)
    as (He & _ & _ & _ & _ & Hcalls).
  rewrite Hengine in He.
  assert (Hvector : ∀ command verbose',
    mainCalls (run command overrides verbose' file extension w).2 =
    mainCalls w ++ [arguments command overrides verbose']).
  { intros command verbose'. rewrite run_cases, Hengine, Hconv.
    destruct (slice_run command overrides verbose' extension stl _ e f1
                He Hwrite) as (out & w' & -> & Hmain & _).
    simpl. rewrite Hmain, Hcalls. reflexivity. }
  repeat split.
  - apply Hvector.
  - intros verbose'. rewrite !Hvector. reflexivity.
  - apply Hvector.
Qed.

(** ** Equality of numbers

    [==] on numbers is the IEEE comparison: no [NaN] is equal to
    anything, the two zeros are equal, and any other two numbers are
    equal when they are the same number. *)

Lemma SFeqb_true (a b : spec_float) :
  SFeqb a b = true ↔
  match a, b with
  | S754_zero _, S754_zero _ => True
  | S754_infinity s1, S754_infinity s2 => s1 = s2
  | S754_finite s1 m1 e1, S754_finite s2 m2 e2 =>
      s1 = s2 ∧ m1 = m2 ∧ e1 = e2
  | _, _ => False
  end.
Proof.
  unfold SFeqb.
  destruct a as [[]|[]| |[] m1 e1], b as [[]|[]| |[] m2 e2]; simpl;
    try tauto;
    try (split; [discriminate|first [tauto|discriminate|intros (? & _); discriminate]]).
  all: rewrite Pos.compare_cont_spec; simpl;
    destruct (Z.compare_spec e1 e2) as [->|Hlt|Hgt];
    try (split; [discriminate|intros (_ & _ & ->); lia]);
    destruct (Pos.compare_spec m1 m2) as [->|Hm|Hm]; simpl;
    try (split; [discriminate|intros (_ & -> & _); lia]);
    split; auto.
Qed.

Lemma number_eqb_sym (x y : float) : (x =? y) = (y =? x).
Proof.
  rewrite !FloatAxioms.eqb_spec. apply eq_true_iff_eq. rewrite !SFeqb_true.
  destruct (Prim2SF x), (Prim2SF y); intuition congruence.
Qed.

Lemma number_eqb_trans (x y z : float) :
  (x =? y) = true → (y =? z) = true → (x =? z) = true.
Proof.
  rewrite !FloatAxioms.eqb_spec, !SFeqb_true.
  destruct (Prim2SF x), (Prim2SF y), (Prim2SF z); intuition congruence.
Qed.

(** ** The handler's filter *)

(** Whatever is forwarded is the rounding of one of the raw values. *)
Lemma forwarded_elem (raws : list float) : ∀ previous r,
  r ∈ forwarded previous raws → ∃ p, p ∈ raws ∧ r = rounded p.
Proof.
  induction raws as [|raw rest IH]; intros previous r Hin; simpl in Hin.
  - inversion Hin.
  - destruct (negb (rounded raw =? previous)).
    + apply elem_of_cons in Hin as [->|Hin].
      * exists raw. split; [left|reflexivity].
      * destruct (IH _ _ Hin) as (p & Hp & ->).
        exists p. split; [right; exact Hp|reflexivity].
    + destruct (IH _ _ Hin) as (p & Hp & ->).
      exists p. split; [right; exact Hp|reflexivity].
Qed.

(** The handler never forwards a value equal to the one it forwarded
    last, and never starts with a value equal to its initial one. *)
Lemma forwarded_no_repeat (raws : list float) : ∀ previous,
  no_repeat previous (forwarded previous raws).
Proof.
  induction raws as [|raw rest IH]; intros previous; simpl; [exact I|].
  destruct (rounded raw =? previous) eqn:Heq; simpl; [apply IH|].
  split; [exact Heq|apply IH].
Qed.

(** Raw values whose roundings equal [previous] are all held back. *)
Lemma forwarded_held_back (held rest : list float) (previous : float) :
  Forall (λ p, (rounded p =? previous) = true) held →
  forwarded previous (held ++ rest) = forwarded previous rest.
Proof.
  induction 1 as [|p held Hp _ IH]; simpl; [reflexivity|].
  rewrite Hp. exact IH.
Qed.

(** ** The progress stream of a run *)

(** What an initialised run whose conversion succeeds gives to the
    progress observer: the converter's fractions times the converter's
    bias, then the forwarded roundings of the engine's fractions times the
    slicer's bias plus the converter's bias. *)
Lemma run_stream w e command overrides verbose file extension stl :
  engine w = Some e →
  converted (convert file extension) = Ret (inl stl) →
  progressStream (run command overrides verbose file extension w).2 =
  progressStream w ++
  (if can_emit (progressObserver w)
   then map (λ c, c * converterBias extension)
          (reported (convert file extension)) ++
        map (λ r, r * slicerBias extension + converterBias extension)
          (forwarded 0 (slicing_raws command overrides verbose stl e))
   else []).
Proof.
  intros Hengine Hconv. rewrite run_cases, Hengine, Hconv.
  assert (Hafter :
    engine (after_conversion file extension w) = Some e ∧
    progressObserver (after_conversion file extension w) =
      progressObserver w ∧
    progressStream (after_conversion file extension w) =
      progressStream w ++
      (if can_emit (progressObserver w)
       then map (λ c, c * converterBias extension)
              (reported (convert file extension))
       else [])).
  { unfold after_conversion.
    destruct (can_emit (progressObserver w)); simpl;
      rewrite ?app_nil_r; auto. }
  destruct Hafter as (He & Hobs & Hstream).
  unfold slicing_raws.
  destruct (FS_writeFile "Model.stl" stl (FS e)) as [f1|err] eqn:Hwrite.
  - destruct (slice_run command overrides verbose extension stl _ e f1
                He Hwrite) as (out & w' & -> & _ & Hsliced & _).
    simpl. rewrite Hsliced, Hobs, Hstream.
    destruct (can_emit (progressObserver w));
      rewrite <- ?app_assoc, ?app_nil_r; reflexivity.
  - unfold slice, bind at 1, engine_FS at 1. rewrite He, Hwrite. simpl.
    rewrite Hstream. destruct (can_emit (progressObserver w));
      rewrite ?app_nil_r; reflexivity.
Qed.

Lemma bias_cases (extension : string) :
  (slicerBias extension = 1 ∧ converterBias extension = 0) ∨
  (slicerBias extension = 0.7 ∧ converterBias extension = 0.3).
Proof.
  unfold slicerBias, converterBias.
  destruct (String.eqb extension "stl"); [left|right]; split; reflexivity.
Qed.

(** A function that rises on fractions keeps a rising sequence sorted. *)
Lemma rising_fmap (f : float → float) (l : list float) :
  (∀ p q, fraction p → fraction q → number_le p q →
          number_le (f p) (f q)) →
  rising_fractions l → StronglySorted number_le (map f l).
Proof.
  intros Hf [Hsorted Hunit].
  induction Hsorted as [|p l Hl IH Hp]; simpl; constructor.
  - apply IH. exact (Forall_inv_tail Hunit).
  - apply Forall_fmap, Forall_forall. intros q Hq.
    rewrite Forall_forall in Hp, Hunit.
    apply Hf; [apply Hunit; left|apply Hunit; right; exact Hq|auto].
Qed.

(** What the handler forwards of a rising sequence rises, under any
    function that rises on the roundings of fractions. *)
Lemma forwarded_rising (f : float → float) (raws : list float) :
  (∀ p q, fraction p → fraction q → number_le p q →
          number_le (f (rounded p)) (f (rounded q))) →
  rising_fractions raws →
  ∀ previous, StronglySorted number_le (map f (forwarded previous raws)).
Proof.
  intros Hf [Hsorted Hunit].
  induction Hsorted as [|raw rest Hrest IH Hraw]; intros previous; simpl.
  - constructor.
  - pose proof (Forall_inv_tail Hunit) as Hunit'.
    destruct (negb (rounded raw =? previous)); [|apply IH; exact Hunit'].
    simpl. constructor; [apply IH; exact Hunit'|].
    apply Forall_fmap, Forall_forall. intros r Hin.
    destruct (forwarded_elem _ _ _ Hin) as (p & Hp & ->).
    rewrite Forall_forall in Hraw, Hunit. simpl.
    apply Hf; [apply Hunit; left|apply Hunit; right; exact Hp|auto].
Qed.

(** Over rising fractions the handler forwards a value only when the
    number of hundredths has grown: everything forwarded has more
    hundredths than the value in [previousSlicerProgress], and at most
    one value is forwarded for each number of hundredths up to 100. *)
Lemma forwarded_climbs (raws : list float) :
  rising_fractions raws →
  ∀ previous k,
    (0 ≤ k)%Z →
    (k = 0%Z ∧ (previous =? 0) = true) ∨
    (∃ p0, fraction p0 ∧ previous = rounded p0 ∧ hundredths p0 = k ∧
           Forall (number_le p0) raws) →
    Forall (λ r, ∃ p, fraction p ∧ r = rounded p ∧ (k < hundredths p)%Z)
      (forwarded previous raws) ∧
    (length (forwarded previous raws) ≤ Z.to_nat (100 - k))%nat.
Proof.
  intros [Hsorted Hunit].
  induction Hsorted as [|raw rest Hrest IH Hraw]; intros previous k Hk Hprev;
    simpl.
  - split; [constructor|lia].
  - pose proof (Forall_inv Hunit) as Hfraw.
    pose proof (Forall_inv_tail Hunit) as Hunit'.
    destruct (rounded_step raw Hfraw) as [Hrange _].
    destruct (rounded raw =? previous) eqn:Hsame; simpl.
    + apply IH; [exact Hunit'|exact Hk|].
      destruct Hprev as [Hzero|(p0 & Hp0 & -> & Hk0 & Hall)]; [left; exact Hzero|].
      right. exists p0. split; [exact Hp0|]. split; [reflexivity|].
      split; [exact Hk0|]. exact (Forall_inv_tail Hall).
    + assert (Hgrow : (k < hundredths raw)%Z).
      { destruct Hprev as [[-> Hzero]|(p0 & Hp0 & -> & Hk0 & Hall)].
        - destruct (Z.eq_dec (hundredths raw) 0%Z) as [H0|Hne]; [|lia].
          rewrite (number_eqb_trans _ 0 previous) in Hsame;
            [discriminate|apply rounded_zero; assumption|].
          rewrite number_eqb_sym. exact Hzero.
        - pose proof (hundredths_mono p0 raw Hp0 Hfraw (Forall_inv Hall)).
          destruct (Z.eq_dec (hundredths raw) k) as [Heq|Hne]; [|lia].
          rewrite rounded_same in Hsame; [discriminate|assumption..|lia]. }
      destruct (IH Hunit' (rounded raw) (hundredths raw) ltac:(lia))
        as [Hall Hlen].
      { right. exists raw. split; [exact Hfraw|]. split; [reflexivity|].
        split; [reflexivity|exact Hraw]. }
      split.
      * constructor.
        { exists raw. split; [exact Hfraw|]. split; [reflexivity|exact Hgrow]. }
        eapply Forall_impl; [exact Hall|].
        intros r (p & Hp & -> & Hlt). exists p.
        split; [exact Hp|]. split; [reflexivity|lia].
      * lia.
Qed.

(** C2: in an initialised run whose conversion succeeds, if the
    converter's raw fractions and the engine's raw fractions are each
    non-decreasing and within [0,1], then what the progress observer
    receives during the run (the converter's fractions times the
    converter's bias, then the forwarded rounded engine fractions times
    the slicer's bias plus the converter's bias) is non-decreasing and
    within [0,1].  A successful run is such a run.  Numbers are binary64
    and every operation rounds as in IEEE 754. *)
Theorem progress_stream_rises w e command overrides verbose file extension
    stl :
  engine w = Some e →
  converted (convert file extension) = Ret (inl stl) →
  rising_fractions (reported (convert file extension)) →
  rising_fractions (slicing_raws command overrides verbose stl e) →
  ∃ emitted,
    progressStream (run command overrides verbose file extension w).2 =
      progressStream w ++ emitted ∧
    emitted =
      (if can_emit (progressObserver w)
       then map (λ c, c * converterBias extension)
              (reported (convert file extension)) ++
            map (λ r, r * slicerBias extension + converterBias extension)
              (forwarded 0 (slicing_raws command overrides verbose stl e))
       else []) ∧
    StronglySorted number_le emitted ∧
    Forall fraction emitted.
Proof.
  intros Hengine Hconv Hcrise Hsrise.
  eexists. split; [apply run_stream; eassumption|].
  split; [reflexivity|].
  destruct (can_emit (progressObserver w)); [|split; constructor].
  pose proof (bias_cases extension) as Hbias.
  set (wc := converterBias extension) in *.
  set (ws := slicerBias extension) in *.
  assert (Hwc : wc = 0 ∨ wc = 0.3) by (destruct Hbias as [[_ ->]|[_ ->]]; auto).
  assert (Hfwc : fraction wc)
    by (destruct Hwc as [->| ->]; split; reflexivity).
  assert (Hclow : Forall (λ v, fraction v ∧ number_le v wc)
                    (map (λ c, c * wc) (reported (convert file extension)))).
  { apply Forall_fmap. eapply Forall_impl; [exact (proj2 Hcrise)|].
    intros c Hc. simpl.
    destruct (scaled wc c c Hwc Hc Hc (number_le_refl c Hc)) as (? & ? & _).
    auto. }
  assert (Hshigh : Forall (λ v, fraction v ∧ number_le wc v)
                     (map (λ r, r * ws + wc)
                        (forwarded 0 (slicing_raws command overrides
                                        verbose stl e)))).
  { apply Forall_fmap, Forall_forall. intros r Hin.
    destruct (forwarded_elem _ _ _ Hin) as (p & Hp & ->). simpl.
    destruct Hsrise as [_ Hunit]. rewrite Forall_forall in Hunit.
    pose proof (Hunit p Hp) as Hfp.
    destruct (blended ws wc p p Hbias Hfp Hfp (number_le_refl p Hfp))
      as (? & ? & _).
    auto. }
  split.
  - apply StronglySorted_app_2.
    + intros x1 x2 Hx1 Hx2.
      rewrite Forall_forall in Hclow, Hshigh.
      destruct (Hclow _ Hx1), (Hshigh _ Hx2).
      apply (number_le_trans _ wc); assumption.
    + apply rising_fmap; [|exact Hcrise]. intros p q Hp Hq Hle.
      apply (scaled wc p q Hwc Hp Hq Hle).
    + apply forwarded_rising; [|exact Hsrise]. intros p q Hp Hq Hle.
      apply (blended ws wc p q Hbias Hp Hq Hle).
  - apply Forall_app. split.
    + eapply Forall_impl; [exact Hclow|]. intros v [Hv _]. exact Hv.
    + eapply Forall_impl; [exact Hshigh|]. intros v [Hv _]. exact Hv.
Qed.

(** ** Deduplication of the engine's progress *)

(** One call of the registered handler with a value whose rounding
    equals [previousSlicerProgress] sends nothing and keeps the closure. *)
Lemma deliver_same raw w cb :
  cura_wasm_progress_callback w = Some cb →
  (rounded raw =? previousSlicerProgress cb) = true →
  progressStream (deliver (ProgressEvent raw) w).2 = progressStream w ∧
  cura_wasm_progress_callback (deliver (ProgressEvent raw) w).2 = Some cb.
Proof.
  intros Hslot Hsame.
  destruct (deliver_progress raw w cb Hslot) as (w' & -> & _ & Hslot' & Hs).
  simpl. rewrite Hslot', Hs. cbn [forwarded].
  rewrite Hsame. cbn [negb map List.last].
  destruct cb. destruct (can_emit (progressObserver w));
    rewrite app_nil_r; auto.
Qed.

(** One call of the registered handler with a value whose rounding
    differs from [previousSlicerProgress] sends the blended value when
    there is a subscriber. *)
Lemma deliver_other raw w cb :
  cura_wasm_progress_callback w = Some cb →
  (rounded raw =? previousSlicerProgress cb) = false →
  progressStream (deliver (ProgressEvent raw) w).2 =
  progressStream w ++
  (if can_emit (progressObserver w)
   then [rounded raw * cb_slicerBias cb + cb_converterBias cb] else []).
Proof.
  intros Hslot Hother.
  destruct (deliver_progress raw w cb Hslot) as (w' & -> & _ & _ & Hs).
  simpl. rewrite Hs. cbn [forwarded]. rewrite Hother. reflexivity.
Qed.

(** After any call of the registered handler, [previousSlicerProgress]
    is the rounding of the value just received, or it is unchanged and
    equal to that rounding. *)
Lemma deliver_remembers raw w cb :
  cura_wasm_progress_callback w = Some cb →
  ∃ cb', cura_wasm_progress_callback (deliver (ProgressEvent raw) w).2 =
         Some cb' ∧
    (previousSlicerProgress cb' = rounded raw ∨
     previousSlicerProgress cb' = previousSlicerProgress cb ∧
     (rounded raw =? previousSlicerProgress cb) = true).
Proof.
  intros Hslot.
  destruct (deliver_progress raw w cb Hslot) as (w' & -> & _ & Hslot' & _).
  simpl. rewrite Hslot'. eexists. split; [reflexivity|].
  cbn [forwarded previousSlicerProgress].
  destruct (rounded raw =? previousSlicerProgress cb) eqn:Heq;
    cbn [negb List.last]; auto.
Qed.

(** C5: when the roundings of two consecutive raw values are equal, the
    callback's second call sends nothing to the progress observer, in any
    state; a call of the registered callback sends something exactly when
    there is a subscriber and the rounding differs from
    [previousSlicerProgress].  Over a whole run the rounded engine values
    that are sent are roundings of the engine's raw values, and none
    equals the one sent before it.  Numbers are binary64 and equality is
    that of [==]. *)
Theorem duplicate_progress_not_forwarded w e command overrides verbose file
    extension stl :
  engine w = Some e →
  converted (convert file extension) = Ret (inl stl) →
  (∀ w0 p1 p2,
     (rounded p1 =? rounded p2) = true →
     progressStream
       (deliver (ProgressEvent p2) (deliver (ProgressEvent p1) w0).2).2 =
     progressStream (deliver (ProgressEvent p1) w0).2) ∧
  (∀ w0 cb p,
     cura_wasm_progress_callback w0 = Some cb →
     (progressStream (deliver (ProgressEvent p) w0).2 ≠ progressStream w0 ↔
      can_emit (progressObserver w0) = true ∧
      (rounded p =? previousSlicerProgress cb) = false)) ∧
  ∃ sent,
    sent = forwarded 0 (slicing_raws command overrides verbose stl e) ∧
    progressStream (run command overrides verbose file extension w).2 =
      progressStream w ++
      (if can_emit (progressObserver w)
       then map (λ c, c * converterBias extension)
              (reported (convert file extension)) ++
            map (λ r, r * slicerBias extension + converterBias extension)
              sent
       else []) ∧
    no_repeat 0 sent ∧
    (∀ r, r ∈ sent →
       ∃ p, p ∈ slicing_raws command overrides verbose stl e ∧
            r = rounded p).
Proof.
  intros Hengine Hconv. split; [|split].
  - intros w0 p1 p2 Hsame.
    destruct (cura_wasm_progress_callback w0) as [cb|] eqn:Hslot.
    + destruct (deliver_remembers p1 w0 cb Hslot)
        as (cb' & Hslot' & [Hprev|[Hprev Hheld]]).
      * apply (deliver_same p2 _ cb' Hslot').
        rewrite Hprev, number_eqb_sym. exact Hsame.
      * apply (deliver_same p2 _ cb' Hslot').
        rewrite Hprev. apply (number_eqb_trans _ (rounded p1)); [|exact Hheld].
        rewrite number_eqb_sym. exact Hsame.
    + unfold deliver, bind, gets. rewrite Hslot. simpl.
      rewrite Hslot. reflexivity.
  - intros w0 cb p Hslot.
    destruct (rounded p =? previousSlicerProgress cb) eqn:Heq.
    + destruct (deliver_same p w0 cb Hslot Heq) as [-> _].
      split; [congruence|]. intros [_ ?]. discriminate.
    + rewrite (deliver_other p w0 cb Hslot Heq).
      destruct (can_emit (progressObserver w0)).
      * split; [auto|]. intros _ Hsame.
        apply (f_equal length) in Hsame. rewrite length_app in Hsame.
        simpl in Hsame. lia.
      * rewrite app_nil_r. split; [congruence|]. intros [? _]. discriminate.
  - eexists. split; [reflexivity|]. split; [|split].
    + apply run_stream; assumption.
    + apply forwarded_no_repeat.
    + intros r. apply forwarded_elem.
Qed.

(** C10 (as the code has it): [previousSlicerProgress] starts at 0 in
    every run.  While it is 0, a raw value that rounds to 0 is not sent
    and leaves it as it is; so the raw values of a run that round to 0
    before any other does are not sent, the first engine value sent in a
    run has a rounding different from 0, and when the engine's raw values
    never decrease and lie within [0,1], no value that rounds to 0 is
    sent at all.  Numbers are binary64 and equality is that of [==]. *)
Theorem zero_progress_held_back w e command overrides verbose file
    extension stl :
  engine w = Some e →
  converted (convert file extension) = Ret (inl stl) →
  (∀ w0 cb p,
     cura_wasm_progress_callback w0 = Some cb →
     (previousSlicerProgress cb =? 0) = true →
     (rounded p =? 0) = true →
     progressStream (deliver (ProgressEvent p) w0).2 = progressStream w0 ∧
     cura_wasm_progress_callback (deliver (ProgressEvent p) w0).2 =
       Some cb) ∧
  ∃ sent,
    sent = forwarded 0 (slicing_raws command overrides verbose stl e) ∧
    progressStream (run command overrides verbose file extension w).2 =
      progressStream w ++
      (if can_emit (progressObserver w)
       then map (λ c, c * converterBias extension)
              (reported (convert file extension)) ++
            map (λ r, r * slicerBias extension + converterBias extension)
              sent
       else []) ∧
    (∀ r, head sent = Some r → (r =? 0) = false) ∧
    (∀ held rest,
       slicing_raws command overrides verbose stl e = held ++ rest →
       Forall (λ p, (rounded p =? 0) = true) held →
       sent = forwarded 0 rest) ∧
    (rising_fractions (slicing_raws command overrides verbose stl e) →
     Forall (λ r, (r =? 0) = false) sent).
Proof.
  intros Hengine Hconv. split.
  - intros w0 cb p Hslot Hprev Hzero. apply deliver_same; [exact Hslot|].
    apply (number_eqb_trans _ 0); [exact Hzero|].
    rewrite number_eqb_sym. exact Hprev.
  - eexists. split; [reflexivity|]. split; [|split; [|split]].
    + apply run_stream; assumption.
    + intros r Hhead.
      pose proof (forwarded_no_repeat
                    (slicing_raws command overrides verbose stl e) 0) as Hno.
      destruct (forwarded 0 _) as [|x l]; [discriminate|].
      injection Hhead as ->. apply Hno.
    + intros held rest -> Hheld. apply forwarded_held_back, Hheld.
    + intros Hrise.
      destruct (forwarded_climbs _ Hrise 0 0%Z ltac:(lia)
                  (or_introl (conj eq_refl eq_refl))) as [Hall _].
      eapply Forall_impl; [exact Hall|].
      intros r (p & Hp & -> & Hlt). apply rounded_nonzero; [exact Hp|lia].
Qed.

(** ** Paths of the definition files *)

Lemma dirname_app_slash (d r : string) :
  dirname r = None → dirname (d +:+ String slash r) = Some d.
Proof.
  intros Hr. induction d as [|c d IH]; simpl.
  - rewrite Hr. reflexivity.
  - rewrite IH. reflexivity.
Qed.

Lemma dirname_app_none (a b : string) :
  dirname a = None → dirname b = None → dirname (a +:+ b) = None.
Proof.
  intros Ha Hb. induction a as [|c a IH]; simpl in *; [exact Hb|].
  destruct (dirname a); [discriminate|]. rewrite IH by reflexivity.
  exact Ha.
Qed.

Lemma pretty_N_char_not_slash (x : N) :
  Ascii.eqb (pretty_N_char x) slash = false.
Proof. unfold pretty_N_char. repeat case_match; reflexivity. Qed.

Lemma dirname_pretty_N_go (x : N) : ∀ s,
  dirname s = None → dirname (pretty_N_go x s) = None.
Proof.
  induction (N.lt_wf_0 x) as [x _ IH]; intros s Hs.
  destruct (decide (x = 0)%N) as [->|Hpos]; [exact Hs|].
  rewrite pretty_N_go_step by lia. apply IH.
  - apply N.div_lt; lia.
  - simpl. rewrite Hs, pretty_N_char_not_slash. reflexivity.
Qed.

Lemma dirname_pretty (i : nat) : dirname (pretty i) = None.
Proof.
  unfold pretty, pretty_nat, pretty, pretty_N.
  case_decide; [reflexivity|]. apply dirname_pretty_N_go. reflexivity.
Qed.

Lemma string_app_length (a b : string) :
  String.length (a +:+ b) = (String.length a + String.length b)%nat.
Proof.
  induction a as [|c a IH]; simpl; [reflexivity|]. rewrite IH. reflexivity.
Qed.

Lemma string_app_inj_r (t a b : string) : a +:+ t = b +:+ t → a = b.
Proof.
  intros Heq.
  assert (Hlen : String.length a = String.length b).
  { apply (f_equal String.length) in Heq.
    rewrite !string_app_length in Heq. lia. }
  revert b Heq Hlen. induction a as [|c a IH]; intros [|c' b] Heq Hlen;
    simpl in *; try discriminate; [reflexivity|].
  injection Heq as -> Heq. f_equal. apply IH; [exact Heq|lia].
Qed.

(** Every definition file is [/definitions/<stem>.def.json]. *)
Lemma primary_path_inj (a b : string) :
  primary_path a = primary_path b → a = b.
Proof.
  unfold primary_path. intros Heq. apply String.app_inj in Heq.
  eapply string_app_inj_r, Heq.
Qed.

Lemma printer_path_stem :
  "/definitions/printer.def.json" = primary_path "printer".
Proof. reflexivity. Qed.

Lemma extruder_path_stem (i : nat) :
  extruder_path i = primary_path ("extruder-" +:+ pretty i).
Proof. reflexivity. Qed.

Lemma primary_path_resolve (stem : string) :
  resolve (primary_path stem) = primary_path stem.
Proof. reflexivity. Qed.

Lemma primary_path_parent (stem : string) :
  dirname stem = None → parent (primary_path stem) = "/definitions".
Proof.
  intros Hstem. unfold parent.
  change (primary_path stem)
    with ("/definitions" +:+ String slash (stem +:+ ".def.json")).
  rewrite dirname_app_slash; [reflexivity|].
  apply dirname_app_none; [exact Hstem|reflexivity].
Qed.

(** ** Loops over the filesystem *)

Lemma bind_ext {A B} (m : JS Heap A) (k1 k2 : A → JS Heap B) w :
  (∀ a w', k1 a w' = k2 a w') → bind m k1 w = bind m k2 w.
Proof.
  intros Hk. unfold bind. destruct (m w) as [[a|err] w']; [apply Hk|].
  reflexivity.
Qed.

Lemma bind_assoc {A B C} (m : JS Heap A) (f : A → JS Heap B)
    (g : B → JS Heap C) w :
  bind (bind m f) g w = bind m (λ a, bind (f a) g) w.
Proof. unfold bind. destruct (m w) as [[a|err] w']; reflexivity. Qed.

Lemma for_each_app_then {A B} (l1 l2 : list A) (body : A → JS Heap unit)
    (k : JS Heap B) w :
  (for_each (l1 ++ l2) body ;; k) w =
  (for_each l1 body ;; for_each l2 body ;; k) w.
Proof.
  revert w. induction l1 as [|x l1 IH]; intros w; [reflexivity|].
  simpl. rewrite !bind_assoc. apply bind_ext. intros _ w'. apply IH.
Qed.

Lemma for_each_fmap_then {A B C} (f : A → B) (l : list A)
    (body : B → JS Heap unit) (k : JS Heap C) w :
  (for_each (f <$> l) body ;; k) w = (for_each l (λ x, body (f x)) ;; k) w.
Proof.
  revert w. induction l as [|x l IH]; intros w; [reflexivity|].
  simpl. rewrite !bind_assoc. apply bind_ext. intros _ w'. apply IH.
Qed.

Lemma for_each_one_then {A B} (x : A) (body : A → JS Heap unit)
    (k : JS Heap B) w :
  (for_each [x] body ;; k) w = (body x ;; k) w.
Proof.
  simpl. unfold bind, ret. destruct (body x w) as [[[]|err] w1]; reflexivity.
Qed.

Lemma set_engine_same w e : engine w = Some e → set_engine (Some e) w = w.
Proof. destruct w; simpl. intros ->. reflexivity. Qed.

Lemma FS_writeFile_done (p : string) (data : bytes) (f : fs) :
  resolve p = p → p ∉ dirs f → dir_exists (parent p) f = true →
  FS_writeFile p data f = Ret (mkfs (<[p := data]> (files f)) (dirs f)).
Proof.
  intros Hres Hdir Hparent. unfold FS_writeFile. rewrite Hres, Hparent.
  rewrite bool_decide_eq_false_2 by exact Hdir. reflexivity.
Qed.

Lemma FS_unlink_done (p : string) (data : bytes) (f : fs) :
  resolve p = p → files f !! p = Some data →
  FS_unlink p f = Ret (mkfs (delete p (files f)) (dirs f)).
Proof.
  intros Hres Hfile. unfold FS_unlink. rewrite Hres, Hfile. reflexivity.
Qed.

(** Writing files one after the other into directories that exist. *)
Lemma write_each (items : list (string * bytes)) : ∀ w e,
  engine w = Some e →
  Forall (λ it, resolve it.1 = it.1 ∧ (it.1 ∉ dirs (FS e)) ∧
                dir_exists (parent it.1) (FS e) = true) items →
  for_each items (λ it, engine_FS (FS_writeFile it.1 it.2)) w =
  (Ret tt,
   set_engine
     (Some {| FS := mkfs (foldl (λ m it, <[it.1 := it.2]> m)
                            (files (FS e)) items)
                      (dirs (FS e));
              heap := heap e |}) w).
Proof.
  induction items as [|[p data] items IH]; intros w e Hengine Hok.
  - simpl. unfold ret. f_equal. symmetry.
    destruct e as [[m d] h]. apply set_engine_same, Hengine.
  - apply Forall_cons in Hok as [(Hres & Hdir & Hparent) Hok].
    simpl in Hres, Hdir, Hparent. simpl for_each.
    unfold bind, engine_FS at 1. rewrite Hengine.
    rewrite (FS_writeFile_done p data (FS e) Hres Hdir Hparent).
    set (e1 := {| FS := mkfs (<[p := data]> (files (FS e))) (dirs (FS e));
                  heap := heap e |}).
    rewrite (IH (set_engine (Some e1) w) e1 eq_refl Hok). reflexivity.
Qed.

(** Unlinking distinct files that exist. *)
Lemma unlink_each (paths : list string) : ∀ w e,
  engine w = Some e →
  NoDup paths →
  Forall (λ p, resolve p = p ∧ is_Some (files (FS e) !! p)) paths →
  for_each paths (λ p, engine_FS (FS_unlink p)) w =
  (Ret tt,
   set_engine
     (Some {| FS := mkfs (foldl (λ m p, delete p m) (files (FS e)) paths)
                      (dirs (FS e));
              heap := heap e |}) w).
Proof.
  induction paths as [|p paths IH]; intros w e Hengine Hnodup Hok.
  - simpl. unfold ret. f_equal. symmetry.
    destruct e as [[m d] h]. apply set_engine_same, Hengine.
  - apply Forall_cons in Hok as [(Hres & [data Hfile]) Hok].
    apply NoDup_cons in Hnodup as [Hfresh Hnodup].
    simpl for_each. unfold bind, engine_FS at 1. rewrite Hengine.
    rewrite (FS_unlink_done p data (FS e) Hres Hfile).
    set (e1 := {| FS := mkfs (delete p (files (FS e))) (dirs (FS e));
                  heap := heap e |}).
    rewrite (IH (set_engine (Some e1) w) e1 eq_refl Hnodup); [reflexivity|].
    simpl. apply Forall_forall. intros q Hq.
    rewrite Forall_forall in Hok. destruct (Hok q Hq) as [Hresq Hsome].
    split; [exact Hresq|]. rewrite lookup_delete_ne; [exact Hsome|].
    intros ->. contradiction.
Qed.

Lemma lookup_foldl_insert (items : list (string * bytes)) :
  ∀ (m : gmap string bytes) p,
  (p ∉ items.*1 → foldl (λ m it, <[it.1 := it.2]> m) m items !! p = m !! p) ∧
  (p ∈ items.*1 ∨ is_Some (m !! p) →
   is_Some (foldl (λ m it, <[it.1 := it.2]> m) m items !! p)).
Proof.
  induction items as [|[q data] items IH]; intros m p; simpl.
  - split; [reflexivity|]. intros [Hin|Hsome]; [inversion Hin|exact Hsome].
  - destruct (IH (<[q := data]> m) p) as [IHout IHin]. split.
    + intros Hout. apply not_elem_of_cons in Hout as [Hne Hout].
      rewrite IHout by exact Hout. apply lookup_insert_ne. congruence.
    + intros Hin. apply IHin. destruct (decide (p = q)) as [->|Hne].
      * right. rewrite lookup_insert_eq. eauto.
      * destruct Hin as [Hin|Hsome].
        -- apply elem_of_cons in Hin as [?|Hin]; [contradiction|].
           left. exact Hin.
        -- right. rewrite lookup_insert_ne by congruence. exact Hsome.
Qed.

Lemma lookup_foldl_delete (paths : list string) : ∀ (m : gmap string bytes) p,
  foldl (λ m q, delete q m) m paths !! p =
  if decide (p ∈ paths) then None else m !! p.
Proof.
  induction paths as [|q paths IH]; intros m p; cbn [foldl].
  - rewrite decide_False; [reflexivity|]. intros Hin. inversion Hin.
  - rewrite IH. destruct (decide (p ∈ paths)) as [Hin|Hout].
    + rewrite decide_True; [reflexivity|]. right. exact Hin.
    + destruct (decide (p = q)) as [->|Hne].
      * rewrite decide_True by left. apply lookup_delete_eq.
      * rewrite decide_False.
        -- apply lookup_delete_ne. congruence.
        -- intros Hin. apply elem_of_cons in Hin as [?|?]; contradiction.
Qed.

(** ** The files of a staging *)

(** What is written is what is unlinked, path for path and in order. *)
Lemma staged_files_paths (definition : CombinedDefinition json) :
  (staged_files definition).*1 =
  removed_paths (length (extruders definition)).
Proof.
  unfold staged_files, removed_paths.
  rewrite !fmap_app, <- !list_fmap_compose. f_equal. f_equal.
  rewrite fmap_imap, <- imap_seq_0. reflexivity.
Qed.

Lemma removed_paths_stems (n : nat) :
  removed_paths n = primary_path <$> staged_stems n.
Proof.
  unfold removed_paths, staged_stems.
  rewrite !fmap_app, <- !list_fmap_compose. reflexivity.
Qed.

Lemma staged_stems_plain (n : nat) :
  primary_names_distinct →
  Forall (λ stem, dirname stem = None) (staged_stems n).
Proof.
  intros [_ Hnames]. unfold staged_stems. rewrite !Forall_app.
  split; [|split].
  - eapply Forall_impl; [exact Hnames|]. intros stem (Hplain & _). exact Hplain.
  - repeat constructor.
  - apply Forall_fmap, Forall_forall. intros i _.
    apply (dirname_app_none "extruder-"); [reflexivity|apply dirname_pretty].
Qed.

Lemma staged_stems_NoDup (n : nat) :
  primary_names_distinct → NoDup (staged_stems n).
Proof.
  intros [Hnodup Hnames]. unfold staged_stems.
  rewrite Forall_forall in Hnames.
  apply NoDup_app. split; [exact Hnodup|]. split.
  - intros stem Hin Hrest. destruct (Hnames _ Hin) as (_ & Hprinter & Hext).
    apply elem_of_app in Hrest as [Hrest|Hrest].
    + apply list_elem_of_singleton in Hrest. contradiction.
    + apply list_elem_of_fmap in Hrest as (i & -> & _). exact (Hext i eq_refl).
  - apply NoDup_app. split; [apply NoDup_singleton|]. split.
    + intros stem Hin Hrest. apply list_elem_of_singleton in Hin as ->.
      apply list_elem_of_fmap in Hrest as (i & Heq & _). discriminate.
    + apply NoDup_fmap_2; [|apply NoDup_seq].
      intros i j Heq. apply String.app_inj in Heq.
      apply (inj pretty) in Heq. exact Heq.
Qed.

Lemma removed_paths_NoDup (n : nat) :
  primary_names_distinct → NoDup (removed_paths n).
Proof.
  intros Hnames. rewrite removed_paths_stems.
  apply NoDup_fmap_2; [|apply staged_stems_NoDup, Hnames].
  intros a b. apply primary_path_inj.
Qed.

(** Every staged path lies directly in [/definitions]. *)
Lemma removed_paths_inside (n : nat) (p : string) :
  primary_names_distinct → p ∈ removed_paths n →
  resolve p = p ∧ parent p = "/definitions".
Proof.
  intros Hnames Hin. rewrite removed_paths_stems in Hin.
  apply list_elem_of_fmap in Hin as (stem & -> & Hstem).
  pose proof (staged_stems_plain n Hnames) as Hplain.
  rewrite Forall_forall in Hplain.
  split; [apply primary_path_resolve|apply primary_path_parent; auto].
Qed.

(** ** Staging and unstaging *)

Lemma addDefinitions_staged (definition : CombinedDefinition json) w e :
  engine w = Some e →
  addDefinitions definition w =
  (engine_FS (FS_mkdir "/definitions") ;;
   for_each (staged_files definition)
     (λ it, engine_FS (FS_writeFile it.1 it.2)) ;;
   modify (set_extruderCount (Some (length (extruders definition))))) w.
Proof.
  intros Hengine. unfold addDefinitions, bind at 1, gets. rewrite Hengine.
  apply bind_ext. intros _ w1. symmetry. unfold staged_files.
  rewrite for_each_app_then, for_each_fmap_then.
  apply bind_ext. intros _ w2.
  rewrite for_each_app_then, for_each_one_then.
  apply bind_ext. intros _ w3. rewrite for_each_fmap_then. reflexivity.
Qed.

Lemma removeDefinitions_staged w e (n : nat) :
  engine w = Some e →
  extruderCount w = Some n →
  removeDefinitions w =
  (for_each (removed_paths n) (λ p, engine_FS (FS_unlink p)) ;;
   engine_FS (FS_rmdir "/definitions")) w.
Proof.
  intros Hengine Hcount. unfold removeDefinitions, bind at 1, gets.
  rewrite Hengine. unfold bind at 1. rewrite Hcount. symmetry.
  unfold removed_paths.
  rewrite for_each_app_then, for_each_fmap_then.
  apply bind_ext. intros _ w2.
  rewrite for_each_app_then, for_each_one_then.
  apply bind_ext. intros _ w3. rewrite for_each_fmap_then. reflexivity.
Qed.

Lemma dom_foldl_insert (items : list (string * bytes))
    (m : gmap string bytes) :
  dom (foldl (λ m it, <[it.1 := it.2]> m) m items) =
  dom m ∪ list_to_set (items.*1).
Proof.
  apply set_eq. intros p.
  rewrite elem_of_union, elem_of_list_to_set, !elem_of_dom.
  destruct (lookup_foldl_insert items m p) as [Hout Hin]. split.
  - intros Hsome. destruct (decide (p ∈ items.*1)) as [?|Hfresh]; [auto|].
    left. rewrite <- Hout by exact Hfresh. exact Hsome.
  - intros [?|?]; apply Hin; auto.
Qed.

(** In a well-formed filesystem without [/definitions], nothing lies in
    that directory. *)
Lemma nothing_inside (f : fs) (p : string) :
  fs_wf f → "/definitions" ∉ dom (files f) ∪ dirs f →
  parent p = "/definitions" → p ∉ dom (files f) ∪ dirs f.
Proof.
  intros Hwf Hfresh Hparent Hin. specialize (Hwf p Hin).
  rewrite Hparent in Hwf. unfold dir_exists in Hwf.
  apply bool_decide_eq_true in Hwf as [Hroot|Hdir]; [discriminate|].
  apply Hfresh. apply elem_of_union. right. exact Hdir.
Qed.

(** C8: on an initialised worker whose filesystem is well formed and
    holds no [/definitions], and with primary definitions whose names are
    distinct, slash-free and neither [printer] nor [extruder-<i>]:
    [addDefinitions] returns, having created the directory and exactly
    the files of [removed_paths] (one per primary definition, the printer
    file, one per extruder), none of which existed; [removeDefinitions]
    called next returns, unlinks those same paths, and leaves the
    filesystem as it was before staging, so [/definitions] does not
    exist.  Only the recorded extruder count differs from the initial
    state. *)
Theorem stage_unstage_round_trip w e (definition : CombinedDefinition json) :
  engine w = Some e →
  fs_wf (FS e) →
  "/definitions" ∉ dom (files (FS e)) ∪ dirs (FS e) →
  primary_names_distinct →
  ∃ staged : fs,
    addDefinitions definition w =
      (Ret tt,
       set_extruderCount (Some (length (extruders definition)))
         (set_engine (Some {| FS := staged; heap := heap e |}) w)) ∧
    dirs staged = {[ "/definitions" ]} ∪ dirs (FS e) ∧
    dom (files staged) =
      dom (files (FS e)) ∪
      list_to_set (removed_paths (length (extruders definition))) ∧
    (staged_files definition).*1 =
      removed_paths (length (extruders definition)) ∧
    NoDup (removed_paths (length (extruders definition))) ∧
    (∀ p, p ∈ removed_paths (length (extruders definition)) →
          p ∉ dom (files (FS e))) ∧
    removeDefinitions
      (set_extruderCount (Some (length (extruders definition)))
         (set_engine (Some {| FS := staged; heap := heap e |}) w)) =
      (Ret tt, set_extruderCount (Some (length (extruders definition))) w) ∧
    "/definitions" ∉ dirs (FS e).
Proof.
  intros Hengine Hwf Hfresh Hnames.
  set (n := length (extruders definition)).
  set (items := staged_files definition).
  pose proof (staged_files_paths definition) as Hpaths.
  fold n items in Hpaths.
  pose proof (removed_paths_NoDup n Hnames) as Hnodup.
  assert (Hinside : ∀ p, p ∈ removed_paths n →
            resolve p = p ∧ parent p = "/definitions")
    by (intros p; apply removed_paths_inside, Hnames).
  assert (Hnew : ∀ p, p ∈ removed_paths n →
            p ∉ dom (files (FS e)) ∪ dirs (FS e)).
  { intros p Hp. apply nothing_inside; [exact Hwf|exact Hfresh|].
    apply Hinside, Hp. }
  set (f1 := mkfs (files (FS e)) ({[ "/definitions" ]} ∪ dirs (FS e))).
  set (staged := mkfs (foldl (λ m it, <[it.1 := it.2]> m) (files (FS e)) items)
                   (dirs f1)).
  exists staged.
  (* staging *)
  assert (Hmkdir : FS_mkdir "/definitions" (FS e) = Ret f1).
  { unfold FS_mkdir. change (resolve "/definitions") with "/definitions".
    rewrite bool_decide_eq_false_2 by exact Hfresh. reflexivity. }
  assert (Hadd : addDefinitions definition w =
            (Ret tt, set_extruderCount (Some n)
               (set_engine (Some {| FS := staged; heap := heap e |}) w))).
  { rewrite (addDefinitions_staged definition w e Hengine).
    unfold bind at 1, engine_FS at 1. rewrite Hengine, Hmkdir.
    unfold bind at 1. fold items n.
    rewrite (write_each items
               (set_engine (Some {| FS := f1; heap := heap e |}) w)
               {| FS := f1; heap := heap e |} eq_refl);
      [reflexivity|].
    apply Forall_forall. intros it Hit.
    assert (Hp : it.1 ∈ removed_paths n).
    { rewrite <- Hpaths. apply list_elem_of_fmap_2, Hit. }
    destruct (Hinside _ Hp) as [Hres Hparent]. split; [exact Hres|].
    simpl. split.
    - intros Hdir. apply elem_of_union in Hdir as [Hdir|Hdir].
      + apply elem_of_singleton in Hdir. rewrite Hdir in Hparent.
        discriminate.
      + apply (Hnew _ Hp). apply elem_of_union. right. exact Hdir.
    - rewrite Hparent. unfold dir_exists. apply bool_decide_eq_true.
      right. simpl. apply elem_of_union. left. apply elem_of_singleton.
      reflexivity. }
  split; [exact Hadd|]. split; [reflexivity|].
  split; [unfold staged; simpl; rewrite dom_foldl_insert, Hpaths; reflexivity|].
  split; [exact Hpaths|]. split; [exact Hnodup|].
  split; [intros p Hp Hin; apply (Hnew p Hp), elem_of_union; auto|].
  split; [|intros Hdir; apply Hfresh, elem_of_union; auto].
  (* unstaging *)
  set (w1 := set_extruderCount _ _).
  rewrite (removeDefinitions_staged w1 {| FS := staged; heap := heap e |} n
             eq_refl eq_refl).
  unfold bind at 1.
  rewrite (unlink_each (removed_paths n) w1
             {| FS := staged; heap := heap e |} eq_refl Hnodup).
  2:{ apply Forall_forall. intros p Hp.
      split; [apply Hinside, Hp|]. simpl.
      apply (lookup_foldl_insert items). left. rewrite Hpaths. exact Hp. }
  assert (Hfiles : foldl (λ m p, delete p m) (files staged) (removed_paths n)
                   = files (FS e)).
  { apply map_eq. intros p. rewrite lookup_foldl_delete.
    destruct (decide (p ∈ removed_paths n)) as [Hp|Hp].
    - symmetry. apply not_elem_of_dom. intros Hin.
      apply (Hnew p Hp), elem_of_union. auto.
    - simpl. apply (lookup_foldl_insert items). rewrite Hpaths. exact Hp. }
  cbn [FS heap]. rewrite Hfiles.
  assert (Hrmdir : FS_rmdir "/definitions" (mkfs (files (FS e)) (dirs staged))
                   = Ret (FS e)).
  { unfold FS_rmdir. change (resolve "/definitions") with "/definitions".
    cbn [files dirs staged f1].
    rewrite bool_decide_eq_false_2
      by (intros Hin; apply Hfresh, elem_of_union; auto).
    rewrite bool_decide_eq_true_2
      by (apply elem_of_union; left; apply elem_of_singleton; reflexivity).
    cbn [negb]. unfold has_children.
    rewrite bool_decide_eq_false_2.
    - f_equal. destruct (FS e) as [m d]. cbn [files dirs] in *. f_equal.
      apply set_eq. intros p.
      rewrite elem_of_difference, elem_of_union, !elem_of_singleton.
      split; [intros [[->|Hd] Hne]; [contradiction|exact Hd]|].
      intros Hd. split; [auto|]. intros ->.
      apply Hfresh, elem_of_union. auto.
    - intros (p & Hp & Hparent). cbn [files dirs] in Hp.
      apply elem_of_union in Hp as [Hp|Hp].
      + apply (nothing_inside (FS e) p Hwf Hfresh Hparent).
        apply elem_of_union. auto.
      + apply elem_of_union in Hp as [Hp|Hp].
        * apply elem_of_singleton in Hp. rewrite Hp in Hparent.
          discriminate.
        * apply (nothing_inside (FS e) p Hwf Hfresh Hparent).
          apply elem_of_union. auto. }
  unfold engine_FS. cbn [engine set_engine FS heap]. rewrite Hrmdir. f_equal.
  destruct e as [f h], w. simpl in *. subst. reflexivity.
Qed.

(** ** What removal keeps *)

Lemma handle_frame_refl w : handle_frame w w.
Proof. split; reflexivity. Qed.

Lemma handle_frame_trans w1 w2 w3 :
  handle_frame w1 w2 → handle_frame w2 w3 → handle_frame w1 w3.
Proof. unfold handle_frame. intros [? ?] [? ?]. split; congruence. Qed.

Lemma engine_FS_handle op : keeps (Heap := Heap) handle_frame (engine_FS op).
Proof.
  intros w. unfold engine_FS. destruct (engine w) as [e|] eqn:He; simpl.
  - destruct (op (FS e)); simpl; split; try reflexivity.
    + rewrite He. reflexivity.
  - split; reflexivity.
Qed.

Lemma removeDefinitions_handle :
  keeps (Heap := Heap) handle_frame removeDefinitions.
Proof.
  intros w. unfold removeDefinitions, bind at 1, gets.
  unfold bind at 1.
  destruct (engine w) as [e|]; [|apply handle_frame_refl].
  destruct (extruderCount w) as [n|]; [|apply handle_frame_refl].
  revert w.
  repeat (apply keeps_bind; [apply handle_frame_trans| |intros _]);
    try apply keeps_for_each;
    first [ exact handle_frame_refl | exact handle_frame_trans
          | intros; apply engine_FS_handle ].
Qed.

Lemma errno_only_bind {A B} (m : JS Heap A) (k : A → JS Heap B) :
  errno_only m → (∀ a, errno_only (k a)) → errno_only (bind m k).
Proof.
  intros Hm Hk w Hengine. unfold bind. destruct (Hm w Hengine) as [He Hout].
  destruct (m w) as [[a|err] w1]; simpl in *; [apply Hk, He|].
  split; [exact He|]. intros msg [= ->]. exact (Hout msg eq_refl).
Qed.

Lemma errno_only_for_each {A} (l : list A) (body : A → JS Heap unit) :
  (∀ x, errno_only (body x)) → errno_only (for_each l body).
Proof.
  intros Hbody. induction l as [|x l IH]; simpl.
  - intros w Hengine. split; [exact Hengine|]. discriminate.
  - apply errno_only_bind; auto.
Qed.

Lemma errno_only_engine_FS (op : fs → Outcome fs) :
  (∀ f err, op f = Throw err → ∃ code, err = ErrnoError code) →
  errno_only (Heap := Heap) (engine_FS op).
Proof.
  intros Hop w [e He]. unfold engine_FS. rewrite He.
  destruct (op (FS e)) as [f'|err] eqn:Hout; simpl.
  - split; [eauto|discriminate].
  - rewrite He. split; [eauto|]. destruct (Hop _ _ Hout) as [code ->].
    discriminate.
Qed.

Lemma FS_unlink_errno p f err :
  FS_unlink p f = Throw err → ∃ code, err = ErrnoError code.
Proof.
  unfold FS_unlink. destruct (files f !! resolve p); [discriminate|].
  destruct (bool_decide _); intros [= <-]; eauto.
Qed.

Lemma FS_rmdir_errno p f err :
  FS_rmdir p f = Throw err → ∃ code, err = ErrnoError code.
Proof.
  unfold FS_rmdir. repeat (destruct (_ : bool)); try discriminate;
    intros [= <-]; eauto.
Qed.

Lemma FS_mkdir_errno p f err :
  FS_mkdir p f = Throw err → ∃ code, err = ErrnoError code.
Proof.
  unfold FS_mkdir. repeat (destruct (_ : bool)); try discriminate;
    intros [= <-]; eauto.
Qed.

Lemma FS_writeFile_errno p data f err :
  FS_writeFile p data f = Throw err → ∃ code, err = ErrnoError code.
Proof.
  unfold FS_writeFile. repeat (destruct (_ : bool)); try discriminate;
    intros [= <-]; eauto.
Qed.

(** With an engine and a recorded count, [removeDefinitions] does not
    throw a JavaScript [Error]. *)
Lemma removeDefinitions_errno w :
  is_Some (engine w) → is_Some (extruderCount w) →
  ∀ msg, (removeDefinitions w).1 ≠ Throw (JsError msg).
Proof.
  intros [e He] [n Hn]. rewrite (removeDefinitions_staged w e n He Hn).
  apply errno_only_bind; [| |eauto].
  - apply errno_only_for_each. intros p.
    apply errno_only_engine_FS, FS_unlink_errno.
  - intros _. apply errno_only_engine_FS, FS_rmdir_errno.
Qed.

(** A staging that returns has an engine and records the count. *)
Lemma addDefinitions_returns (definition : CombinedDefinition json) w :
  (addDefinitions definition w).1 = Ret tt →
  is_Some (engine (addDefinitions definition w).2) ∧
  extruderCount (addDefinitions definition w).2 =
    Some (length (extruders definition)).
Proof.
  destruct (engine w) as [e|] eqn:He.
  - rewrite (addDefinitions_staged definition w e He). unfold bind.
    pose proof (errno_only_engine_FS (FS_mkdir "/definitions")
                  (FS_mkdir_errno "/definitions") w (mk_is_Some _ _ He))
      as [Hengine1 _].
    destruct (engine_FS (FS_mkdir "/definitions") w) as [[[]|err] w1];
      [|discriminate].
    pose proof (errno_only_for_each (staged_files definition)
                  (λ it, engine_FS (FS_writeFile it.1 it.2))
                  (λ it, errno_only_engine_FS _
                           (FS_writeFile_errno it.1 it.2)) w1 Hengine1)
      as [Hengine2 _].
    destruct (for_each _ _ w1) as [[[]|err] w2]; [|discriminate].
    intros _. split; [exact Hengine2|reflexivity].
  - unfold addDefinitions, bind, gets. rewrite He. discriminate.
Qed.

(** C9: [removeDefinitions] never changes the recorded extruder count
    nor the engine handle (of the engine, only the filesystem changes).
    So after a staging and an unstaging that both returned, the count is
    still the one recorded by the staging and the engine is still there,
    and a second [removeDefinitions] passes the initialisation guard: it
    does not throw the not-initialised error, nor any other JavaScript
    [Error]. *)
Theorem extruder_count_survives_removal w
    (definition : CombinedDefinition json) :
  (addDefinitions definition w).1 = Ret tt →
  (removeDefinitions (addDefinitions definition w).2).1 = Ret tt →
  extruderCount (removeDefinitions (addDefinitions definition w).2).2 =
    Some (length (extruders definition)) ∧
  is_Some (engine (removeDefinitions (addDefinitions definition w).2).2) ∧
  (removeDefinitions (removeDefinitions (addDefinitions definition w).2).2).1
    ≠ Throw (JsError "Attempting to remove definitions before initialization!") ∧
  (∀ msg,
     (removeDefinitions
        (removeDefinitions (addDefinitions definition w).2).2).1
     ≠ Throw (JsError msg)) ∧
  (∀ w0, extruderCount (removeDefinitions w0).2 = extruderCount w0 ∧
         heap <$> engine (removeDefinitions w0).2 = heap <$> engine w0).
Proof.
  intros Hadd _. destruct (addDefinitions_returns definition w Hadd)
    as [Hengine Hcount].
  destruct (removeDefinitions_handle (addDefinitions definition w).2)
    as [Hcount' Hheap].
  assert (Hengine' :
    is_Some (engine (removeDefinitions (addDefinitions definition w).2).2)).
  { apply (fmap_is_Some heap). rewrite Hheap. apply fmap_is_Some, Hengine. }
  assert (Hcount'' :
    extruderCount (removeDefinitions (addDefinitions definition w).2).2 =
    Some (length (extruders definition))) by congruence.
  split; [exact Hcount''|]. split; [exact Hengine'|].
  split; [|split].
  - apply removeDefinitions_errno; [exact Hengine'|].
    rewrite Hcount''. eauto.
  - apply removeDefinitions_errno; [exact Hengine'|].
    rewrite Hcount''. eauto.
  - intros w0. apply removeDefinitions_handle.
Qed.

(** * Further properties of the worker *)

(** ** The metadata stream *)

(** Any callback of the engine, as far as metadata goes: a metadata call
    adds its record when the handler is registered and there is a
    subscriber; a progress call adds nothing. *)
Lemma deliver_metadata_side ev w :
  cura_wasm_metadata_callback w = Some metadataHandler →
  ∃ w', deliver ev w = (Ret tt, w') ∧
    callbacks_frame w w' ∧
    metadataStream w' =
      metadataStream w ++
      (if can_emit (metadataObserver w) then raw_metadata [ev] else []).
Proof.
  intros Hslot. destruct ev as [raw|fl pt m1 m2 nz fu x0 y0 z0 x1 y1 z1].
  - unfold deliver, bind, gets.
    destruct (cura_wasm_progress_callback w) as [cb|].
    + unfold progress_handler. destruct (negb (_ =? _)).
      * unfold bind, emit_progress, ret, modify.
        destruct (can_emit (progressObserver w));
          (eexists; split; [reflexivity|]); simpl;
          destruct (can_emit (metadataObserver w));
          rewrite app_nil_r; repeat split.
      * unfold ret, modify. eexists; split; [reflexivity|]. simpl.
        destruct (can_emit (metadataObserver w));
          rewrite app_nil_r; repeat split.
    + unfold ret. eexists; split; [reflexivity|].
      destruct (can_emit (metadataObserver w));
        rewrite app_nil_r; repeat split.
  - unfold deliver, bind, gets. rewrite Hslot. unfold emit_metadata.
    destruct (can_emit (metadataObserver w));
      (eexists; split; [reflexivity|]); simpl;
      rewrite ?app_nil_r; repeat split.
Qed.

(** Any callback of the engine returns and keeps the frame. *)
Lemma deliver_metadata_side_any ev w :
  ∃ w', deliver ev w = (Ret tt, w') ∧ callbacks_frame w w'.
Proof.
  destruct ev as [raw|fl pt m1 m2 nz fu x0 y0 z0 x1 y1 z1];
    unfold deliver, bind, gets.
  - destruct (cura_wasm_progress_callback w) as [cb|].
    + unfold progress_handler. destruct (negb (_ =? _)).
      * unfold bind, emit_progress, ret, modify.
        destruct (can_emit (progressObserver w));
          (eexists; split; [reflexivity|]); repeat split.
      * unfold ret, modify. eexists; split; [reflexivity|]. repeat split.
    + unfold ret. eexists; split; [reflexivity|]. repeat split.
  - destruct (cura_wasm_metadata_callback w) as [[]|].
    + unfold emit_metadata. destruct (can_emit (metadataObserver w));
        (eexists; split; [reflexivity|]); repeat split.
    + unfold ret. eexists; split; [reflexivity|]. repeat split.
Qed.

Lemma raw_metadata_cons ev evs :
  raw_metadata (ev :: evs) = raw_metadata [ev] ++ raw_metadata evs.
Proof. destruct ev; reflexivity. Qed.

Lemma deliver_each_metadata evs : ∀ w,
  cura_wasm_metadata_callback w = Some metadataHandler →
  ∃ w', for_each evs deliver w = (Ret tt, w') ∧
    callbacks_frame w w' ∧
    metadataStream w' =
      metadataStream w ++
      (if can_emit (metadataObserver w) then raw_metadata evs else []).
Proof.
  induction evs as [|ev evs IH]; intros w Hslot.
  - exists w. simpl. split; [reflexivity|].
    split; [repeat split|].
    destruct (can_emit (metadataObserver w)); rewrite app_nil_r; reflexivity.
  - destruct (deliver_metadata_side ev w Hslot)
      as (w1 & Hstep & Hframe1 & Hstream1).
    assert (Hslot1 : cura_wasm_metadata_callback w1 = Some metadataHandler).
    { destruct Hframe1 as (_ & _ & _ & _ & -> & _). exact Hslot. }
    destruct (IH w1 Hslot1) as (w2 & Hrest & Hframe2 & Hstream2).
    exists w2. simpl for_each. rewrite (bind_ret _ _ _ _ _ Hstep).
    split; [exact Hrest|]. split; [eapply callbacks_frame_trans; eauto|].
    assert (Hobs : metadataObserver w1 = metadataObserver w)
      by apply Hframe1.
    rewrite Hstream2, Hstream1, Hobs, (raw_metadata_cons ev evs).
    destruct (can_emit (metadataObserver w));
      rewrite <- ?app_assoc, ?app_nil_r; reflexivity.
Qed.

(** ** The run, step by step *)

Lemma after_conversion_rest file extension w :
  metadataObserver (after_conversion file extension w) = metadataObserver w ∧
  metadataStream (after_conversion file extension w) = metadataStream w ∧
  console (after_conversion file extension w) = console w.
Proof.
  unfold after_conversion.
  destruct (can_emit (progressObserver w)); simpl; auto.
Qed.

Lemma engine_callMain_steps args w e :
  engine w = Some e →
  cura_wasm_metadata_callback w = Some metadataHandler →
  ∃ w',
    engine_callMain args w =
    (match fault (callMain args e) with
     | Some err => Throw err
     | None => Ret tt
     end, w') ∧
    engine w' = Some (after (callMain args e)) ∧
    extruderCount w' = extruderCount w ∧
    metadataObserver w' = metadataObserver w ∧
    console w' = console w ∧
    mainCalls w' = mainCalls w ++ [args] ∧
    metadataStream w' =
      metadataStream w ++
      (if can_emit (metadataObserver w)
       then raw_metadata (notifications (callMain args e))
       else []).
Proof.
  intros Hengine Hslot.
  destruct (deliver_each_metadata (notifications (callMain args e))
              (push_mainCall args w) Hslot)
    as (w1 & Hrun & (_ & Hcount & _ & Hobs & _ & Hcalls & Hconsole) & Hstream).
  simpl in Hcount, Hobs, Hcalls, Hconsole, Hstream.
  unfold engine_callMain, bind at 1, gets. rewrite Hengine.
  unfold bind at 1, modify at 1. unfold bind at 1. rewrite Hrun.
  unfold bind, modify, throw, ret.
  destruct (fault (callMain args e)); (eexists; split; [reflexivity|]);
    simpl; auto 10.
Qed.

(** [slice] up to the return of [callMain]: either the engine's fault is
    thrown from the state reached there, or [finish] runs from it. *)
Lemma slice_steps command overrides verbose extension stl w e f1 :
  engine w = Some e →
  FS_writeFile "Model.stl" stl (FS e) = Ret f1 →
  ∃ w4,
    slice command overrides verbose extension stl w =
    match fault (callMain (arguments command overrides verbose)
                   {| FS := f1; heap := heap e |}) with
    | Some err => (Throw err, w4)
    | None => finish w4
    end ∧
    engine w4 =
      Some (after (callMain (arguments command overrides verbose)
                     {| FS := f1; heap := heap e |})) ∧
    extruderCount w4 = extruderCount w ∧
    metadataObserver w4 = metadataObserver w ∧
    console w4 =
      console w ++
      (if truthy verbose
       then ["Calling Cura Engine with " +:+
             join " " (arguments command overrides verbose)]
       else []) ∧
    mainCalls w4 = mainCalls w ++ [arguments command overrides verbose] ∧
    metadataStream w4 =
      metadataStream w ++
      (if can_emit (metadataObserver w)
       then raw_metadata
              (notifications
                 (callMain (arguments command overrides verbose)
                    {| FS := f1; heap := heap e |}))
       else []).
Proof.
  intros Hengine Hwrite. unfold slice.
  unfold bind at 1, engine_FS at 1. rewrite Hengine, Hwrite.
  unfold bind at 1, modify at 1. unfold bind at 1, modify at 1.
  set (args := arguments command overrides verbose).
  set (e1 := {| FS := f1; heap := heap e |}).
  set (w2 := set_metadata_callback _ _).
  assert (Hlog : ∃ w3,
    (if truthy verbose
     then modify (push_console ("Calling Cura Engine with " +:+ join " " args))
     else ret tt) w2 = (Ret tt, w3) ∧
    engine w3 = Some e1 ∧
    cura_wasm_metadata_callback w3 = Some metadataHandler ∧
    extruderCount w3 = extruderCount w ∧
    metadataObserver w3 = metadataObserver w ∧
    mainCalls w3 = mainCalls w ∧ metadataStream w3 = metadataStream w ∧
    console w3 =
      console w ++
      (if truthy verbose
       then ["Calling Cura Engine with " +:+ join " " args] else [])).
  { destruct (truthy verbose); eexists; (split; [reflexivity|]);
      simpl; rewrite ?app_nil_r; repeat split. }
  destruct Hlog as (w3 & Hlog & Heng3 & Hmeta3 & Hcount3 & Hobs3 & Hcalls3
                    & Hstream3 & Hconsole3).
  unfold bind at 1. rewrite Hlog.
  destruct (engine_callMain_steps args w3 e1 Heng3 Hmeta3)
    as (w4 & Hmain & Heng4 & Hcount4 & Hobs4 & Hconsole4 & Hcalls4
        & Hstream4).
  unfold bind at 1. rewrite Hmain. exists w4.
  rewrite Heng4, Hcount4, Hcount3, Hobs4, Hobs3, Hconsole4, Hconsole3,
    Hcalls4, Hcalls3, Hstream4, Hstream3, Hobs3.
  split; [|auto 10].
  destruct (fault (callMain args e1)); reflexivity.
Qed.

(** [finish] changes nothing but the progress slot and the engine. *)
Lemma finish_keeps w :
  cura_wasm_progress_callback (finish w).2 = None ∧
  extruderCount (finish w).2 = extruderCount w ∧
  metadataStream (finish w).2 = metadataStream w ∧
  progressStream (finish w).2 = progressStream w ∧
  mainCalls (finish w).2 = mainCalls w ∧
  console (finish w).2 = console w.
Proof.
  unfold finish, bind at 1, modify.
  match goal with |- context [?m (set_progress_callback None w)] =>
    assert (Hkeep : keeps filesystem_frame m) end.
  { repeat (apply keeps_bind; [apply filesystem_frame_trans| |intros ?]);
      auto using engine_FS_frame, engine_FS_read_frame, ret_frame. }
  specialize (Hkeep (set_progress_callback None w)).
  destruct Hkeep as (Hcount & _ & _ & Hslot & _ & Hstream & Hmeta & Hcalls
                     & Hconsole).
  auto 10.
Qed.

Lemma engine_FS_done (op : fs → Outcome fs) w e f' :
  engine w = Some e → op (FS e) = Ret f' →
  engine_FS op w =
  (Ret tt, set_engine (Some {| FS := f'; heap := heap e |}) w).
Proof. intros He Hop. unfold engine_FS. rewrite He, Hop. reflexivity. Qed.

Lemma engine_FS_failed (op : fs → Outcome fs) w e err :
  engine w = Some e → op (FS e) = Throw err →
  engine_FS op w = (Throw err, w).
Proof. intros He Hop. unfold engine_FS. rewrite He, Hop. reflexivity. Qed.

Lemma engine_FS_read_at {A} (op : fs → Outcome A) w e :
  engine w = Some e → engine_FS_read op w = (op (FS e), w).
Proof. intros He. unfold engine_FS_read. rewrite He. reflexivity. Qed.

Lemma FS_readFile_model (f : fs) (g : bytes) :
  files f !! "/Model.gcode" = Some g → FS_readFile "Model.gcode" f = Ret g.
Proof.
  intros Hg. unfold FS_readFile.
  change (resolve "Model.gcode") with "/Model.gcode". rewrite Hg. reflexivity.
Qed.

(** [finish] when both files are there: the output is returned and
    both files are removed. *)
Lemma finish_returns w e (g s : bytes) :
  engine w = Some e →
  files (FS e) !! "/Model.gcode" = Some g →
  files (FS e) !! "/Model.stl" = Some s →
  finish w =
  (Ret (inl g),
   set_engine
     (Some {| FS := mkfs (delete "/Model.gcode"
                            (delete "/Model.stl" (files (FS e))))
                      (dirs (FS e));
              heap := heap e |})
     (set_progress_callback None w)).
Proof.
  intros Hengine Hgcode Hstl. unfold finish.
  rewrite (bind_ret _ _ w tt (set_progress_callback None w) eq_refl).
  set (w1 := set_progress_callback None w).
  assert (Hengine1 : engine w1 = Some e) by exact Hengine.
  rewrite (bind_ret _ _ w1 g w1).
  2:{ rewrite (engine_FS_read_at _ w1 e Hengine1).
      rewrite (FS_readFile_model _ g Hgcode). reflexivity. }
  set (f2 := mkfs (delete "/Model.stl" (files (FS e))) (dirs (FS e))).
  rewrite (bind_ret _ _ w1 tt
             (set_engine (Some {| FS := f2; heap := heap e |}) w1)).
  2:{ apply (engine_FS_done _ w1 e f2 Hengine1).
      unfold FS_unlink. change (resolve "Model.stl") with "/Model.stl".
      rewrite Hstl. reflexivity. }
  set (w2 := set_engine _ w1).
  set (f3 := mkfs (delete "/Model.gcode" (files f2)) (dirs f2)).
  rewrite (bind_ret _ _ w2 tt
             (set_engine (Some {| FS := f3; heap := heap e |}) w2)).
  2:{ apply (engine_FS_done _ w2 {| FS := f2; heap := heap e |} f3 eq_refl).
      unfold FS_unlink. change (resolve "Model.gcode") with "/Model.gcode".
      cbn [FS files f2]. rewrite lookup_delete_ne by discriminate.
      rewrite Hgcode. reflexivity. }
  reflexivity.
Qed.

(** [finish] when the engine wrote no output: the read fails and
    nothing is removed. *)
Lemma finish_missing w e :
  engine w = Some e →
  files (FS e) !! "/Model.gcode" = None →
  "/Model.gcode" ∉ dirs (FS e) →
  finish w = (Throw (ErrnoError ENOENT), set_progress_callback None w).
Proof.
  intros Hengine Hgcode Hdir. unfold finish.
  rewrite (bind_ret _ _ w tt (set_progress_callback None w) eq_refl).
  set (w1 := set_progress_callback None w).
  assert (Hengine1 : engine w1 = Some e) by exact Hengine.
  unfold bind. rewrite (engine_FS_read_at _ w1 e Hengine1).
  unfold FS_readFile. change (resolve "Model.gcode") with "/Model.gcode".
  rewrite Hgcode, bool_decide_eq_false_2 by exact Hdir. reflexivity.
Qed.

Lemma bind_throw {A B} (m : JS Heap A) (k : A → JS Heap B) w err w' :
  m w = (Throw err, w') → bind m k w = (Throw err, w').
Proof. unfold bind. intros ->. reflexivity. Qed.

(** [run] up to the return of [callMain], for a run that gets there. *)
Lemma run_steps w e command overrides verbose file extension stl f1 :
  engine w = Some e →
  converted (convert file extension) = Ret (inl stl) →
  FS_writeFile "Model.stl" stl (FS e) = Ret f1 →
  ∃ w4,
    run command overrides verbose file extension w =
    match fault (callMain (arguments command overrides verbose)
                   {| FS := f1; heap := heap e |}) with
    | Some err => (Throw err, w4)
    | None => finish w4
    end ∧
    engine w4 =
      Some (after (callMain (arguments command overrides verbose)
                     {| FS := f1; heap := heap e |})) ∧
    extruderCount w4 = extruderCount w ∧
    console w4 =
      console w ++
      (if truthy verbose
       then ["Calling Cura Engine with " +:+
             join " " (arguments command overrides verbose)]
       else []) ∧
    mainCalls w4 = mainCalls w ++ [arguments command overrides verbose] ∧
    metadataStream w4 =
      metadataStream w ++
      (if can_emit (metadataObserver w)
       then raw_metadata
              (notifications
                 (callMain (arguments command overrides verbose)
                    {| FS := f1; heap := heap e |}))
       else []).
Proof.
  intros Hengine Hconv Hwrite. rewrite run_cases, Hengine, Hconv.
  destruct (after_conversion_frame file extension w)
    as (He & Hcount & _ & _ & _ & Hcalls).
  destruct (after_conversion_rest file extension w)
    as (Hobs & Hstream & Hconsole).
  rewrite Hengine in He.
  destruct (slice_steps command overrides verbose extension stl _ e f1
              He Hwrite)
    as (w4 & Hslice & Heng4 & Hcount4 & Hobs4 & Hconsole4 & Hcalls4
        & Hstream4).
  exists w4. rewrite Hslice, Heng4, Hcount4, Hcount, Hconsole4, Hconsole,
    Hcalls4, Hcalls, Hstream4, Hstream, Hobs. auto 10.
Qed.

(** X1: in a run that reaches [callMain], the metadata subscriber
    receives one record per metadata call of the engine, in order, built
    from the twelve positional arguments; with no subscriber nothing is
    delivered.  This holds whether [callMain] returns or throws and
    whatever happens to the output afterwards. *)
Theorem run_metadata_stream w e command overrides verbose file extension
    stl f1 :
  engine w = Some e →
  converted (convert file extension) = Ret (inl stl) →
  FS_writeFile "Model.stl" stl (FS e) = Ret f1 →
  metadataStream (run command overrides verbose file extension w).2 =
  metadataStream w ++
  (if can_emit (metadataObserver w)
   then raw_metadata
          (notifications
             (callMain (arguments command overrides verbose)
                {| FS := f1; heap := heap e |}))
   else []).
Proof.
  intros Hengine Hconv Hwrite.
  destruct (run_steps w e command overrides verbose file extension stl f1
              Hengine Hconv Hwrite)
    as (w4 & -> & _ & _ & _ & _ & Hstream).
  destruct (fault _); [exact Hstream|].
  destruct (finish_keeps w4) as (_ & _ & -> & _). exact Hstream.
Qed.

(** X2: when [callMain] returns and the engine's filesystem then holds
    both [Model.gcode] and [Model.stl], [run] returns the bytes of
    [Model.gcode], and the engine is left with both files removed and
    everything else of its filesystem as [callMain] left it. *)
Theorem run_returns_output w e command overrides verbose file extension
    stl f1 r (g s : bytes) :
  engine w = Some e →
  converted (convert file extension) = Ret (inl stl) →
  FS_writeFile "Model.stl" stl (FS e) = Ret f1 →
  callMain (arguments command overrides verbose)
    {| FS := f1; heap := heap e |} = r →
  fault r = None →
  files (FS (after r)) !! "/Model.gcode" = Some g →
  files (FS (after r)) !! "/Model.stl" = Some s →
  (run command overrides verbose file extension w).1 = Ret (inl g) ∧
  engine (run command overrides verbose file extension w).2 =
    Some {| FS := mkfs (delete "/Model.gcode"
                          (delete "/Model.stl" (files (FS (after r)))))
                    (dirs (FS (after r)));
            heap := heap (after r) |} ∧
  cura_wasm_progress_callback
    (run command overrides verbose file extension w).2 = None.
Proof.
  intros Hengine Hconv Hwrite Hr Hfault Hgcode Hstl.
  destruct (run_steps w e command overrides verbose file extension stl f1
              Hengine Hconv Hwrite)
    as (w4 & -> & Heng4 & _).
  rewrite Hr in *. rewrite Hfault.
  rewrite (finish_returns w4 (after r) g s Heng4 Hgcode Hstl).
  repeat split.
Qed.

(** X3: when [callMain] returns without having written [Model.gcode],
    [run] throws the filesystem's [ENOENT] from the read; nothing is
    unlinked, so the engine's filesystem stays as [callMain] left it
    ([Model.stl] included), and the progress callback is already
    deleted. *)
Theorem run_without_output w e command overrides verbose file extension
    stl f1 r :
  engine w = Some e →
  converted (convert file extension) = Ret (inl stl) →
  FS_writeFile "Model.stl" stl (FS e) = Ret f1 →
  callMain (arguments command overrides verbose)
    {| FS := f1; heap := heap e |} = r →
  fault r = None →
  files (FS (after r)) !! "/Model.gcode" = None →
  "/Model.gcode" ∉ dirs (FS (after r)) →
  (run command overrides verbose file extension w).1 =
    Throw (ErrnoError ENOENT) ∧
  engine (run command overrides verbose file extension w).2 =
    Some (after r) ∧
  cura_wasm_progress_callback
    (run command overrides verbose file extension w).2 = None.
Proof.
  intros Hengine Hconv Hwrite Hr Hfault Hgcode Hdir.
  destruct (run_steps w e command overrides verbose file extension stl f1
              Hengine Hconv Hwrite)
    as (w4 & -> & Heng4 & _).
  rewrite Hr in *. rewrite Hfault.
  rewrite (finish_missing w4 (after r) Heng4 Hgcode Hdir).
  repeat split. exact Heng4.
Qed.

(** X4: when [callMain] throws, [run] throws the same exception without
    reading or removing anything: the engine is exactly as [callMain]
    left it, the call is on record, and the recorded extruder count is
    untouched. *)
Theorem run_engine_fault w e command overrides verbose file extension
    stl f1 r err :
  engine w = Some e →
  converted (convert file extension) = Ret (inl stl) →
  FS_writeFile "Model.stl" stl (FS e) = Ret f1 →
  callMain (arguments command overrides verbose)
    {| FS := f1; heap := heap e |} = r →
  fault r = Some err →
  (run command overrides verbose file extension w).1 = Throw err ∧
  engine (run command overrides verbose file extension w).2 =
    Some (after r) ∧
  mainCalls (run command overrides verbose file extension w).2 =
    mainCalls w ++ [arguments command overrides verbose] ∧
  extruderCount (run command overrides verbose file extension w).2 =
    extruderCount w.
Proof.
  intros Hengine Hconv Hwrite Hr Hfault.
  destruct (run_steps w e command overrides verbose file extension stl f1
              Hengine Hconv Hwrite)
    as (w4 & -> & Heng4 & Hcount4 & _ & Hcalls4 & _).
  rewrite Hr in *. rewrite Hfault. auto.
Qed.

(** X5: in a run that reaches [callMain], a truthy [verbose] adds one
    console line, the arguments joined with spaces, and a falsy one adds
    none; for a raw command the line shows the command itself,
    character for character. *)
Theorem run_console_line w e command overrides verbose file extension
    stl f1 :
  engine w = Some e →
  converted (convert file extension) = Ret (inl stl) →
  FS_writeFile "Model.stl" stl (FS e) = Ret f1 →
  console (run command overrides verbose file extension w).2 =
    console w ++
    (if truthy verbose
     then ["Calling Cura Engine with " +:+
           join " " (arguments command overrides verbose)]
     else []) ∧
  (∀ c, console (run (Some c) overrides verbose file extension w).2 =
        console w ++
        (if truthy verbose then ["Calling Cura Engine with " +:+ c]
         else [])).
Proof.
  intros Hengine Hconv Hwrite.
  assert (Hline : ∀ command',
    console (run command' overrides verbose file extension w).2 =
    console w ++
    (if truthy verbose
     then ["Calling Cura Engine with " +:+
           join " " (arguments command' overrides verbose)]
     else [])).
  { intros command'.
    destruct (run_steps w e command' overrides verbose file extension stl f1
                Hengine Hconv Hwrite)
      as (w4 & -> & _ & _ & Hconsole & _).
    destruct (fault _); [exact Hconsole|].
    destruct (finish_keeps w4) as (_ & _ & _ & _ & _ & ->). exact Hconsole. }
  split; [apply Hline|]. intros c. rewrite Hline.
  unfold arguments. rewrite (join_split " "%char c). reflexivity.
Qed.

(** X6: when the converter rejects (throws instead of returning), [run]
    throws the same exception; [callMain] is not called, the engine with
    its filesystem is as before and [run] registers no callback: both
    callback slots hold what they held before the call. *)
Theorem conversion_rejection_propagates w e command overrides verbose file
    extension err :
  engine w = Some e →
  converted (convert file extension) = Throw err →
  (run command overrides verbose file extension w).1 = Throw err ∧
  mainCalls (run command overrides verbose file extension w).2 = mainCalls w ∧
  engine (run command overrides verbose file extension w).2 = Some e ∧
  cura_wasm_progress_callback
    (run command overrides verbose file extension w).2 =
  cura_wasm_progress_callback w ∧
  cura_wasm_metadata_callback
    (run command overrides verbose file extension w).2 =
  cura_wasm_metadata_callback w.
Proof.
  intros Hengine Herr. rewrite run_cases, Hengine, Herr. simpl.
  destruct (after_conversion_frame file extension w)
    as (He & _ & _ & Hp & Hm & Hc).
  rewrite He, Hp, Hm, Hc. auto.
Qed.

(** X7: the callbacks are registered only once [Model.stl] is written:
    when that write fails, [run] throws the filesystem's error, registers
    no callback and does not call [callMain]. *)
Theorem model_write_failure w e command overrides verbose file extension
    stl err :
  engine w = Some e →
  converted (convert file extension) = Ret (inl stl) →
  FS_writeFile "Model.stl" stl (FS e) = Throw err →
  (run command overrides verbose file extension w).1 = Throw err ∧
  mainCalls (run command overrides verbose file extension w).2 = mainCalls w ∧
  engine (run command overrides verbose file extension w).2 = Some e ∧
  cura_wasm_progress_callback
    (run command overrides verbose file extension w).2 =
  cura_wasm_progress_callback w ∧
  cura_wasm_metadata_callback
    (run command overrides verbose file extension w).2 =
  cura_wasm_metadata_callback w.
Proof.
  intros Hengine Hconv Hwrite. rewrite run_cases, Hengine, Hconv.
  destruct (after_conversion_frame file extension w)
    as (He & _ & _ & Hp & Hm & Hc).
  rewrite Hengine in He. unfold slice.
  rewrite (bind_throw _ _ _ err _
             (engine_FS_failed _ _ e err He Hwrite)).
  simpl. rewrite He, Hp, Hm, Hc. auto.
Qed.

(** ** Subscribers *)

(** X8: delivery is best effort.  With no progress subscriber (or one
    without [next]) a run sends nothing to the progress stream, and with
    no metadata subscriber nothing to the metadata stream, on every path
    through [run]. *)
Theorem silent_without_subscriber w command overrides verbose file
    extension :
  (can_emit (progressObserver w) = false →
   progressStream (run command overrides verbose file extension w).2 =
   progressStream w) ∧
  (can_emit (metadataObserver w) = false →
   metadataStream (run command overrides verbose file extension w).2 =
   metadataStream w).
Proof.
  destruct (after_conversion_frame file extension w)
    as (He & _ & Hpobs & _ & _ & _).
  destruct (after_conversion_rest file extension w)
    as (Hmobs & Hmstream & _).
  assert (Hpstream : can_emit (progressObserver w) = false →
            progressStream (after_conversion file extension w) =
            progressStream w).
  { intros Hoff. unfold after_conversion. rewrite Hoff. reflexivity. }
  rewrite run_cases.
  destruct (engine w) as [e|] eqn:Hengine; [|split; reflexivity].
  destruct (converted (convert file extension)) as [[stl|err]|err];
    [|split; intros; simpl; auto..].
  destruct (FS_writeFile "Model.stl" stl (FS e)) as [f1|err] eqn:Hwrite.
  - split; intros Hoff.
    + destruct (slice_run command overrides verbose extension stl _ e f1
                  He Hwrite) as (out & w' & -> & _ & Hstream & _).
      simpl. rewrite Hstream, Hpobs, Hoff, app_nil_r. auto.
    + destruct (slice_steps command overrides verbose extension stl _ e f1
                  He Hwrite) as (w4 & -> & _ & _ & _ & _ & _ & Hstream).
      rewrite Hmobs, Hoff, app_nil_r, Hmstream in Hstream.
      destruct (fault _); [exact Hstream|].
      destruct (finish_keeps w4) as (_ & _ & -> & _). exact Hstream.
  - unfold slice.
    rewrite (bind_throw _ _ _ err _ (engine_FS_failed _ _ e err He Hwrite)).
    split; intros; simpl; auto.
Qed.

(** ** What a run depends on *)

Lemma respects_bind {A B} (m : JS Heap A) (k : A → JS Heap B) :
  respects m → (∀ a, respects (k a)) → respects (bind m k).
Proof.
  intros Hm Hk w w' Hsame. unfold bind.
  destruct (Hm w w' Hsame) as [Hout Heng].
  destruct (m w) as [[a|err] w1], (m w') as [[a'|err'] w1'];
    simpl in *; try discriminate.
  - injection Hout as <-. apply Hk, Heng.
  - injection Hout as <-. auto.
Qed.

Lemma respects_for_each {A} (l : list A) (body : A → JS Heap unit) :
  (∀ x, respects (body x)) → respects (for_each l body).
Proof.
  intros Hbody. induction l as [|x l IH]; simpl.
  - intros w w' Hsame. auto.
  - apply respects_bind; auto.
Qed.

Lemma respects_always {A} (m : JS Heap A) (a : Outcome A) :
  (∀ w, (m w).1 = a ∧ engine (m w).2 = engine w) → respects m.
Proof.
  intros Hm w w' Hsame. destruct (Hm w) as [-> ->], (Hm w') as [-> ->]. auto.
Qed.

Lemma respects_engine_FS (op : fs → Outcome fs) :
  respects (Heap := Heap) (engine_FS op).
Proof.
  intros w w' Hsame. unfold engine_FS. rewrite <- Hsame.
  destruct (engine w) as [e|] eqn:He.
  - destruct (op (FS e)); simpl; [auto|]. split; congruence.
  - simpl. split; congruence.
Qed.

Lemma respects_engine_FS_read {A} (op : fs → Outcome A) :
  respects (Heap := Heap) (engine_FS_read op).
Proof.
  intros w w' Hsame. unfold engine_FS_read. rewrite <- Hsame.
  destruct (engine w) eqn:He; simpl; split; congruence.
Qed.

Lemma deliver_engine ev w :
  (deliver ev w).1 = Ret tt ∧ engine (deliver ev w).2 = engine w.
Proof.
  destruct ev as [raw|fl pt m1 m2 nz fu x0 y0 z0 x1 y1 z1];
    unfold deliver, bind, gets.
  - destruct (cura_wasm_progress_callback w) as [cb|]; [|auto].
    unfold progress_handler. destruct (negb (_ =? _)); [|auto].
    unfold bind, emit_progress. destruct (can_emit _); auto.
  - destruct (cura_wasm_metadata_callback w) as [[]|]; [|auto].
    unfold emit_metadata. destruct (can_emit _); auto.
Qed.

Lemma respects_engine_callMain args : respects (engine_callMain args).
Proof.
  unfold engine_callMain. apply respects_bind.
  - intros w w' Hsame. unfold gets. simpl. rewrite Hsame. auto.
  - intros [e|]; [|intros w w' Hsame; auto].
    apply respects_bind; [apply (respects_always _ (Ret tt)); auto|].
    intros _. apply respects_bind.
    { apply respects_for_each. intros ev.
      apply (respects_always _ (Ret tt)), deliver_engine. }
    intros _. apply respects_bind.
    { intros w w' _. auto. }
    intros _. destruct (fault _); intros w w' Hsame; auto.
Qed.

Lemma respects_slice command overrides verbose extension stl :
  respects (slice command overrides verbose extension stl).
Proof.
  unfold slice.
  apply respects_bind; [apply respects_engine_FS|intros _].
  apply respects_bind; [apply (respects_always _ (Ret tt)); auto|intros _].
  apply respects_bind; [apply (respects_always _ (Ret tt)); auto|intros _].
  apply respects_bind.
  { destruct (truthy verbose); apply (respects_always _ (Ret tt)); auto. }
  intros _.
  apply respects_bind; [apply respects_engine_callMain|intros _].
  apply respects_bind; [apply (respects_always _ (Ret tt)); auto|intros _].
  apply respects_bind; [apply respects_engine_FS_read|intros gcode].
  apply respects_bind; [apply respects_engine_FS|intros _].
  apply respects_bind; [apply respects_engine_FS|intros _].
  intros w w' Hsame. auto.
Qed.

(** X9: the result of [run] and the engine it leaves depend only on the
    engine it starts from and on its arguments: two states with the same
    engine give the same outcome and the same final engine, whatever
    their subscribers, callbacks left by an earlier run, recorded
    extruder count or earlier output. *)
Theorem run_depends_on_engine_only w w' command overrides verbose file
    extension :
  engine w = engine w' →
  (run command overrides verbose file extension w).1 =
  (run command overrides verbose file extension w').1 ∧
  engine (run command overrides verbose file extension w).2 =
  engine (run command overrides verbose file extension w').2.
Proof.
  revert w w'. change (respects (run command overrides verbose file extension)).
  unfold run. apply respects_bind.
  - intros w w' Hsame. unfold gets. simpl. rewrite Hsame. auto.
  - intros [e|]; [|intros w w' Hsame; auto].
    apply respects_bind.
    + unfold await_convert. apply respects_bind.
      * apply respects_for_each. intros c.
        apply (respects_always _ (Ret tt)). intros w. unfold emit_progress.
        destruct (can_emit _); auto.
      * intros _. destruct (converted _); intros w w' Hsame; auto.
    + intros [stl|err]; [apply respects_slice|].
      intros w w' Hsame. auto.
Qed.

(** ** Staging: guards and failures *)

(** X10: [removeDefinitions] needs a recorded extruder count as well as
    an engine: with no count on record (no staging has returned yet) it
    throws its not-initialised error and changes nothing, engine or not. *)
Theorem unstage_before_stage w :
  extruderCount w = None →
  removeDefinitions w =
  (Throw (JsError "Attempting to remove definitions before initialization!"),
   w).
Proof.
  intros Hcount. unfold removeDefinitions, bind, gets. rewrite Hcount.
  destruct (engine w); reflexivity.
Qed.

Lemma same_directories_refl w : same_directories w w.
Proof. split; reflexivity. Qed.

Lemma same_directories_trans w1 w2 w3 :
  same_directories w1 w2 → same_directories w2 w3 → same_directories w1 w3.
Proof. unfold same_directories. intros [? ?] [? ?]. split; congruence. Qed.

Lemma writeFile_same_directories p data :
  keeps (Heap := Heap) same_directories (engine_FS (FS_writeFile p data)).
Proof.
  intros w. unfold engine_FS, same_directories, directories.
  destruct (engine w) as [e|] eqn:He; simpl; [|rewrite He; auto].
  unfold FS_writeFile. destruct (bool_decide _); simpl; [rewrite He; auto|].
  destruct (negb _); simpl; rewrite ?He; auto.
Qed.

(** With [/definitions] already there, staging stops at [mkdir]. *)
Lemma addDefinitions_exists (definition : CombinedDefinition json) w e :
  engine w = Some e →
  "/definitions" ∈ dom (files (FS e)) ∪ dirs (FS e) →
  addDefinitions definition w = (Throw (ErrnoError EEXIST), w).
Proof.
  intros Hengine Hthere.
  rewrite (addDefinitions_staged definition w e Hengine).
  apply bind_throw. apply (engine_FS_failed _ w e _ Hengine).
  unfold FS_mkdir. change (resolve "/definitions") with "/definitions".
  rewrite bool_decide_eq_true_2 by exact Hthere. reflexivity.
Qed.

(** A staging that returns leaves the directory behind. *)
Lemma addDefinitions_directory (definition : CombinedDefinition json) w :
  (addDefinitions definition w).1 = Ret tt →
  ∃ e', engine (addDefinitions definition w).2 = Some e' ∧
        "/definitions" ∈ dirs (FS e').
Proof.
  destruct (addDefinitions definition w) as [out w'] eqn:Hrun. simpl.
  intros ->. revert Hrun.
  destruct (engine w) as [e|] eqn:He.
  2:{ unfold addDefinitions, bind, gets. rewrite He. discriminate. }
  rewrite (addDefinitions_staged definition w e He). unfold bind at 1.
  destruct (FS_mkdir "/definitions" (FS e)) as [f1|err] eqn:Hmkdir.
  2:{ rewrite (engine_FS_failed _ w e err He Hmkdir). discriminate. }
  rewrite (engine_FS_done _ w e f1 He Hmkdir).
  assert (Hdir : "/definitions" ∈ dirs f1).
  { revert Hmkdir. unfold FS_mkdir.
    change (resolve "/definitions") with "/definitions".
    destruct (bool_decide _); [discriminate|].
    destruct (negb _); [discriminate|]. intros [= <-]. simpl.
    apply elem_of_union. left. apply elem_of_singleton. reflexivity. }
  set (w1 := set_engine _ w). unfold bind.
  pose proof (keeps_for_each same_directories (staged_files definition)
                (λ it, engine_FS (FS_writeFile it.1 it.2))
                same_directories_refl same_directories_trans
                (λ it, writeFile_same_directories it.1 it.2) w1)
    as [Hdirs _].
  destruct (for_each _ _ w1) as [[[]|err] w2]; [|discriminate].
  intros [= <-]. simpl in *. unfold directories in Hdirs. simpl in Hdirs.
  destruct (engine w2) as [e2|]; [|discriminate].
  injection Hdirs as Hdirs. exists e2. split; [reflexivity|].
  rewrite Hdirs. exact Hdir.
Qed.

(** X11: staging twice without unstaging in between fails: the second
    [addDefinitions] throws [EEXIST] from [mkdir] and changes nothing,
    so the files and the recorded count stay those of the first. *)
Theorem stage_twice_rejected w (first second : CombinedDefinition json) :
  (addDefinitions first w).1 = Ret tt →
  addDefinitions second (addDefinitions first w).2 =
  (Throw (ErrnoError EEXIST), (addDefinitions first w).2).
Proof.
  intros Hfirst.
  destruct (addDefinitions_directory first w Hfirst) as (e' & He' & Hdir).
  apply (addDefinitions_exists second _ e' He').
  apply elem_of_union. right. exact Hdir.
Qed.

(** X12: the extruder count is recorded last: a staging that throws,
    at whatever step, leaves the recorded count as it was. *)
Theorem failed_stage_keeps_count w (definition : CombinedDefinition json)
    err :
  (addDefinitions definition w).1 = Throw err →
  extruderCount (addDefinitions definition w).2 = extruderCount w.
Proof.
  destruct (addDefinitions definition w) as [out w'] eqn:Hrun. simpl.
  intros ->. revert Hrun.
  destruct (engine w) as [e|] eqn:He.
  2:{ unfold addDefinitions, bind, gets. rewrite He. intros [= _ <-].
      reflexivity. }
  rewrite (addDefinitions_staged definition w e He). unfold bind.
  pose proof (engine_FS_handle (FS_mkdir "/definitions") w) as [Hcount1 _].
  destruct (engine_FS (FS_mkdir "/definitions") w) as [[[]|err1] w1];
    [|intros [= _ <-]; exact Hcount1].
  pose proof (keeps_for_each same_directories (staged_files definition)
                (λ it, engine_FS (FS_writeFile it.1 it.2))
                same_directories_refl same_directories_trans
                (λ it, writeFile_same_directories it.1 it.2) w1)
    as [_ Hcount2].
  destruct (for_each _ _ w1) as [[[]|err2] w2]; [discriminate|].
  intros [= _ <-]. simpl in *. congruence.
Qed.

(** ** What staging writes *)




(** ** How many progress values a run can send *)

(** X14: deduplication bounds the traffic.  In an initialised run whose
    conversion succeeds and whose engine reports non-decreasing fractions
    within [0,1], the progress subscriber receives one value per
    converter report and at most 100 values from the engine, however many
    times the engine calls the callback.  Numbers are binary64. *)
Theorem progress_stream_bounded w e command overrides verbose file
    extension stl :
  engine w = Some e →
  converted (convert file extension) = Ret (inl stl) →
  rising_fractions (slicing_raws command overrides verbose stl e) →
  (length (forwarded 0 (slicing_raws command overrides verbose stl e))
   ≤ 100)%nat ∧
  (length (progressStream (run command overrides verbose file extension w).2)
   ≤ length (progressStream w) +
     length (reported (convert file extension)) + 100)%nat.
Proof.
  intros Hengine Hconv Hrise.
  destruct (forwarded_climbs _ Hrise 0 0%Z ltac:(lia)
              (or_introl (conj eq_refl eq_refl))) as [_ Hcount].
  change (Z.to_nat (100 - 0)) with 100%nat in Hcount.
  split; [exact Hcount|].
  rewrite (run_stream w e command overrides verbose file extension stl
             Hengine Hconv).
  destruct (can_emit (progressObserver w));
    rewrite ?length_app, ?length_map; simpl; lia.
Qed.

(** ** What unstaging and running leave alone *)

Lemma unlink_same_directories p :
  keeps (Heap := Heap) same_directories (engine_FS (FS_unlink p)).
Proof.
  intros w. unfold engine_FS, same_directories, directories.
  destruct (engine w) as [e|] eqn:He; simpl; [|rewrite ?He; auto].
  unfold FS_unlink. destruct (files (FS e) !! resolve p); simpl;
    [rewrite ?He; auto|].
  destruct (bool_decide _); simpl; rewrite ?He; auto.
Qed.

(** X15: the directory is removed last: an unstaging that throws, at
    whatever step, leaves the set of directories of the engine's
    filesystem and the recorded count as they were. *)
Theorem failed_unstage_keeps_directory w err :
  (removeDefinitions w).1 = Throw err →
  directories (removeDefinitions w).2 = directories w ∧
  extruderCount (removeDefinitions w).2 = extruderCount w.
Proof.
  destruct (removeDefinitions w) as [out w'] eqn:Hrun. simpl.
  intros ->. revert Hrun.
  destruct (engine w) as [e|] eqn:He.
  2:{ unfold removeDefinitions, bind, gets. rewrite He.
      intros [= _ <-]. split; reflexivity. }
  destruct (extruderCount w) as [n|] eqn:Hn.
  2:{ unfold removeDefinitions, bind, gets. rewrite He, Hn.
      intros [= _ <-]. split; congruence. }
  rewrite (removeDefinitions_staged w e n He Hn). unfold bind.
  pose proof (keeps_for_each same_directories (removed_paths n)
                (λ p, engine_FS (FS_unlink p))
                same_directories_refl same_directories_trans
                unlink_same_directories w) as [Hdirs Hcount].
  destruct (for_each _ _ w) as [[[]|err1] w1]; simpl in *.
  - unfold engine_FS. destruct (engine w1) as [e1|] eqn:He1.
    + destruct (FS_rmdir "/definitions" (FS e1)); [discriminate|].
      intros [= _ <-]. split; congruence.
    + intros [= _ <-]. split; congruence.
  - intros [= _ <-]. split; congruence.
Qed.

Lemma registrations_frame_refl w : registrations_frame w w.
Proof. repeat split; auto. Qed.

Lemma registrations_frame_trans w1 w2 w3 :
  registrations_frame w1 w2 → registrations_frame w2 w3 →
  registrations_frame w1 w3.
Proof.
  unfold registrations_frame. intros (?&?&?&?) (?&?&?&?).
  repeat split; try congruence. auto.
Qed.

Ltac registrations_kept :=
  intros ?w; repeat split; simpl; auto.

Lemma engine_FS_registrations op :
  keeps (Heap := Heap) registrations_frame (engine_FS op).
Proof.
  intros w. unfold engine_FS. destruct (engine w) as [e|] eqn:He.
  - destruct (op (FS e)); repeat split; simpl; rewrite ?He; eauto.
  - repeat split; simpl; auto.
Qed.

Lemma deliver_registrations ev :
  keeps (Heap := Heap) registrations_frame (deliver ev).
Proof.
  intros w. destruct (deliver_metadata_side_any ev w) as (w' & -> & Hframe).
  destruct Hframe as (He & Hc & Hp & Hm & _). simpl.
  repeat split; try assumption. rewrite He. auto.
Qed.

Lemma engine_callMain_registrations args :
  keeps registrations_frame (engine_callMain args).
Proof.
  unfold engine_callMain.
  apply keeps_bind; [apply registrations_frame_trans|registrations_kept|].
  intros [e|]; [|registrations_kept].
  apply keeps_bind; [apply registrations_frame_trans|registrations_kept|].
  intros _.
  apply keeps_bind; [apply registrations_frame_trans| |].
  { apply keeps_for_each;
      [apply registrations_frame_refl|apply registrations_frame_trans|].
    apply deliver_registrations. }
  intros _.
  apply keeps_bind; [apply registrations_frame_trans| |].
  { intros w. repeat split; simpl; eauto. }
  intros _. destruct (fault _); registrations_kept.
Qed.

(** X16: whatever its outcome, [run] keeps the recorded extruder count
    and both subscribers, and never leaves the worker without an engine;
    so a [removeDefinitions] that would pass its guard before a run
    still passes it after. *)
Theorem run_keeps_registrations w command overrides verbose file
    extension :
  extruderCount (run command overrides verbose file extension w).2 =
    extruderCount w ∧
  progressObserver (run command overrides verbose file extension w).2 =
    progressObserver w ∧
  metadataObserver (run command overrides verbose file extension w).2 =
    metadataObserver w ∧
  (is_Some (engine w) →
   is_Some (engine (run command overrides verbose file extension w).2)).
Proof.
  revert w.
  change (keeps registrations_frame
            (run command overrides verbose file extension)).
  unfold run.
  apply keeps_bind; [apply registrations_frame_trans|registrations_kept|].
  intros [e|]; [|registrations_kept].
  apply keeps_bind; [apply registrations_frame_trans| |].
  { unfold await_convert.
    apply keeps_bind; [apply registrations_frame_trans| |].
    - apply keeps_for_each;
        [apply registrations_frame_refl|apply registrations_frame_trans|].
      intros c w. unfold emit_progress. destruct (can_emit _);
        repeat split; simpl; auto.
    - intros _. destruct (converted _); registrations_kept. }
  intros [stl|err]; [|registrations_kept].
  unfold slice.
  apply keeps_bind;
    [apply registrations_frame_trans|apply engine_FS_registrations|].
  intros _.
  apply keeps_bind; [apply registrations_frame_trans|registrations_kept|].
  intros _.
  apply keeps_bind; [apply registrations_frame_trans|registrations_kept|].
  intros _.
  apply keeps_bind; [apply registrations_frame_trans| |].
  { destruct (truthy verbose); registrations_kept. }
  intros _.
  apply keeps_bind;
    [apply registrations_frame_trans|apply engine_callMain_registrations|].
  intros _.
  apply keeps_bind; [apply registrations_frame_trans|registrations_kept|].
  intros _.
  apply keeps_bind; [apply registrations_frame_trans| |].
  { intros w. unfold engine_FS_read. destruct (engine w);
      repeat split; simpl; auto. }
  intros gcode.
  apply keeps_bind;
    [apply registrations_frame_trans|apply engine_FS_registrations|].
  intros _.
  apply keeps_bind;
    [apply registrations_frame_trans|apply engine_FS_registrations|].
  intros _. registrations_kept.
Qed.

End Properties.

(** * The theorems at work on the sample collaborators *)

Module Checks.

Import Sample.

(** [ready] is what [initialize] and the two subscriptions build. *)
Example ready_after_initialize :
  (initialize false ;;
   observeProgress {| has_next := true |} ;;
   observeMetadata {| has_next := true |}) unborn = (Ret tt, ready).
Proof. reflexivity. Qed.

Example split_launch :
  split " " launch =
  ["slice"; "-j"; "definitions/printer.def.json"; "-l"; "Model.stl";
   "-o"; "Model.gcode"].
Proof. reflexivity. Qed.

Example split_keeps_empty_tokens :
  split " " " a  b" = [""; "a"; ""; "b"] ∧ split " " "" = [""].
Proof. split; reflexivity. Qed.

Example rounded_half_up :
  rounded 0.004 = 0 ∧ rounded 0.005 = 0.01 ∧ rounded 0.251 = 0.25 ∧
  rounded 1 = 1 ∧ Math_round 2.5 = 3 ∧ Math_round (-2.5) = -2 ∧
  Math_round (-0.2) = neg_zero ∧ Math_round 0.49999999999999994 = 0.
Proof. repeat split. Qed.

(** The product [100 * slicerProgress] is rounded to binary64 before
    [Math.round] sees it: [100 * 0.015] is exactly [1.5], which rounds up,
    and the blended value carries the rounding of its own operations. *)
Example rounded_binary64 :
  100 * 0.015 = 1.5 ∧ rounded 0.015 = 0.02 ∧ rounded 0.01 = 0.01 ∧
  rounded 0.5 * slicerBias "3mf" + converterBias "3mf" =
    0.6499999999999999 ∧
  0.7 + 0.3 = 1.
Proof. repeat split. Qed.

Example sample_run_stream :
  progressStream (run None None None model "3mf" ready).2 =
  [0.25 * 0.3; 0.5 * 0.3; 1 * 0.3;
   rounded 0.25 * slicerBias "3mf" + 0.3;
   rounded 0.5 * slicerBias "3mf" + 0.3;
   rounded 1 * slicerBias "3mf" + 0.3].
Proof. vm_compute. reflexivity. Qed.

Lemma loaded_written : FS_writeFile "Model.stl" model (FS fresh) = Ret loaded.
Proof. reflexivity. Qed.

Lemma uninitialized_calls_rejected_witness :
  removeDefinitions unborn =
  (Throw (JsError "Attempting to remove definitions before initialization!"),
   unborn).
Proof.
  exact (proj2 (proj2 (uninitialized_calls_rejected unborn eq_refl))).
Defined.

Lemma conversion_error_returned_witness :
  (run None None None model "obj" ready).1 =
  Ret (inr (JsError "Unknown file extension")).
Proof.
  exact (proj1 (conversion_error_returned ready fresh None None None model
                  "obj" (JsError "Unknown file extension") eq_refl eq_refl)).
Defined.

Lemma raw_command_is_split_verbatim_witness :
  mainCalls (run (Some launch) None None model "stl" ready).2 =
  [["slice"; "-j"; "definitions/printer.def.json"; "-l"; "Model.stl";
    "-o"; "Model.gcode"]].
Proof.
  exact (proj1 (raw_command_is_split_verbatim ready fresh launch None None
                  model "stl" model loaded eq_refl eq_refl loaded_written)).
Defined.

Lemma progress_callback_released_on_return_witness :
  cura_wasm_progress_callback (run None None None model "stl" ready).2 = None ∧
  (run (Some "abort") None None model "stl" ready).1 =
    Throw (EngineAbort "abort() called") ∧
  is_Some (cura_wasm_progress_callback
             (run (Some "abort") None None model "stl" ready).2).
Proof.
  split.
  - exact (progress_callback_released_on_return ready fresh None None None
             model "stl" model loaded eq_refl eq_refl loaded_written).
  - exact (progress_callback_released_on_return ready fresh (Some "abort")
             None None model "stl" model loaded eq_refl eq_refl
             loaded_written).
Defined.

(** C1, refuted as stated: after a run that returns its G-code the
    metadata callback is still registered, and after a run whose engine
    call throws both callbacks are. *)
Lemma callbacks_left_registered :
  (run None None None model "stl" ready).1 = Ret (inl gcode) ∧
  cura_wasm_metadata_callback (run None None None model "stl" ready).2 =
    Some metadataHandler ∧
  (run (Some "abort") None None model "stl" ready).1 =
    Throw (EngineAbort "abort() called") ∧
  is_Some (cura_wasm_progress_callback
             (run (Some "abort") None None model "stl" ready).2) ∧
  cura_wasm_metadata_callback
    (run (Some "abort") None None model "stl" ready).2 =
    Some metadataHandler.
Proof. vm_compute. repeat split. eauto. Qed.

Lemma sample_conversion_rises :
  rising_fractions (reported (convert model "3mf")).
Proof.
  change (rising_fractions [0.25; 0.5; 1]).
  split; repeat constructor; reflexivity.
Defined.

Lemma sample_slicing_rises :
  rising_fractions (slicing_raws None None None model fresh).
Proof.
  change (rising_fractions [0.001; 0.25; 0.251; 0.5; 1]).
  split; repeat constructor; reflexivity.
Defined.

Lemma sample_converted : converted (convert model "3mf") = Ret (inl model).
Proof. reflexivity. Defined.

Lemma progress_stream_rises_witness :
  StronglySorted number_le
    (progressStream (run None None None model "3mf" ready).2) ∧
  Forall fraction (progressStream (run None None None model "3mf" ready).2).
Proof.
  destruct (progress_stream_rises ready fresh None None None model "3mf"
              model eq_refl sample_converted sample_conversion_rises
              sample_slicing_rises)
    as (emitted & Hstream & _ & Hsorted & Hunit).
  rewrite Hstream. split; [exact Hsorted|exact Hunit].
Defined.

Lemma duplicate_progress_not_forwarded_witness :
  progressStream (deliver (ProgressEvent 0.25) slicing).2 =
    [rounded 0.25 * 0.7 + 0.3] ∧
  progressStream
    (deliver (ProgressEvent 0.251) (deliver (ProgressEvent 0.25) slicing).2).2 =
  progressStream (deliver (ProgressEvent 0.25) slicing).2.
Proof.
  split; [reflexivity|].
  refine (proj1 (duplicate_progress_not_forwarded ready fresh None None None
                   model "stl" model eq_refl eq_refl) slicing 0.25 0.251 _).
  reflexivity.
Defined.

(** Two raw values whose binary64 roundings differ are both sent; so is
    [NaN] each time, which [!=] tells apart from itself. *)
Example close_values_both_forwarded :
  progressStream
    (deliver (ProgressEvent 0.015) (deliver (ProgressEvent 0.01) slicing).2).2 =
    [0.01 * 0.7 + 0.3; 0.02 * 0.7 + 0.3] ∧
  progressStream
    (deliver (ProgressEvent nan) (deliver (ProgressEvent nan) slicing).2).2 =
    [nan; nan].
Proof. split; reflexivity. Qed.

Lemma sample_passed : converted (convert model "stl") = Ret (inl model).
Proof. reflexivity. Defined.

Lemma zero_progress_held_back_witness :
  (progressStream (deliver (ProgressEvent 0.001) slicing).2 =
     progressStream slicing ∧
   cura_wasm_progress_callback (deliver (ProgressEvent 0.001) slicing).2 =
     cura_wasm_progress_callback slicing) ∧
  forwarded 0 (slicing_raws None None None model fresh) =
    forwarded 0 [0.25; 0.251; 0.5; 1] ∧
  Forall (λ r, (r =? 0) = false)
    (forwarded 0 (slicing_raws None None None model fresh)).
Proof.
  destruct (zero_progress_held_back ready fresh None None None model "stl"
              model eq_refl sample_passed)
    as (Hstep & sent & -> & _ & _ & Hheld & Hnone).
  split; [|split].
  - exact (Hstep slicing _ 0.001 eq_refl eq_refl eq_refl).
  - apply (Hheld [0.001]); [reflexivity|].
    constructor; [reflexivity|constructor].
  - exact (Hnone sample_slicing_rises).
Defined.

(** C10, refuted as stated: the engine reports 0.5 and then 0; the
    second value rounds to 0 and is sent all the same, after the first. *)
Lemma zero_progress_forwarded_after_rewind :
  slicing_raws (Some "rewind") None None model fresh = [0.5; 0] ∧
  (rounded 0 =? 0) = true ∧
  progressStream (run (Some "rewind") None None model "stl" ready).2 =
  [rounded 0.5 * slicerBias "stl" + converterBias "stl";
   rounded 0 * slicerBias "stl" + converterBias "stl"].
Proof. vm_compute. repeat split. Qed.

Lemma sample_names_distinct : primary_names_distinct.
Proof.
  split.
  - change (NoDup ["fdmextruder"; "fdmprinter"]).
    repeat constructor; intros Hin;
      repeat (apply elem_of_cons in Hin as [Hin|Hin]; [discriminate|]);
      inversion Hin.
  - change (Forall (λ name, dirname name = None ∧ name ≠ "printer" ∧
                            ∀ i : nat, name ≠ "extruder-" +:+ pretty i)
              ["fdmextruder"; "fdmprinter"]).
    repeat constructor; try discriminate; intros i; discriminate.
Defined.

Lemma fresh_empty (p : string) :
  p ∉ dom (files (FS fresh)) ∪ dirs (FS fresh).
Proof.
  apply not_elem_of_union. split.
  - change (p ∉ dom (∅ : gmap string bytes)). rewrite dom_empty_L.
    apply not_elem_of_empty.
  - apply not_elem_of_empty.
Defined.

Lemma fresh_well_formed : fs_wf (FS fresh).
Proof. intros p Hp. destruct (fresh_empty p Hp). Defined.

Lemma fresh_without_definitions :
  "/definitions" ∉ dom (files (FS fresh)) ∪ dirs (FS fresh).
Proof. apply fresh_empty. Defined.

Lemma stage_unstage_round_trip_witness :
  removeDefinitions (addDefinitions ultimaker2 ready).2 =
  (Ret tt, set_extruderCount (Some 2%nat) ready).
Proof.
  destruct (stage_unstage_round_trip ready fresh ultimaker2 eq_refl
              fresh_well_formed fresh_without_definitions
              sample_names_distinct)
    as (staged & Hadd & _ & _ & _ & _ & _ & Hremove & _).
  rewrite Hadd. exact Hremove.
Defined.

Lemma sample_staged : (addDefinitions ultimaker2 ready).1 = Ret tt.
Proof. vm_compute. reflexivity. Defined.

Lemma sample_unstaged :
  (removeDefinitions (addDefinitions ultimaker2 ready).2).1 = Ret tt.
Proof. vm_compute. reflexivity. Defined.

Lemma extruder_count_survives_removal_witness :
  extruderCount (removeDefinitions (addDefinitions ultimaker2 ready).2).2 =
  Some 2%nat.
Proof.
  exact (proj1 (extruder_count_survives_removal ready ultimaker2
                  sample_staged sample_unstaged)).
Defined.

(** The second unstaging of that witness fails on the first missing
    file. *)
Example second_unstage_sample :
  (removeDefinitions
     (removeDefinitions (addDefinitions ultimaker2 ready).2).2).1 =
  Throw (ErrnoError ENOENT).
Proof. vm_compute. reflexivity. Qed.

(** ** The further properties on the samples *)

Lemma run_metadata_stream_witness :
  metadataStream (run None None None model "stl" ready).2 =
  raw_metadata [report].
Proof.
  exact (run_metadata_stream ready fresh None None None model "stl" model
           loaded eq_refl sample_passed loaded_written).
Defined.

Lemma sample_output :
  files (FS (after (main (generator None None) {| FS := loaded; heap := tt |})))
    !! "/Model.gcode" = Some gcode.
Proof. vm_compute. reflexivity. Defined.

Lemma sample_input :
  files (FS (after (main (generator None None) {| FS := loaded; heap := tt |})))
    !! "/Model.stl" = Some model.
Proof. vm_compute. reflexivity. Defined.

Lemma run_returns_output_witness :
  (run None None None model "stl" ready).1 = Ret (inl gcode).
Proof.
  exact (proj1 (run_returns_output ready fresh None None None model "stl"
                  model loaded _ gcode model eq_refl sample_passed
                  loaded_written eq_refl eq_refl sample_output sample_input)).
Defined.

Lemma dry_no_output :
  files (FS (after (Dry.main (generator None None)
                      {| FS := loaded; heap := tt |})))
    !! "/Model.gcode" = None.
Proof. vm_compute. reflexivity. Defined.

Lemma dry_no_directory :
  "/Model.gcode" ∉ dirs (FS (after (Dry.main (generator None None)
                                      {| FS := loaded; heap := tt |}))).
Proof. apply not_elem_of_empty. Defined.

Lemma run_without_output_witness :
  (run (foreign := Dry.foreign) None None None model "stl" ready).1 =
    Throw (ErrnoError ENOENT) ∧
  engine (run (foreign := Dry.foreign) None None None model "stl" ready).2 =
    Some {| FS := loaded; heap := tt |}.
Proof.
  destruct (run_without_output (foreign := Dry.foreign) ready fresh None None
              None model "stl" model loaded _ eq_refl sample_passed
              loaded_written eq_refl eq_refl dry_no_output dry_no_directory)
    as (Hout & Hengine & _).
  split; [exact Hout|exact Hengine].
Defined.

Lemma run_engine_fault_witness :
  (run (Some "abort") None None model "stl" ready).1 =
    Throw (EngineAbort "abort() called") ∧
  engine (run (Some "abort") None None model "stl" ready).2 =
    Some {| FS := loaded; heap := tt |}.
Proof.
  destruct (run_engine_fault ready fresh (Some "abort") None None model "stl"
              model loaded _ (EngineAbort "abort() called") eq_refl
              sample_passed loaded_written eq_refl eq_refl)
    as (Hout & Hengine & _).
  split; [exact Hout|exact Hengine].
Defined.

Lemma run_console_line_witness :
  console (run (Some launch) None (Some true) model "stl" ready).2 =
  ["Calling Cura Engine with " +:+ launch].
Proof.
  exact (proj1 (run_console_line ready fresh (Some launch) None (Some true)
                  model "stl" model loaded eq_refl sample_passed
                  loaded_written)).
Defined.

Lemma conversion_rejection_propagates_witness :
  (run (foreign := Dry.rejecting) None None None model "stl" slicing).1 =
    Throw (JsError "Unknown file format") ∧
  cura_wasm_progress_callback
    (run (foreign := Dry.rejecting) None None None model "stl" slicing).2 =
    cura_wasm_progress_callback slicing.
Proof.
  destruct (conversion_rejection_propagates (foreign := Dry.rejecting)
              slicing fresh None None None model "stl"
              (JsError "Unknown file format") eq_refl eq_refl)
    as (Hout & _ & _ & Hslot & _).
  split; [exact Hout|exact Hslot].
Defined.

Lemma blocked_write :
  FS_writeFile "Model.stl" model (mkfs ∅ {[ "/Model.stl" ]}) =
  Throw (ErrnoError EISDIR).
Proof. vm_compute. reflexivity. Defined.

Lemma model_write_failure_witness :
  (run None None None model "stl" Dry.blocked).1 = Throw (ErrnoError EISDIR) ∧
  mainCalls (run None None None model "stl" Dry.blocked).2 = [].
Proof.
  destruct (model_write_failure Dry.blocked
              {| FS := mkfs ∅ {[ "/Model.stl" ]}; heap := tt |}
              None None None model "stl" model (ErrnoError EISDIR)
              eq_refl sample_passed blocked_write)
    as (Hout & Hcalls & _).
  split; [exact Hout|exact Hcalls].
Defined.

Lemma run_depends_on_engine_only_witness :
  (run None None None model "3mf" ready).1 =
  (run None None None model "3mf" Dry.littered).1.
Proof.
  exact (proj1 (run_depends_on_engine_only ready Dry.littered None None None
                  model "3mf" eq_refl)).
Defined.

Lemma unstage_before_stage_witness :
  removeDefinitions ready =
  (Throw (JsError "Attempting to remove definitions before initialization!"),
   ready).
Proof. exact (unstage_before_stage ready eq_refl). Defined.

Lemma stage_twice_rejected_witness :
  addDefinitions ultimaker2 (addDefinitions ultimaker2 ready).2 =
  (Throw (ErrnoError EEXIST), (addDefinitions ultimaker2 ready).2).
Proof. exact (stage_twice_rejected ready ultimaker2 ultimaker2 sample_staged). Defined.

Lemma sample_restaged :
  (addDefinitions {| printer := "{}"; extruders := ["{}"] |}
     (addDefinitions ultimaker2 ready).2).1 = Throw (ErrnoError EEXIST).
Proof. vm_compute. reflexivity. Defined.

Lemma failed_stage_keeps_count_witness :
  extruderCount
    (addDefinitions {| printer := "{}"; extruders := ["{}"] |}
       (addDefinitions ultimaker2 ready).2).2 =
  extruderCount (addDefinitions ultimaker2 ready).2.
Proof.
  exact (failed_stage_keeps_count (addDefinitions ultimaker2 ready).2
           {| printer := "{}"; extruders := ["{}"] |} (ErrnoError EEXIST)
           sample_restaged).
Defined.


Lemma progress_stream_bounded_witness :
  (length (progressStream (run None None None model "stl" ready).2)
   ≤ 0 + 0 + 100)%nat.
Proof.
  exact (proj2 (progress_stream_bounded ready fresh None None None model
                  "stl" model eq_refl sample_passed sample_slicing_rises)).
Defined.

Lemma sample_unstaged_twice :
  (removeDefinitions
     (removeDefinitions (addDefinitions ultimaker2 ready).2).2).1 =
  Throw (ErrnoError ENOENT).
Proof. vm_compute. reflexivity. Defined.

Lemma failed_unstage_keeps_directory_witness :
  extruderCount
    (removeDefinitions
       (removeDefinitions (addDefinitions ultimaker2 ready).2).2).2 =
  extruderCount (removeDefinitions (addDefinitions ultimaker2 ready).2).2.
Proof.
  exact (proj2 (failed_unstage_keeps_directory _ (ErrnoError ENOENT)
                  sample_unstaged_twice)).
Defined.

End Checks.
